(** * The last-value accumulator of the Prometheus exporter

    A shallow embedding of [exporter/prometheusexporter/accumulator.go]:
    the aggregation store [registeredMetrics], the four per-kind merge
    policies, the dispatching [Accumulate] and the evicting [Collect],
    followed by the properties the specification states about them.

    Conventions of the embedding.
    - [sync.Map] keyed by the signature string is a [gmap string _].
    - [time.Time] values and the instant denoted by a datapoint's
      [Timestamp().AsTime()] are integers on one time line, so that
      [t.Before(u)] is [t < u] and [t.After(u)] is [u < t].
    - A Go panic (a kind accessor applied to a metric of another kind,
      [At(0)] on an empty slice) is [None] in the option monad.
    - pdata values are references: a method that updates its receiver in
      place is a function that returns the updated value, and the functions
      below hand back the batch they were given as they leave it.
    - The processed count is a [nat]; it is bounded by the number of
      datapoints of the batch, far below the range of a Go [int]. *)

From Stdlib Require Import ZArith String Ascii List Lia Permutation.
From stdpp Require Import base option list gmap strings fin_maps sorting.

Local Open Scope string_scope.
Local Open Scope list_scope.
Local Open Scope Z_scope.

(** ** The pdata data model, as far as the accumulator reads and writes it

    Package [model/pdata] is not under src/; what the accumulator uses of
    it is described here, each method next to its definition. Logging is
    advisory and left out. *)

Inductive MetricDataType :=
| MetricDataTypeNone
| MetricDataTypeGauge
| MetricDataTypeSum
| MetricDataTypeHistogram
| MetricDataTypeSummary.

(** Modelled from the spec: [MetricDataType.String()] of pdata, "the metric
    kind's canonical name". *)
Definition MetricDataType_String (t : MetricDataType) : string :=
  match t with
  | MetricDataTypeNone => "None"
  | MetricDataTypeGauge => "Gauge"
  | MetricDataTypeSum => "Sum"
  | MetricDataTypeHistogram => "Histogram"
  | MetricDataTypeSummary => "Summary"
  end.

(** Modelled from the spec: pdata's [AggregationTemporality], "cumulative"
    as opposed to "delta"; the zero value of the enumeration is
    [Unspecified]. *)
Inductive AggregationTemporality :=
| AggregationTemporalityUnspecified
| AggregationTemporalityDelta
| AggregationTemporalityCumulative.

#[global] Instance AggregationTemporality_eq_dec : EqDecision AggregationTemporality.
Proof. solve_decision. Defined.

#[global] Instance MetricDataType_eq_dec : EqDecision MetricDataType.
Proof. solve_decision. Defined.

(** What the accumulator never looks into: the attribute values (only
    rendered by [AttributeValueToString]) and the kind-specific payload of
    a datapoint (value, start time, buckets, quantiles, exemplars), which
    is only copied. *)
Class Pdata := {
  AttributeValue : Type;
  AttributeValueToString : AttributeValue → string;
  NumberValue : Type;
  HistogramValue : Type;
  SummaryValue : Type
}.

Section Model.
Context `{Pdata}.

(** [pdata.AttributeMap] is a slice of key/value entries. *)
Definition AttributeMap : Type := list (string * AttributeValue).

Record DataPoint (V : Type) := mkDataPoint {
  Attributes : AttributeMap;
  Timestamp : Z;
  Payload : V
}.
#[global] Arguments mkDataPoint {V} _ _ _.
#[global] Arguments Attributes {V} _.
#[global] Arguments Timestamp {V} _.
#[global] Arguments Payload {V} _.

Definition NumberDataPoint : Type := DataPoint NumberValue.
Definition HistogramDataPoint : Type := DataPoint HistogramValue.
Definition SummaryDataPoint : Type := DataPoint SummaryValue.

Record Gauge := mkGauge {
  Gauge_DataPoints : list NumberDataPoint
}.

Record Sum := mkSum {
  Sum_AggregationTemporality : AggregationTemporality;
  Sum_IsMonotonic : bool;
  Sum_DataPoints : list NumberDataPoint
}.

Record Histogram := mkHistogram {
  Histogram_AggregationTemporality : AggregationTemporality;
  Histogram_DataPoints : list HistogramDataPoint
}.

Record Summary := mkSummary {
  Summary_DataPoints : list SummaryDataPoint
}.

Inductive MetricData :=
| DataNone
| DataGauge (g : Gauge)
| DataSum (s : Sum)
| DataHistogram (h : Histogram)
| DataSummary (s : Summary).

Record Metric := mkMetric {
  Name : string;
  Description : string;
  Unit : string;
  Data : MetricData
}.

Definition DataType (m : Metric) : MetricDataType :=
  match Data m with
  | DataNone => MetricDataTypeNone
  | DataGauge _ => MetricDataTypeGauge
  | DataSum _ => MetricDataTypeSum
  | DataHistogram _ => MetricDataTypeHistogram
  | DataSummary _ => MetricDataTypeSummary
  end.

(** The kind accessors panic on a metric of another kind. *)
Definition Metric_Gauge (m : Metric) : option Gauge :=
  match Data m with DataGauge g => Some g | _ => None end.

Definition Metric_Sum (m : Metric) : option Sum :=
  match Data m with DataSum s => Some s | _ => None end.

Definition Metric_Histogram (m : Metric) : option Histogram :=
  match Data m with DataHistogram h => Some h | _ => None end.

Definition Metric_Summary (m : Metric) : option Summary :=
  match Data m with DataSummary s => Some s | _ => None end.

(** Modelled from the spec: pdata's [NewMetric], an empty metric
    description whose kind is not set yet. *)
Definition NewMetric : Metric :=
  {| Name := ""; Description := ""; Unit := ""; Data := DataNone |}.

Definition SetName (s : string) (m : Metric) : Metric :=
  {| Name := s; Description := Description m; Unit := Unit m; Data := Data m |}.

Definition SetDescription (s : string) (m : Metric) : Metric :=
  {| Name := Name m; Description := s; Unit := Unit m; Data := Data m |}.

Definition SetUnit (s : string) (m : Metric) : Metric :=
  {| Name := Name m; Description := Description m; Unit := s; Data := Data m |}.

Definition SetData (d : MetricData) (m : Metric) : Metric :=
  {| Name := Name m; Description := Description m; Unit := Unit m; Data := d |}.

(** Modelled from the spec: pdata's [SetDataType], the last of the setters
    of a metric "description (name, description, unit, kind)". It installs
    an empty payload of the kind: no datapoints, and the zero values of the
    monotonic flag and of the temporality. *)
Definition SetDataType (t : MetricDataType) (m : Metric) : Metric :=
  SetData
    match t with
    | MetricDataTypeNone => DataNone
    | MetricDataTypeGauge => DataGauge (mkGauge [])
    | MetricDataTypeSum =>
        DataSum (mkSum AggregationTemporalityUnspecified false [])
    | MetricDataTypeHistogram =>
        DataHistogram (mkHistogram AggregationTemporalityUnspecified [])
    | MetricDataTypeSummary => DataSummary (mkSummary [])
    end m.

(** [ip.CopyTo(m.Gauge().DataPoints().AppendEmpty())] and its siblings:
    a copy of [ip] becomes the last datapoint of [m]. *)
Definition Gauge_AppendCopy (ip : NumberDataPoint) (m : Metric) : option Metric :=
  g ← Metric_Gauge m;
  Some (SetData (DataGauge (mkGauge (Gauge_DataPoints g ++ [ip]))) m).

Definition Sum_AppendCopy (ip : NumberDataPoint) (m : Metric) : option Metric :=
  s ← Metric_Sum m;
  Some (SetData (DataSum (mkSum (Sum_AggregationTemporality s) (Sum_IsMonotonic s)
                                (Sum_DataPoints s ++ [ip]))) m).

Definition Histogram_AppendCopy (ip : HistogramDataPoint) (m : Metric) : option Metric :=
  h ← Metric_Histogram m;
  Some (SetData (DataHistogram (mkHistogram (Histogram_AggregationTemporality h)
                                            (Histogram_DataPoints h ++ [ip]))) m).

Definition Summary_AppendCopy (ip : SummaryDataPoint) (m : Metric) : option Metric :=
  s ← Metric_Summary m;
  Some (SetData (DataSummary (mkSummary (Summary_DataPoints s ++ [ip]))) m).

(** [m.Sum().SetIsMonotonic(b)], [m.Sum().SetAggregationTemporality(t)]
    and [m.Histogram().SetAggregationTemporality(t)]. *)
Definition Sum_SetIsMonotonic (b : bool) (m : Metric) : option Metric :=
  s ← Metric_Sum m;
  Some (SetData (DataSum (mkSum (Sum_AggregationTemporality s) b (Sum_DataPoints s))) m).

Definition Sum_SetAggregationTemporality (t : AggregationTemporality) (m : Metric)
  : option Metric :=
  s ← Metric_Sum m;
  Some (SetData (DataSum (mkSum t (Sum_IsMonotonic s) (Sum_DataPoints s))) m).

Definition Histogram_SetAggregationTemporality (t : AggregationTemporality) (m : Metric)
  : option Metric :=
  h ← Metric_Histogram m;
  Some (SetData (DataHistogram (mkHistogram t (Histogram_DataPoints h))) m).

(** Modelled from the spec: pdata's [AttributeMap.Sort()], which puts
    "each label key/value pair in sorted key order". It orders the entries
    of the receiver by key, in place and stably ([sort.SliceStable] with
    [Key_i < Key_j], the bytewise order of Go strings), and returns the
    receiver. *)
Fixpoint Sort_insert (e : string * AttributeValue) (l : AttributeMap) : AttributeMap :=
  match l with
  | [] => [e]
  | e' :: l' =>
      if String.ltb (fst e') (fst e) then e' :: Sort_insert e l' else e :: l
  end.

Fixpoint Sort (l : AttributeMap) : AttributeMap :=
  match l with
  | [] => []
  | e :: l' => Sort_insert e (Sort l')
  end.

Record InstrumentationLibrary := mkInstrumentationLibrary {
  il_Name : string;
  il_Version : string
}.

Record InstrumentationLibraryMetrics := mkInstrumentationLibraryMetrics {
  ilm_InstrumentationLibrary : InstrumentationLibrary;
  ilm_Metrics : list Metric
}.

(** The resource of the batch is not read by the accumulator. *)
Record ResourceMetrics := mkResourceMetrics {
  rm_InstrumentationLibraryMetrics : list InstrumentationLibraryMetrics
}.

(** ** accumulator.go *)

Record accumulatedValue := mkAccumulatedValue {
  value : Metric;
  updated : Z;
  instrumentationLibrary : InstrumentationLibrary
}.

Record lastValueAccumulator := mkLastValueAccumulator {
  registeredMetrics : gmap string accumulatedValue;
  metricExpiration : Z
}.

Definition newAccumulator (metricExpiration : Z) : lastValueAccumulator :=
  {| registeredMetrics := ∅; metricExpiration := metricExpiration |}.

Definition Load (signature : string) (a : lastValueAccumulator) : option accumulatedValue :=
  registeredMetrics a !! signature.

Definition Store (signature : string) (v : accumulatedValue) (a : lastValueAccumulator)
  : lastValueAccumulator :=
  {| registeredMetrics := <[signature := v]> (registeredMetrics a);
     metricExpiration := metricExpiration a |}.

Definition Delete (signature : string) (a : lastValueAccumulator) : lastValueAccumulator :=
  {| registeredMetrics := delete signature (registeredMetrics a);
     metricExpiration := metricExpiration a |}.

(** The string written for the attributes once they are sorted. *)
Fixpoint writeAttributes (l : AttributeMap) : string :=
  match l with
  | [] => ""
  | (k, v) :: l' => ("*" +:+ k +:+ "*" +:+ AttributeValueToString v) +:+ writeAttributes l'
  end.

(** Returns the signature and the attribute map as [Sort] leaves it. *)
Definition timeseriesSignature (ilmName : string) (metric : Metric) (attributes : AttributeMap)
  : string * AttributeMap :=
  let attributes := Sort attributes in
  (MetricDataType_String (DataType metric)
     +:+ ("*" +:+ ilmName)
     +:+ ("*" +:+ Name metric)
     +:+ writeAttributes attributes,
   attributes).

Definition createMetric (metric : Metric) : Metric :=
  let m := NewMetric in
  let m := SetName (Name metric) m in
  let m := SetDescription (Description metric) m in
  let m := SetUnit (Unit metric) m in
  let m := SetDataType (DataType metric) m in
  m.

Definition SetAttributes {V} (attrs : AttributeMap) (ip : DataPoint V) : DataPoint V :=
  {| Attributes := attrs; Timestamp := Timestamp ip; Payload := Payload ip |}.

(** The loop [for i := 0; i < dps.Len(); i++ { ip := dps.At(i); ... }].
    [ip] refers into the batch, so the body also yields the datapoint as it
    leaves it. The body reads of [metric] only its descriptor and flags,
    which no iteration changes. *)
Fixpoint forDataPoints {V}
    (body : DataPoint V → nat → lastValueAccumulator
            → option (nat * lastValueAccumulator * DataPoint V))
    (dps : list (DataPoint V)) (n : nat) (a : lastValueAccumulator)
  : option (nat * lastValueAccumulator * list (DataPoint V)) :=
  match dps with
  | [] => Some (n, a, [])
  | ip :: rest =>
      '(n, a, ip) ← body ip n a;
      '(n, a, rest) ← forDataPoints body rest n a;
      Some (n, a, ip :: rest)
  end.

Definition accumulateSummary_body (metric : Metric) (il : InstrumentationLibrary) (now : Z)
    (ip : SummaryDataPoint) (n : nat) (a : lastValueAccumulator)
  : option (nat * lastValueAccumulator * SummaryDataPoint) :=
  let '(signature, attrs) := timeseriesSignature (il_Name il) metric (Attributes ip) in
  let ip := SetAttributes attrs ip in
  stalePoint ←
    match Load signature a with
    | None => Some false
    | Some v =>
        s ← Metric_Summary (value v);
        dp0 ← Summary_DataPoints s !! 0%nat;
        Some (bool_decide (Timestamp ip < Timestamp dp0))
    end;
  if stalePoint : bool then Some (n, a, ip)
  else
    mm ← Summary_AppendCopy ip (createMetric metric);
    Some (S n,
          Store signature {| value := mm; instrumentationLibrary := il; updated := now |} a,
          ip).

Definition accumulateSummary (metric : Metric) (il : InstrumentationLibrary) (now : Z)
    (a : lastValueAccumulator) : option (nat * lastValueAccumulator * Metric) :=
  s ← Metric_Summary metric;
  '(n, a, dps) ← forDataPoints (accumulateSummary_body metric il now) (Summary_DataPoints s) 0%nat a;
  Some (n, a, SetData (DataSummary (mkSummary dps)) metric).

Definition accumulateGauge_body (metric : Metric) (il : InstrumentationLibrary) (now : Z)
    (ip : NumberDataPoint) (n : nat) (a : lastValueAccumulator)
  : option (nat * lastValueAccumulator * NumberDataPoint) :=
  let '(signature, attrs) := timeseriesSignature (il_Name il) metric (Attributes ip) in
  let ip := SetAttributes attrs ip in
  match Load signature a with
  | None =>
      m ← Gauge_AppendCopy ip (createMetric metric);
      Some (S n,
            Store signature {| value := m; instrumentationLibrary := il; updated := now |} a,
            ip)
  | Some mv =>
      g ← Metric_Gauge (value mv);
      dp0 ← Gauge_DataPoints g !! 0%nat;
      if bool_decide (Timestamp ip < Timestamp dp0) then Some (n, a, ip)
      else
        m ← Gauge_AppendCopy ip (createMetric metric);
        Some (S n,
              Store signature {| value := m; instrumentationLibrary := il; updated := now |} a,
              ip)
  end.

Definition accumulateGauge (metric : Metric) (il : InstrumentationLibrary) (now : Z)
    (a : lastValueAccumulator) : option (nat * lastValueAccumulator * Metric) :=
  g ← Metric_Gauge metric;
  '(n, a, dps) ← forDataPoints (accumulateGauge_body metric il now) (Gauge_DataPoints g) 0%nat a;
  Some (n, a, SetData (DataGauge (mkGauge dps)) metric).

Definition accumulateSum_body (metric : Metric) (il : InstrumentationLibrary) (now : Z)
    (ip : NumberDataPoint) (n : nat) (a : lastValueAccumulator)
  : option (nat * lastValueAccumulator * NumberDataPoint) :=
  let '(signature, attrs) := timeseriesSignature (il_Name il) metric (Attributes ip) in
  let ip := SetAttributes attrs ip in
  match Load signature a with
  | None =>
      let m := createMetric metric in
      s ← Metric_Sum metric;
      m ← Sum_SetIsMonotonic (Sum_IsMonotonic s) m;
      m ← Sum_SetAggregationTemporality AggregationTemporalityCumulative m;
      m ← Sum_AppendCopy ip m;
      Some (S n,
            Store signature {| value := m; instrumentationLibrary := il; updated := now |} a,
            ip)
  | Some mv =>
      sv ← Metric_Sum (value mv);
      dp0 ← Sum_DataPoints sv !! 0%nat;
      if bool_decide (Timestamp ip < Timestamp dp0) then Some (n, a, ip)
      else
        let m := createMetric metric in
        s ← Metric_Sum metric;
        m ← Sum_SetIsMonotonic (Sum_IsMonotonic s) m;
        m ← Sum_SetAggregationTemporality AggregationTemporalityCumulative m;
        m ← Sum_AppendCopy ip m;
        Some (S n,
              Store signature {| value := m; instrumentationLibrary := il; updated := now |} a,
              ip)
  end.

Definition accumulateSum (metric : Metric) (il : InstrumentationLibrary) (now : Z)
    (a : lastValueAccumulator) : option (nat * lastValueAccumulator * Metric) :=
  doubleSum ← Metric_Sum metric;
  if decide (Sum_AggregationTemporality doubleSum ≠ AggregationTemporalityCumulative)
  then Some (0%nat, a, metric)
  else
    '(n, a, dps) ← forDataPoints (accumulateSum_body metric il now)
                     (Sum_DataPoints doubleSum) 0%nat a;
    Some (n, a,
          SetData (DataSum (mkSum (Sum_AggregationTemporality doubleSum)
                                  (Sum_IsMonotonic doubleSum) dps)) metric).

Definition accumulateDoubleHistogram_body (metric : Metric) (il : InstrumentationLibrary)
    (now : Z) (ip : HistogramDataPoint) (n : nat) (a : lastValueAccumulator)
  : option (nat * lastValueAccumulator * HistogramDataPoint) :=
  let '(signature, attrs) := timeseriesSignature (il_Name il) metric (Attributes ip) in
  let ip := SetAttributes attrs ip in
  match Load signature a with
  | None =>
      m ← Histogram_AppendCopy ip (createMetric metric);
      Some (S n,
            Store signature {| value := m; instrumentationLibrary := il; updated := now |} a,
            ip)
  | Some mv =>
      hv ← Metric_Histogram (value mv);
      dp0 ← Histogram_DataPoints hv !! 0%nat;
      if bool_decide (Timestamp ip < Timestamp dp0) then Some (n, a, ip)
      else
        m ← Histogram_AppendCopy ip (createMetric metric);
        m ← Histogram_SetAggregationTemporality AggregationTemporalityCumulative m;
        Some (S n,
              Store signature {| value := m; instrumentationLibrary := il; updated := now |} a,
              ip)
  end.

Definition accumulateDoubleHistogram (metric : Metric) (il : InstrumentationLibrary)
    (now : Z) (a : lastValueAccumulator) : option (nat * lastValueAccumulator * Metric) :=
  doubleHistogram ← Metric_Histogram metric;
  if decide (Histogram_AggregationTemporality doubleHistogram
             ≠ AggregationTemporalityCumulative)
  then Some (0%nat, a, metric)
  else
    '(n, a, dps) ← forDataPoints (accumulateDoubleHistogram_body metric il now)
                     (Histogram_DataPoints doubleHistogram) 0%nat a;
    Some (n, a,
          SetData (DataHistogram
                     (mkHistogram (Histogram_AggregationTemporality doubleHistogram) dps))
                  metric).

(** The [default] branch only logs; control then reaches [return 0]. *)
Definition addMetric (metric : Metric) (il : InstrumentationLibrary) (now : Z)
    (a : lastValueAccumulator) : option (nat * lastValueAccumulator * Metric) :=
  match DataType metric with
  | MetricDataTypeGauge => accumulateGauge metric il now a
  | MetricDataTypeSum => accumulateSum metric il now a
  | MetricDataTypeHistogram => accumulateDoubleHistogram metric il now a
  | MetricDataTypeSummary => accumulateSummary metric il now a
  | _ => Some (0%nat, a, metric)
  end.

(** The inner loop of [Accumulate], over the metrics of one scope. *)
Fixpoint Accumulate_metrics (il : InstrumentationLibrary) (now : Z) (metrics : list Metric)
    (n : nat) (a : lastValueAccumulator)
  : option (nat * lastValueAccumulator * list Metric) :=
  match metrics with
  | [] => Some (n, a, [])
  | metric :: rest =>
      '(k, a, metric) ← addMetric metric il now a;
      '(n, a, rest) ← Accumulate_metrics il now rest (n + k)%nat a;
      Some (n, a, metric :: rest)
  end.

(** The outer loop, over the scopes of the batch. *)
Fixpoint Accumulate_ilms (now : Z) (ilms : list InstrumentationLibraryMetrics)
    (n : nat) (a : lastValueAccumulator)
  : option (nat * lastValueAccumulator * list InstrumentationLibraryMetrics) :=
  match ilms with
  | [] => Some (n, a, [])
  | ilm :: rest =>
      '(n, a, metrics) ← Accumulate_metrics (ilm_InstrumentationLibrary ilm) now
                           (ilm_Metrics ilm) n a;
      '(n, a, rest) ← Accumulate_ilms now rest n a;
      Some (n, a, mkInstrumentationLibraryMetrics (ilm_InstrumentationLibrary ilm) metrics :: rest)
  end.

(** [now] is the reading of [time.Now()] taken on entry. *)
Definition Accumulate (now : Z) (rm : ResourceMetrics) (a : lastValueAccumulator)
  : option (nat * lastValueAccumulator * ResourceMetrics) :=
  '(n, a, ilms) ← Accumulate_ilms now (rm_InstrumentationLibraryMetrics rm) 0%nat a;
  Some (n, a, mkResourceMetrics ilms).

(** The callback handed to [Range] in [Collect]. *)
Definition Collect_visit (expirationTime : Z)
    (acc : list Metric * lastValueAccumulator) (entry : string * accumulatedValue)
  : list Metric * lastValueAccumulator :=
  let '(res, a) := acc in
  let '(key, v) := entry in
  if bool_decide (updated v < expirationTime) then (res, Delete key a)
  else (res ++ [value v], a).

(** [sync.Map.Range] visits every entry once, in no specified order:
    [order] is the order of one enumeration. *)
Definition Range_order (a : lastValueAccumulator) (order : list (string * accumulatedValue))
  : Prop :=
  order ≡ₚ map_to_list (registeredMetrics a).

(** [Collect] for the enumeration [order] of the store; [now] is the
    reading of [time.Now()]. *)
Definition Collect (now : Z) (order : list (string * accumulatedValue))
    (a : lastValueAccumulator) : list Metric * lastValueAccumulator :=
  let expirationTime := now - metricExpiration a in
  foldl (Collect_visit expirationTime) ([], a) order.

End Model.

(** ** What the statements below are phrased with *)

(** A string without the delimiter of the signature. *)
Fixpoint star_free (s : string) : bool :=
  match s with
  | EmptyString => true
  | String c s' => if Ascii.eqb c "*" then false else star_free s'
  end.

(** [join_star a [c1; ...; cn]] is [a*c1*...*cn]. *)
Fixpoint join_star (a : string) (cs : list string) : string :=
  match cs with
  | [] => a
  | c :: cs' => a +:+ String "*" (join_star c cs')
  end.

Section Spec.
Context `{Pdata}.

(** The components a signature is made of, after the kind. *)
Fixpoint attribute_components (l : AttributeMap) : list string :=
  match l with
  | [] => []
  | (k, v) :: l' => k :: AttributeValueToString v :: attribute_components l'
  end.

(** An entry as the signature shows it. *)
Definition rendered (e : string * AttributeValue) : string * string :=
  (e.1, AttributeValueToString e.2).

Definition key_lt (e1 e2 : string * AttributeValue) : Prop :=
  String.ltb e1.1 e2.1 = true.

Definition key_le (e1 e2 : string * AttributeValue) : Prop :=
  String.ltb e2.1 e1.1 = false.

(** The number of datapoints a metric carries, whatever its kind. *)
Definition Metric_numDataPoints (m : Metric) : nat :=
  match Data m with
  | DataNone => 0
  | DataGauge g => length (Gauge_DataPoints g)
  | DataSum s => length (Sum_DataPoints s)
  | DataHistogram h => length (Histogram_DataPoints h)
  | DataSummary s => length (Summary_DataPoints s)
  end.

(** The timestamps of the datapoints a metric carries, in order. *)
Definition Metric_Timestamps (m : Metric) : list Z :=
  match Data m with
  | DataNone => []
  | DataGauge g => Timestamp <$> Gauge_DataPoints g
  | DataSum s => Timestamp <$> Sum_DataPoints s
  | DataHistogram h => Timestamp <$> Histogram_DataPoints h
  | DataSummary s => Timestamp <$> Summary_DataPoints s
  end.

(** The invariant of the store: an entry holds exactly one datapoint, and
    the key it sits under starts with the name of its kind. *)
Definition entry_ok (signature : string) (v : accumulatedValue) : Prop :=
  Metric_numDataPoints (value v) = 1%nat ∧
  ∃ rest, signature = MetricDataType_String (DataType (value v)) +:+ String "*" rest.

Definition store_ok (a : lastValueAccumulator) : Prop :=
  ∀ signature v, registeredMetrics a !! signature = Some v → entry_ok signature v.

(** The datapoint as the loop body leaves it in the batch, and as it is copied. *)
Definition sorted_point {V} (ip : DataPoint V) : DataPoint V :=
  SetAttributes (Sort (Attributes ip)) ip.

(** The descriptor of [metric] around the payload [d]. *)
Definition snapshot (metric : Metric) (d : MetricData) : Metric :=
  {| Name := Name metric; Description := Description metric; Unit := Unit metric;
     Data := d |}.

Definition gaugeSnapshot (metric : Metric) (ip : NumberDataPoint) : Metric :=
  snapshot metric (DataGauge (mkGauge [sorted_point ip])).

Definition summarySnapshot (metric : Metric) (ip : SummaryDataPoint) : Metric :=
  snapshot metric (DataSummary (mkSummary [sorted_point ip])).

Definition sumSnapshot (metric : Metric) (isMonotonic : bool) (ip : NumberDataPoint)
  : Metric :=
  snapshot metric
    (DataSum (mkSum AggregationTemporalityCumulative isMonotonic [sorted_point ip])).

Definition histogramSnapshot (metric : Metric) (t : AggregationTemporality)
    (ip : HistogramDataPoint) : Metric :=
  snapshot metric (DataHistogram (mkHistogram t [sorted_point ip])).

(** The two outcomes of one iteration of a merge policy: the datapoint
    replaces whatever the store held under its signature and counts, or it
    is dropped and the store stays as it was. *)
Definition stored {V} (signature : string) (m : Metric) (il : InstrumentationLibrary)
    (now : Z) (ip : DataPoint V) (n : nat) (a : lastValueAccumulator)
  : option (nat * lastValueAccumulator * DataPoint V) :=
  Some (S n,
        Store signature {| value := m; updated := now; instrumentationLibrary := il |} a,
        sorted_point ip).

Definition dropped {V} (ip : DataPoint V) (n : nat) (a : lastValueAccumulator)
  : option (nat * lastValueAccumulator * DataPoint V) :=
  Some (n, a, sorted_point ip).

(** An entry is live at [boundary] unless it was last updated strictly
    before it. *)
Definition live (boundary : Z) (e : string * accumulatedValue) : Prop :=
  ¬ updated e.2 < boundary.

#[global] Instance live_dec boundary e : Decision (live boundary e).
Proof. unfold live. apply _. Defined.

(** The batch as the accumulator leaves it: the labels of every
    datapoint a signature was computed for are in key order. *)
Definition touched_metric (metric : Metric) : Metric :=
  match Data metric with
  | DataNone => metric
  | DataGauge g =>
      SetData (DataGauge (mkGauge (sorted_point <$> Gauge_DataPoints g))) metric
  | DataSum s =>
      if decide (Sum_AggregationTemporality s ≠ AggregationTemporalityCumulative)
      then metric
      else SetData (DataSum (mkSum (Sum_AggregationTemporality s) (Sum_IsMonotonic s)
                                   (sorted_point <$> Sum_DataPoints s))) metric
  | DataHistogram h =>
      if decide (Histogram_AggregationTemporality h ≠ AggregationTemporalityCumulative)
      then metric
      else SetData (DataHistogram (mkHistogram (Histogram_AggregationTemporality h)
                                               (sorted_point <$> Histogram_DataPoints h)))
                   metric
  | DataSummary s =>
      SetData (DataSummary (mkSummary (sorted_point <$> Summary_DataPoints s))) metric
  end.

Definition touched_ilm (ilm : InstrumentationLibraryMetrics)
  : InstrumentationLibraryMetrics :=
  mkInstrumentationLibraryMetrics (ilm_InstrumentationLibrary ilm)
                                  (touched_metric <$> ilm_Metrics ilm).

Definition touched_batch (rm : ResourceMetrics) : ResourceMetrics :=
  mkResourceMetrics (touched_ilm <$> rm_InstrumentationLibraryMetrics rm).

(** A stored Sum snapshot with the flag [isMonotonic] and cumulative
    temporality. *)
Definition sum_fields (isMonotonic : bool) (v : accumulatedValue) : Prop :=
  ∃ s', Metric_Sum (value v) = Some s' ∧
        Sum_IsMonotonic s' = isMonotonic ∧
        Sum_AggregationTemporality s' = AggregationTemporalityCumulative.

(** The read of the first stored datapoint a policy makes once a lookup
    under the signature of a metric of kind [t] has succeeded. *)
Definition first_point_read (t : MetricDataType) (stored : Metric) : Prop :=
  match t with
  | MetricDataTypeNone => True
  | MetricDataTypeGauge =>
      is_Some (g ← Metric_Gauge stored; Gauge_DataPoints g !! 0%nat)
  | MetricDataTypeSum =>
      is_Some (s ← Metric_Sum stored; Sum_DataPoints s !! 0%nat)
  | MetricDataTypeHistogram =>
      is_Some (h ← Metric_Histogram stored; Histogram_DataPoints h !! 0%nat)
  | MetricDataTypeSummary =>
      is_Some (s ← Metric_Summary stored; Summary_DataPoints s !! 0%nat)
  end.

(** The label sets of the datapoints of a metric. *)
Definition Metric_AttributeMaps (m : Metric) : list AttributeMap :=
  match Data m with
  | DataNone => []
  | DataGauge g => Attributes <$> Gauge_DataPoints g
  | DataSum s => Attributes <$> Sum_DataPoints s
  | DataHistogram h => Attributes <$> Histogram_DataPoints h
  | DataSummary s => Attributes <$> Summary_DataPoints s
  end.

(** Every label set of the batch already has its keys in order. *)
Definition batch_labels_sorted (rm : ResourceMetrics) : Prop :=
  Forall (λ ilm,
            Forall (λ m, Forall (StronglySorted key_le) (Metric_AttributeMaps m))
                   (ilm_Metrics ilm))
         (rm_InstrumentationLibraryMetrics rm).

(** A Sum or Histogram whose declared temporality is not cumulative. *)
Definition nonCumulative (m : Metric) : Prop :=
  match Data m with
  | DataSum s => Sum_AggregationTemporality s ≠ AggregationTemporalityCumulative
  | DataHistogram h => Histogram_AggregationTemporality h ≠ AggregationTemporalityCumulative
  | _ => False
  end.

#[global] Instance nonCumulative_dec m : Decision (nonCumulative m).
Proof. unfold nonCumulative. destruct (Data m); apply _. Defined.

(** The batch without its non-cumulative Sum and Histogram metrics. *)
Definition withoutNonCumulative (rm : ResourceMetrics) : ResourceMetrics :=
  mkResourceMetrics
    ((λ ilm, mkInstrumentationLibraryMetrics
               (ilm_InstrumentationLibrary ilm)
               (filter (λ m, ¬ nonCumulative m) (ilm_Metrics ilm)))
       <$> rm_InstrumentationLibraryMetrics rm).

(** What an invocation of a policy on [metric] guarantees: it returns,
    hands the batch back with sorted labels, keeps the store well formed
    and the expiration untouched, counts at most the datapoints it was
    given, and leaves in the store old entries or entries satisfying [P]. *)
Definition policy_post (P : accumulatedValue → Prop) (metric : Metric)
    (a : lastValueAccumulator)
    (r : option (nat * lastValueAccumulator * Metric)) : Prop :=
  ∃ n a',
    r = Some (n, a', touched_metric metric) ∧
    store_ok a' ∧
    (n ≤ Metric_numDataPoints metric)%nat ∧
    metricExpiration a' = metricExpiration a ∧
    (∀ k v, registeredMetrics a' !! k = Some v →
            registeredMetrics a !! k = Some v ∨ P v).

(** Every metric of every scope of the batch, in order, with its scope. *)
Definition batch_metrics (rm : ResourceMetrics) : list (InstrumentationLibrary * Metric) :=
  ilm ← rm_InstrumentationLibraryMetrics rm;
  pair (ilm_InstrumentationLibrary ilm) <$> ilm_Metrics ilm.

(** The facade as the specification words it: each metric of the batch is
    handed to [addMetric] in turn, and the per-metric counts are kept. *)
Fixpoint addMetric_each (now : Z) (ms : list (InstrumentationLibrary * Metric))
    (a : lastValueAccumulator) : option (list nat * lastValueAccumulator) :=
  match ms with
  | [] => Some ([], a)
  | (il, metric) :: rest =>
      '(k, a, _) ← addMetric metric il now a;
      '(ks, a) ← addMetric_each now rest a;
      Some (k :: ks, a)
  end.

(** What a caller observes of [Accumulate] besides the batch. *)
Definition count_and_store {B} (r : nat * lastValueAccumulator * B)
  : nat * lastValueAccumulator :=
  (r.1.1, r.1.2).

(** The states of an accumulator made by [newAccumulator] and used
    through [Accumulate] and [Collect] only. *)
Inductive reachable : lastValueAccumulator → Prop :=
| reachable_new (expiration : Z) : reachable (newAccumulator expiration)
| reachable_Accumulate now rm a n a' rm' :
    reachable a → Accumulate now rm a = Some (n, a', rm') → reachable a'
| reachable_Collect now order a :
    reachable a → Range_order a order → reachable (Collect now order a).2.

(** The label set and the timestamp of each datapoint of a metric, in
    order. *)
Definition Metric_Points (m : Metric) : list (AttributeMap * Z) :=
  match Data m with
  | DataNone => []
  | DataGauge g => (λ ip, (Attributes ip, Timestamp ip)) <$> Gauge_DataPoints g
  | DataSum s => (λ ip, (Attributes ip, Timestamp ip)) <$> Sum_DataPoints s
  | DataHistogram h => (λ ip, (Attributes ip, Timestamp ip)) <$> Histogram_DataPoints h
  | DataSummary s => (λ ip, (Attributes ip, Timestamp ip)) <$> Summary_DataPoints s
  end.

(** The store holds under [signature] one datapoint, not earlier than [ts]. *)
Definition covers (signature : string) (ts : Z) (a : lastValueAccumulator) : Prop :=
  ∃ v ts', registeredMetrics a !! signature = Some v ∧
           Metric_Timestamps (value v) = [ts'] ∧ ts ≤ ts'.

(** What every reachable store holds: snapshots of a supported kind, a Sum
    always cumulative, a Histogram never delta. *)
Definition supported_snapshot (m : Metric) : Prop :=
  match Data m with
  | DataNone => False
  | DataGauge _ => True
  | DataSum s => Sum_AggregationTemporality s = AggregationTemporalityCumulative
  | DataHistogram h =>
      Histogram_AggregationTemporality h = AggregationTemporalityCumulative ∨
      Histogram_AggregationTemporality h = AggregationTemporalityUnspecified
  | DataSummary _ => True
  end.

(** The entry [v] under [signature] was made at [now] from a datapoint of
    the batch whose metrics are [ms]: it has the scope and the descriptor
    of the metric, and that one datapoint with its labels sorted. *)
Definition from_batch (now : Z) (ms : list (InstrumentationLibrary * Metric))
    (signature : string) (v : accumulatedValue) : Prop :=
  ∃ il metric l ts,
    (il, metric) ∈ ms ∧
    ¬ nonCumulative metric ∧
    (l, ts) ∈ Metric_Points metric ∧
    signature = (timeseriesSignature (il_Name il) metric l).1 ∧
    updated v = now ∧
    instrumentationLibrary v = il ∧
    DataType (value v) = DataType metric ∧
    Name (value v) = Name metric ∧
    Description (value v) = Description metric ∧
    Unit (value v) = Unit metric ∧
    Metric_Points (value v) = [(Sort l, ts)] ∧
    supported_snapshot (value v).

(** The entry [v] sits under the signature of its own snapshot: the
    signature computed from its scope, its metric and the labels of its
    one datapoint, which are in key order; and the snapshot is of a
    supported kind. *)
Definition entry_consistent (signature : string) (v : accumulatedValue) : Prop :=
  ∃ l ts,
    Metric_Points (value v) = [(l, ts)] ∧
    StronglySorted key_le l ∧
    signature
    = (timeseriesSignature (il_Name (instrumentationLibrary v)) (value v) l).1 ∧
    supported_snapshot (value v).

(** One [registeredMetrics.Store] of a merge policy at time [now], for a
    batch whose metrics are [ms]: an entry made from a datapoint of the
    batch is installed under the signature of that datapoint, and what the
    store held there, if anything, was not later. *)
Definition store_step (now : Z) (ms : list (InstrumentationLibrary * Metric))
    (a a' : lastValueAccumulator) : Prop :=
  ∃ signature v ts,
    from_batch now ms signature v ∧
    Metric_Timestamps (value v) = [ts] ∧
    match Load signature a with
    | None => True
    | Some mv => ∃ ts0, Metric_Timestamps (value mv) = [ts0] ∧ ts0 ≤ ts
    end ∧
    a' = Store signature v a.

(** The timestamp a policy compares with: that of the first datapoint. *)
Definition first_ts (m : Metric) : Z := default 0 (head (Metric_Timestamps m)).

(** What a policy leaves under a signature that held [cur] when [x]
    arrives: [x], unless [cur] is strictly later. *)
Definition merge_with {X} (ts : X → Z) (cur : option X) (x : X) : X :=
  match cur with
  | None => x
  | Some c => if bool_decide (ts x < ts c) then c else x
  end.

Definition fold_merge {X} (ts : X → Z) (cur : option X) (l : list X) : option X :=
  foldl (λ cur x, Some (merge_with ts cur x)) cur l.

Definition apply_op (m : gmap string accumulatedValue) (op : string * accumulatedValue)
  : gmap string accumulatedValue :=
  <[op.1 := merge_with (first_ts ∘ value) (m !! op.1) op.2]> m.

(** The entries the policies other than the histogram one offer to the
    store for [metric], in order, each with its signature. *)
Definition metric_ops (now : Z) (il : InstrumentationLibrary) (metric : Metric)
  : list (string * accumulatedValue) :=
  match Data metric with
  | DataGauge g =>
      (λ ip, ((timeseriesSignature (il_Name il) metric (Attributes ip)).1,
              mkAccumulatedValue (gaugeSnapshot metric ip) now il))
        <$> Gauge_DataPoints g
  | DataSum s =>
      if decide (Sum_AggregationTemporality s ≠ AggregationTemporalityCumulative) then []
      else (λ ip, ((timeseriesSignature (il_Name il) metric (Attributes ip)).1,
                   mkAccumulatedValue (sumSnapshot metric (Sum_IsMonotonic s) ip) now il))
             <$> Sum_DataPoints s
  | DataSummary s =>
      (λ ip, ((timeseriesSignature (il_Name il) metric (Attributes ip)).1,
              mkAccumulatedValue (summarySnapshot metric ip) now il))
        <$> Summary_DataPoints s
  | _ => []
  end.

Definition batch_ops (now : Z) (ms : list (InstrumentationLibrary * Metric))
  : list (string * accumulatedValue) :=
  e ← ms; metric_ops now e.1 e.2.

(** An entry without the time it was written at. *)
Definition snapshot_of (v : accumulatedValue) : Metric * InstrumentationLibrary :=
  (value v, instrumentationLibrary v).

(** The outcome of a run of the code that offers [ops] to the store. *)
Definition run_post {B} (ops : list (string * accumulatedValue)) (batch' : B)
    (a : lastValueAccumulator) (r : option (nat * lastValueAccumulator * B)) : Prop :=
  ∃ n a',
    r = Some (n, a', batch') ∧
    registeredMetrics a' = foldl apply_op (registeredMetrics a) ops ∧
    metricExpiration a' = metricExpiration a ∧
    store_ok a'.

(** What a merge policy has ready for one datapoint: the signature, the
    entry its first-store branch installs and the entry its replacing branch
    installs. *)
Definition Offer : Type := string * accumulatedValue * accumulatedValue.

(** One iteration of a merge policy, on the count and the store: without
    an entry under the signature the first-store entry is installed and
    counted; with one, the datapoint is dropped when it is strictly earlier
    than the stored one, and otherwise the replacing entry is installed and
    counted. *)
Definition offer (st : nat * gmap string accumulatedValue) (o : Offer)
  : nat * gmap string accumulatedValue :=
  match st.2 !! o.1.1 with
  | None => (S st.1, <[o.1.1 := o.1.2]> st.2)
  | Some mv =>
      if bool_decide (first_ts (value o.2) < first_ts (value mv)) then st
      else (S st.1, <[o.1.1 := o.2]> st.2)
  end.

(** What a policy has ready for the datapoint [ip] of [metric]. *)
Definition point_offer {V} (now : Z) (il : InstrumentationLibrary) (metric : Metric)
    (first replacing : DataPoint V → Metric) (ip : DataPoint V) : Offer :=
  ((timeseriesSignature (il_Name il) metric (Attributes ip)).1,
   mkAccumulatedValue (first ip) now il,
   mkAccumulatedValue (replacing ip) now il).

(** What the policies have ready for [metric], datapoint by datapoint;
    nothing for a metric they reject. *)
Definition metric_offers (now : Z) (il : InstrumentationLibrary) (metric : Metric)
  : list Offer :=
  match Data metric with
  | DataNone => []
  | DataGauge g =>
      point_offer now il metric (gaugeSnapshot metric) (gaugeSnapshot metric)
        <$> Gauge_DataPoints g
  | DataSum s =>
      if decide (Sum_AggregationTemporality s ≠ AggregationTemporalityCumulative) then []
      else point_offer now il metric (sumSnapshot metric (Sum_IsMonotonic s))
                       (sumSnapshot metric (Sum_IsMonotonic s))
             <$> Sum_DataPoints s
  | DataHistogram h =>
      if decide (Histogram_AggregationTemporality h ≠ AggregationTemporalityCumulative)
      then []
      else point_offer now il metric
                       (histogramSnapshot metric AggregationTemporalityUnspecified)
                       (histogramSnapshot metric AggregationTemporalityCumulative)
             <$> Histogram_DataPoints h
  | DataSummary s =>
      point_offer now il metric (summarySnapshot metric) (summarySnapshot metric)
        <$> Summary_DataPoints s
  end.

Definition batch_offers (now : Z) (ms : list (InstrumentationLibrary * Metric))
  : list Offer :=
  e ← ms; metric_offers now e.1 e.2.

(** The outcome of a run of the code from count [n] and store [a] that
    handles [offers] in order. *)
Definition offer_post {B} (offers : list Offer) (batch' : B) (n : nat)
    (a : lastValueAccumulator) (r : option (nat * lastValueAccumulator * B)) : Prop :=
  ∃ n' a',
    r = Some (n', a', batch') ∧
    (n', registeredMetrics a') = foldl offer (n, registeredMetrics a) offers ∧
    metricExpiration a' = metricExpiration a ∧
    store_ok a'.

(** The signature and the timestamp of each datapoint of [metric], unless
    the policies reject the metric. *)
Definition metric_targets (il : InstrumentationLibrary) (metric : Metric)
  : list (string * Z) :=
  if decide (nonCumulative metric) then []
  else (λ p, ((timeseriesSignature (il_Name il) metric p.1).1, p.2))
         <$> Metric_Points metric.

Definition batch_targets (ms : list (InstrumentationLibrary * Metric))
  : list (string * Z) :=
  e ← ms; metric_targets e.1 e.2.

(** The signatures [Accumulate] computes for a batch whose metrics are [ms]. *)
Definition batch_signatures (ms : list (InstrumentationLibrary * Metric)) : list string :=
  (batch_targets ms).*1.

(** The outcome of one iteration of a policy on [ip], whose signature is
    [signature]: dropped, or stored by one [store_step]; either way the
    store then holds a datapoint not earlier than [ip] under [signature]. *)
Definition step_outcome {V} (now : Z) (ms : list (InstrumentationLibrary * Metric))
    (signature : string) (ip : DataPoint V) (n : nat) (a : lastValueAccumulator)
    (r : option (nat * lastValueAccumulator * DataPoint V)) : Prop :=
  (r = Some (n, a, sorted_point ip) ∧ covers signature (Timestamp ip) a) ∨
  (∃ a', r = Some (S n, a', sorted_point ip) ∧
         store_step now ms a a' ∧ covers signature (Timestamp ip) a').

(** The outcome of a run of the code from count [n] and store [a]: it
    returns [batch'], has added to the count the number [k] of stores it
    made, at most one for each target, and every target is covered in the
    store it leaves. *)
Definition events_post {B} (now : Z) (ms : list (InstrumentationLibrary * Metric))
    (targets : list (string * Z)) (batch' : B) (n : nat) (a : lastValueAccumulator)
    (r : option (nat * lastValueAccumulator * B)) : Prop :=
  ∃ k a',
    r = Some ((n + k)%nat, a', batch') ∧
    nsteps (store_step now ms) k a a' ∧
    (k ≤ length targets)%nat ∧
    store_ok a' ∧
    Forall (λ t, covers t.1 t.2 a') targets.

(** The datapoints a batch carries. *)
Definition batch_numDataPoints (rm : ResourceMetrics) : nat :=
  sum_list (Metric_numDataPoints ∘ snd <$> batch_metrics rm).

End Spec.

(** ** Sample inputs *)

(** String-valued attributes, rendered as they are; integer payloads. *)
Definition sample_pdata : Pdata :=
  {| AttributeValue := string;
     AttributeValueToString := id;
     NumberValue := Z;
     HistogramValue := list Z;
     SummaryValue := list Z |}.

Section Samples.
#[local] Existing Instance sample_pdata.

Definition sample_il : InstrumentationLibrary := mkInstrumentationLibrary "scope" "v1".

Definition sample_labels : AttributeMap := [("host", "a"); ("dc", "b")].

Definition sample_point (ts value : Z) : NumberDataPoint :=
  mkDataPoint sample_labels ts value.

Definition sample_gauge (dps : list NumberDataPoint) : Metric :=
  mkMetric "temperature" "" "C" (DataGauge (mkGauge dps)).

Definition sample_sum (t : AggregationTemporality) (dps : list NumberDataPoint) : Metric :=
  mkMetric "requests" "" "1" (DataSum (mkSum t true dps)).

Definition sample_histogram (t : AggregationTemporality) (dps : list HistogramDataPoint)
  : Metric :=
  mkMetric "latency" "" "ms" (DataHistogram (mkHistogram t dps)).

Definition sample_summary (dps : list SummaryDataPoint) : Metric :=
  mkMetric "latency_q" "" "ms" (DataSummary (mkSummary dps)).

Definition sample_batch (metrics : list Metric) : ResourceMetrics :=
  mkResourceMetrics [mkInstrumentationLibraryMetrics sample_il metrics].

(** The accumulator once it holds the gauge point (ts = 100, value = 10). *)
Definition sample_accumulator : lastValueAccumulator :=
  Store (timeseriesSignature "scope" (sample_gauge []) sample_labels).1
        (mkAccumulatedValue (gaugeSnapshot (sample_gauge []) (sample_point 100 10)) 7 sample_il)
        (newAccumulator 60).

(** The accumulator once it holds the summary point (ts = 100). *)
Definition sample_summary_accumulator : lastValueAccumulator :=
  Store (timeseriesSignature "scope" (sample_summary []) sample_labels).1
        (mkAccumulatedValue
           (summarySnapshot (sample_summary []) (mkDataPoint sample_labels 100 [1; 2]))
           7 sample_il)
        (newAccumulator 60).

(** A metric whose kind was never set. *)
Definition sample_untyped : Metric := mkMetric "unknown" "" "" DataNone.

(** Three gauge points under one signature, and three sum points. *)
Definition sample_gauge_batch : ResourceMetrics :=
  sample_batch [sample_gauge [sample_point 100 11; sample_point 50 5; sample_point 200 20]].

Definition sample_sum_batch : ResourceMetrics :=
  sample_batch [sample_sum AggregationTemporalityCumulative
                           [sample_point 1 10; sample_point 2 20; sample_point 3 30]].

(** Two inputs that differ in scope name and in metric name. *)
Definition collision_left : string * Metric := ("a*b", mkMetric "c" "" "" (DataGauge (mkGauge []))).
Definition collision_right : string * Metric := ("a", mkMetric "b*c" "" "" (DataGauge (mkGauge []))).

End Samples.

(** ** Properties *)

Section StringOrder.

Lemma ascii_compare_refl (c : ascii) : Ascii.compare c c = Eq.
Proof. unfold Ascii.compare. apply N.compare_refl. Qed.

Lemma ascii_compare_lt_trans (a b c : ascii) :
  Ascii.compare a b = Lt → Ascii.compare b c = Lt → Ascii.compare a c = Lt.
Proof.
  unfold Ascii.compare. rewrite !N.compare_lt_iff. apply N.lt_trans.
Qed.

Lemma string_compare_refl (s : string) : String.compare s s = Eq.
Proof.
  induction s as [|c s IH]; simpl; [done|].
  by rewrite ascii_compare_refl.
Qed.

Lemma string_compare_lt_trans (s1 s2 s3 : string) :
  String.compare s1 s2 = Lt → String.compare s2 s3 = Lt → String.compare s1 s3 = Lt.
Proof.
  revert s2 s3. induction s1 as [|c1 s1 IH]; intros [|c2 s2] [|c3 s3]; simpl; try done.
  destruct (Ascii.compare c1 c2) eqn:H12; try done.
  - apply Ascii.compare_eq_iff in H12 as ->.
    destruct (Ascii.compare c2 c3); try done. apply IH.
  - intros _. destruct (Ascii.compare c2 c3) eqn:H23; try done.
    + apply Ascii.compare_eq_iff in H23 as <-. by rewrite H12.
    + by rewrite (ascii_compare_lt_trans _ _ _ H12 H23).
Qed.

Lemma string_ltb_irrefl (s : string) : String.ltb s s = false.
Proof. unfold String.ltb. by rewrite string_compare_refl. Qed.

Lemma string_ltb_trans (s1 s2 s3 : string) :
  String.ltb s1 s2 = true → String.ltb s2 s3 = true → String.ltb s1 s3 = true.
Proof.
  unfold String.ltb. intros H12 H23.
  destruct (String.compare s1 s2) eqn:E12; try done.
  destruct (String.compare s2 s3) eqn:E23; try done.
  by rewrite (string_compare_lt_trans _ _ _ E12 E23).
Qed.

Lemma string_ltb_trichotomy (s1 s2 : string) :
  String.ltb s1 s2 = false → s1 ≠ s2 → String.ltb s2 s1 = true.
Proof.
  unfold String.ltb. intros Hlt Hne. rewrite String.compare_antisym.
  destruct (String.compare s1 s2) eqn:E; try done.
  by apply String.compare_eq_iff in E.
Qed.

End StringOrder.

Section SignatureProperties.
Context `{Pdata}.

Lemma string_app_nil (s : string) : "" +:+ s = s.
Proof. reflexivity. Qed.

Lemma string_app_cons (c : ascii) (s1 s2 : string) :
  String c s1 +:+ s2 = String c (s1 +:+ s2).
Proof. reflexivity. Qed.

Lemma string_app_assoc (s1 s2 s3 : string) : (s1 +:+ s2) +:+ s3 = s1 +:+ (s2 +:+ s3).
Proof.
  induction s1 as [|c s1 IH]; [done|].
  rewrite !string_app_cons. by f_equal.
Qed.

Lemma Sort_insert_perm e (l : AttributeMap) : Sort_insert e l ≡ₚ e :: l.
Proof.
  induction l as [|e' l IH]; simpl; [done|].
  destruct (String.ltb e'.1 e.1); [|done].
  rewrite IH. apply Permutation_swap.
Qed.

Lemma Sort_perm (l : AttributeMap) : Sort l ≡ₚ l.
Proof.
  induction l as [|e l IH]; simpl; [done|].
  by rewrite Sort_insert_perm, IH.
Qed.

#[local] Instance key_lt_antisymm : AntiSymm (=) key_lt.
Proof.
  intros e1 e2 H12 H21. unfold key_lt in *.
  pose proof (string_ltb_trans _ _ _ H12 H21) as Hirr.
  by rewrite string_ltb_irrefl in Hirr.
Qed.

Lemma key_lt_le e1 e2 : key_lt e1 e2 → key_le e1 e2.
Proof.
  unfold key_lt, key_le. intros H12.
  destruct (String.ltb e2.1 e1.1) eqn:H21; [|done].
  pose proof (string_ltb_trans _ _ _ H12 H21) as Hirr.
  by rewrite string_ltb_irrefl in Hirr.
Qed.

Lemma key_le_trans e1 e2 e3 : key_le e1 e2 → key_le e2 e3 → key_le e1 e3.
Proof.
  unfold key_le. intros H12 H23.
  destruct (String.ltb e3.1 e1.1) eqn:H31; [|done].
  destruct (decide (e2.1 = e3.1)) as [Heq|Hne].
  - rewrite Heq in H12. congruence.
  - pose proof (string_ltb_trichotomy _ _ H23 (not_eq_sym Hne)) as Hlt.
    pose proof (string_ltb_trans _ _ _ Hlt H31). congruence.
Qed.

Lemma Sort_insert_sorted_le e (l : AttributeMap) :
  StronglySorted key_le l → StronglySorted key_le (Sort_insert e l).
Proof.
  induction 1 as [|e' l Hl IH Hall]; simpl.
  - repeat constructor.
  - destruct (String.ltb e'.1 e.1) eqn:Hlt.
    + constructor; [done|].
      rewrite Sort_insert_perm. constructor; [|done].
      by apply key_lt_le.
    + constructor; [by constructor|].
      constructor; [done|].
      eapply Forall_impl; [exact Hall|].
      intros x Hx. by eapply key_le_trans.
Qed.

Lemma Sort_sorted_le (l : AttributeMap) : StronglySorted key_le (Sort l).
Proof.
  induction l as [|e l IH]; simpl; [constructor|].
  by apply Sort_insert_sorted_le.
Qed.

Lemma Sort_insert_head e (l : AttributeMap) :
  Forall (key_le e) l → Sort_insert e l = e :: l.
Proof.
  destruct 1 as [|e' l He' _]; simpl; [done|].
  unfold key_le in He'. by rewrite He'.
Qed.

(** A map whose keys are already in order is left as it is. *)
Lemma Sort_sorted_id (l : AttributeMap) : StronglySorted key_le l → Sort l = l.
Proof.
  induction 1 as [|e l Hl IH Hall]; simpl; [done|].
  rewrite IH. by apply Sort_insert_head.
Qed.

Lemma Sort_idemp (l : AttributeMap) : Sort (Sort l) = Sort l.
Proof. apply Sort_sorted_id, Sort_sorted_le. Qed.

Lemma Sort_sorted_lt (l : AttributeMap) : NoDup l.*1 → StronglySorted key_lt (Sort l).
Proof.
  intros Hnd.
  assert (Hle : StronglySorted key_le (Sort l)) by apply Sort_sorted_le.
  assert (Hnd' : NoDup (Sort l).*1) by (by rewrite Sort_perm).
  induction Hle as [|e l' Hl IH Hall]; [constructor|].
  rewrite fmap_cons in Hnd'. apply NoDup_cons in Hnd' as [Hnotin Hnd'].
  constructor; [by apply IH|].
  apply Forall_forall. intros x Hx.
  rewrite Forall_forall in Hall. specialize (Hall x Hx).
  unfold key_lt. unfold key_le in Hall.
  destruct (decide (e.1 = x.1)) as [Heq|Hne].
  - exfalso. apply Hnotin. rewrite Heq. by apply list_elem_of_fmap_2.
  - apply string_ltb_trichotomy; [done|by apply not_eq_sym].
Qed.

(** With unique keys, the order the entries were inserted in is forgotten. *)
Lemma Sort_permutation_invariant (l1 l2 : AttributeMap) :
  NoDup l1.*1 → l1 ≡ₚ l2 → Sort l1 = Sort l2.
Proof.
  intros Hnd Hperm.
  apply (StronglySorted_unique key_lt).
  - by apply Sort_sorted_lt.
  - apply Sort_sorted_lt. by rewrite <- Hperm.
  - by rewrite !Sort_perm.
Qed.

Lemma star_free_cons (c : ascii) (s : string) :
  star_free (String c s) = true ↔ c ≠ "*"%char ∧ star_free s = true.
Proof.
  simpl. destruct (Ascii.eqb_spec c "*") as [->|Hne]; split.
  - done.
  - by intros [? _].
  - done.
  - by intros [_ ?].
Qed.

Lemma star_prefix_inj (a a' r r' : string) :
  star_free a = true → star_free a' = true →
  a +:+ String "*" r = a' +:+ String "*" r' → a = a' ∧ r = r'.
Proof.
  revert a'. induction a as [|c a IH]; intros [|c' a'];
    rewrite ?string_app_cons, ?string_app_nil, ?star_free_cons.
  - intros _ _ [= ->]. done.
  - intros _ [Hc' _] [= <-]. done.
  - intros [Hc _] _ [= ->]. done.
  - intros [_ Ha] [_ Ha'] [= -> Heq].
    destruct (IH _ Ha Ha' Heq) as [-> ->]. done.
Qed.

Lemma star_prefix_end (a a' r : string) :
  star_free a = true → star_free a' = true → a ≠ a' +:+ String "*" r.
Proof.
  revert a'. induction a as [|c a IH]; intros [|c' a'];
    rewrite ?string_app_cons, ?string_app_nil, ?star_free_cons; try done.
  - intros [Hc _] _ [= ->]. done.
  - intros [_ Ha] [_ Ha'] [= -> Heq]. by eapply IH.
Qed.

(** Components without the delimiter can be read back from their join. *)
Lemma join_star_inj (cs cs' : list string) (a a' : string) :
  star_free a = true → star_free a' = true →
  Forall (λ c, star_free c = true) cs → Forall (λ c, star_free c = true) cs' →
  join_star a cs = join_star a' cs' → a = a' ∧ cs = cs'.
Proof.
  revert a a' cs'. induction cs as [|c cs IH]; intros a a' [|c' cs'] Ha Ha' Hcs Hcs'; simpl.
  - done.
  - intros Heq. by apply star_prefix_end in Heq.
  - intros Heq. symmetry in Heq. by apply star_prefix_end in Heq.
  - intros Heq. apply star_prefix_inj in Heq as [-> Heq]; [|done..].
    apply Forall_cons in Hcs as [Hc Hcs]. apply Forall_cons in Hcs' as [Hc' Hcs'].
    destruct (IH _ _ _ Hc Hc' Hcs Hcs' Heq) as [-> ->]. done.
Qed.

Lemma writeAttributes_join (a : string) (l : AttributeMap) :
  a +:+ writeAttributes l = join_star a (attribute_components l).
Proof.
  revert a. induction l as [|[k v] l IH]; intros a; simpl.
  - induction a as [|c a IHa]; [done|]. rewrite string_app_cons. by f_equal.
  - rewrite <- IH.
    rewrite !string_app_cons, !string_app_nil, !string_app_assoc, !string_app_cons.
    done.
Qed.

Lemma timeseriesSignature_join (ilmName : string) (metric : Metric) (l : AttributeMap) :
  (timeseriesSignature ilmName metric l).1
  = join_star (MetricDataType_String (DataType metric))
              (ilmName :: Name metric :: attribute_components (Sort l)).
Proof.
  unfold timeseriesSignature. simpl. rewrite <- writeAttributes_join.
  rewrite !string_app_cons, !string_app_nil. done.
Qed.

Lemma timeseriesSignature_sorted (ilmName : string) (metric : Metric) (l : AttributeMap) :
  (timeseriesSignature ilmName metric l).2 = Sort l.
Proof. done. Qed.

Lemma MetricDataType_String_star_free (t : MetricDataType) :
  star_free (MetricDataType_String t) = true.
Proof. by destruct t. Qed.

Lemma MetricDataType_String_inj (t t' : MetricDataType) :
  MetricDataType_String t = MetricDataType_String t' → t = t'.
Proof. by destruct t, t'. Qed.

(** The kind can be read back from any signature. *)
Lemma kind_prefix_inj (t t' : MetricDataType) (r r' : string) :
  MetricDataType_String t +:+ String "*" r = MetricDataType_String t' +:+ String "*" r' →
  t = t'.
Proof.
  intros Heq. apply MetricDataType_String_inj.
  by apply star_prefix_inj in Heq as [? _]; [|apply MetricDataType_String_star_free..].
Qed.

Lemma timeseriesSignature_kind ilmName ilmName' (m m' : Metric) (l l' : AttributeMap) :
  (timeseriesSignature ilmName m l).1 = (timeseriesSignature ilmName' m' l').1 →
  DataType m = DataType m'.
Proof.
  rewrite !timeseriesSignature_join. simpl. apply kind_prefix_inj.
Qed.

Lemma attribute_components_star_free (l : AttributeMap) :
  Forall (λ e, star_free e.1 = true ∧ star_free (AttributeValueToString e.2) = true) l →
  Forall (λ c, star_free c = true) (attribute_components l).
Proof.
  induction 1 as [|[k v] l [Hk Hv] _ IH]; simpl; [constructor|].
  by repeat constructor.
Qed.

Lemma attribute_components_inj (l l' : AttributeMap) :
  (∀ v v', v ∈ l.*2 → v' ∈ l'.*2 →
           AttributeValueToString v = AttributeValueToString v' → v = v') →
  attribute_components l = attribute_components l' → l = l'.
Proof.
  revert l'. induction l as [|[k v] l IH]; intros [|[k' v'] l'] Hinj; simpl; try done.
  intros [= -> Hv Hrest].
  rewrite (Hinj v v') by (done || rewrite fmap_cons; apply list_elem_of_here).
  f_equal. apply IH; [|done].
  intros w w' Hw Hw'. apply Hinj; rewrite fmap_cons; by apply list_elem_of_further.
Qed.

(** Equal signatures of inputs without the delimiter come from equal
    kinds, scopes, names and label sets. *)
Lemma timeseriesSignature_inj ilmName ilmName' (m m' : Metric) (l l' : AttributeMap) :
  star_free ilmName = true → star_free ilmName' = true →
  star_free (Name m) = true → star_free (Name m') = true →
  Forall (λ e, star_free e.1 = true ∧ star_free (AttributeValueToString e.2) = true) l →
  Forall (λ e, star_free e.1 = true ∧ star_free (AttributeValueToString e.2) = true) l' →
  (∀ v v', v ∈ l.*2 → v' ∈ l'.*2 →
           AttributeValueToString v = AttributeValueToString v' → v = v') →
  (timeseriesSignature ilmName m l).1 = (timeseriesSignature ilmName' m' l').1 →
  DataType m = DataType m' ∧ ilmName = ilmName' ∧ Name m = Name m' ∧ l ≡ₚ l'.
Proof.
  intros Hi Hi' Hn Hn' Hl Hl' Hinj. rewrite !timeseriesSignature_join. intros Heq.
  apply join_star_inj in Heq as [Hkind Hcs];
    try apply MetricDataType_String_star_free;
    try (repeat constructor; [done..|];
         apply attribute_components_star_free; by rewrite Sort_perm).
  injection Hcs as -> Hname Hattrs.
  split_and!; [by apply MetricDataType_String_inj|done|done|].
  apply attribute_components_inj in Hattrs.
  - by rewrite <- (Sort_perm l), <- (Sort_perm l'), Hattrs.
  - intros v v'. rewrite !Sort_perm. apply Hinj.
Qed.

End SignatureProperties.

(** Names the signature and the sorted datapoint in the body of a policy. *)
Ltac body_unfold f :=
  unfold f;
  match goal with
  | |- context [timeseriesSignature ?i ?m ?l] =>
      rewrite (surjective_pairing (timeseriesSignature i m l));
      cbv beta iota; rewrite (timeseriesSignature_sorted i m l)
  end;
  match goal with
  | |- context [SetAttributes (Sort (Attributes ?ip)) ?ip] =>
      change (SetAttributes (Sort (Attributes ip)) ip) with (sorted_point ip)
  end.

Section PolicyProperties.
Context `{Pdata}.

Lemma createMetric_eq (metric : Metric) :
  createMetric metric
  = snapshot metric
      match DataType metric with
      | MetricDataTypeNone => DataNone
      | MetricDataTypeGauge => DataGauge (mkGauge [])
      | MetricDataTypeSum => DataSum (mkSum AggregationTemporalityUnspecified false [])
      | MetricDataTypeHistogram =>
          DataHistogram (mkHistogram AggregationTemporalityUnspecified [])
      | MetricDataTypeSummary => DataSummary (mkSummary [])
      end.
Proof. done. Qed.

Lemma stored_neq_dropped {V} signature m il now (ip : DataPoint V) n a :
  stored signature m il now ip n a ≠ dropped ip n a.
Proof. unfold stored, dropped. intros [= Hn _]. lia. Qed.

Lemma store_ok_new (expiration : Z) : store_ok (newAccumulator expiration).
Proof. intros k v. simpl. by rewrite lookup_empty. Qed.

Lemma store_ok_Store signature v a :
  store_ok a → entry_ok signature v → store_ok (Store signature v a).
Proof.
  intros Hok Hv k w. simpl. rewrite lookup_insert.
  case_decide; [intros [= <-]; by subst|apply Hok].
Qed.

Lemma store_ok_Delete signature a : store_ok a → store_ok (Delete signature a).
Proof.
  intros Hok k w. simpl. rewrite lookup_delete.
  case_decide; [done|apply Hok].
Qed.

Lemma entry_ok_signature ilmName (metric : Metric) (l : AttributeMap) v :
  DataType (value v) = DataType metric →
  Metric_numDataPoints (value v) = 1%nat →
  entry_ok (timeseriesSignature ilmName metric l).1 v.
Proof.
  intros Hkind Hlen. split; [done|].
  rewrite timeseriesSignature_join, Hkind. simpl. eauto.
Qed.

(** What a successful lookup under the signature of [metric] yields. *)
Lemma store_ok_Load ilmName (metric : Metric) (l : AttributeMap) a mv :
  store_ok a →
  Load (timeseriesSignature ilmName metric l).1 a = Some mv →
  DataType (value mv) = DataType metric ∧ Metric_numDataPoints (value mv) = 1%nat.
Proof.
  intros Hok Hload. destruct (Hok _ _ Hload) as [Hlen [rest Hsig]].
  split; [|done].
  rewrite timeseriesSignature_join in Hsig. simpl in Hsig.
  by apply kind_prefix_inj in Hsig.
Qed.

Lemma length_1_inv {A} (l : list A) : length l = 1%nat → ∃ x, l = [x].
Proof. destruct l as [|x [|??]]; naive_solver. Qed.

(** *** Gauge *)

Lemma stored_gauge ilmName (metric : Metric) (l : AttributeMap) a mv :
  store_ok a → DataType metric = MetricDataTypeGauge →
  Load (timeseriesSignature ilmName metric l).1 a = Some mv →
  ∃ dp0, Data (value mv) = DataGauge (mkGauge [dp0]).
Proof.
  intros Hok Hkind Hload.
  destruct (store_ok_Load _ _ _ _ _ Hok Hload) as [Hk Hlen].
  rewrite Hkind in Hk. unfold DataType, Metric_numDataPoints in *.
  destruct (Data (value mv)) as [|[dps]| | |]; try done.
  apply length_1_inv in Hlen as [dp0 Hdp]. simpl in Hdp. subst. eauto.
Qed.

Lemma accumulateGauge_body_None metric il now (ip : NumberDataPoint) n a :
  DataType metric = MetricDataTypeGauge →
  Load (timeseriesSignature (il_Name il) metric (Attributes ip)).1 a = None →
  accumulateGauge_body metric il now ip n a
  = stored (timeseriesSignature (il_Name il) metric (Attributes ip)).1
           (gaugeSnapshot metric ip) il now ip n a.
Proof.
  intros Hkind Hload. body_unfold @accumulateGauge_body.
  rewrite Hload, createMetric_eq, Hkind. done.
Qed.

Lemma accumulateGauge_body_Some metric il now (ip : NumberDataPoint) n a mv :
  store_ok a → DataType metric = MetricDataTypeGauge →
  Load (timeseriesSignature (il_Name il) metric (Attributes ip)).1 a = Some mv →
  ∃ ts0, Metric_Timestamps (value mv) = [ts0] ∧
    accumulateGauge_body metric il now ip n a
    = if bool_decide (Timestamp ip < ts0) then dropped ip n a
      else stored (timeseriesSignature (il_Name il) metric (Attributes ip)).1
                  (gaugeSnapshot metric ip) il now ip n a.
Proof.
  intros Hok Hkind Hload.
  destruct (stored_gauge _ _ _ _ _ Hok Hkind Hload) as [dp0 Hdp].
  exists (Timestamp dp0). split; [unfold Metric_Timestamps; by rewrite Hdp|].
  body_unfold @accumulateGauge_body.
  rewrite Hload, createMetric_eq, Hkind. unfold Metric_Gauge. rewrite Hdp. simpl.
  done.
Qed.

(** *** Summary *)

Lemma stored_summary ilmName (metric : Metric) (l : AttributeMap) a mv :
  store_ok a → DataType metric = MetricDataTypeSummary →
  Load (timeseriesSignature ilmName metric l).1 a = Some mv →
  ∃ dp0, Data (value mv) = DataSummary (mkSummary [dp0]).
Proof.
  intros Hok Hkind Hload.
  destruct (store_ok_Load _ _ _ _ _ Hok Hload) as [Hk Hlen].
  rewrite Hkind in Hk. unfold DataType, Metric_numDataPoints in *.
  destruct (Data (value mv)) as [| | | |[dps]]; try done.
  apply length_1_inv in Hlen as [dp0 Hdp]. simpl in Hdp. subst. eauto.
Qed.

Lemma accumulateSummary_body_None metric il now (ip : SummaryDataPoint) n a :
  DataType metric = MetricDataTypeSummary →
  Load (timeseriesSignature (il_Name il) metric (Attributes ip)).1 a = None →
  accumulateSummary_body metric il now ip n a
  = stored (timeseriesSignature (il_Name il) metric (Attributes ip)).1
           (summarySnapshot metric ip) il now ip n a.
Proof.
  intros Hkind Hload. body_unfold @accumulateSummary_body.
  rewrite Hload, createMetric_eq, Hkind. done.
Qed.

Lemma accumulateSummary_body_Some metric il now (ip : SummaryDataPoint) n a mv :
  store_ok a → DataType metric = MetricDataTypeSummary →
  Load (timeseriesSignature (il_Name il) metric (Attributes ip)).1 a = Some mv →
  ∃ ts0, Metric_Timestamps (value mv) = [ts0] ∧
    accumulateSummary_body metric il now ip n a
    = if bool_decide (Timestamp ip < ts0) then dropped ip n a
      else stored (timeseriesSignature (il_Name il) metric (Attributes ip)).1
                  (summarySnapshot metric ip) il now ip n a.
Proof.
  intros Hok Hkind Hload.
  destruct (stored_summary _ _ _ _ _ Hok Hkind Hload) as [dp0 Hdp].
  exists (Timestamp dp0). split; [unfold Metric_Timestamps; by rewrite Hdp|].
  body_unfold @accumulateSummary_body.
  rewrite Hload, createMetric_eq, Hkind. unfold Metric_Summary. rewrite Hdp. simpl.
  by case_bool_decide.
Qed.

(** *** Cumulative sum *)

Lemma stored_sum ilmName (metric : Metric) (l : AttributeMap) a mv :
  store_ok a → DataType metric = MetricDataTypeSum →
  Load (timeseriesSignature ilmName metric l).1 a = Some mv →
  ∃ t b dp0, Data (value mv) = DataSum (mkSum t b [dp0]).
Proof.
  intros Hok Hkind Hload.
  destruct (store_ok_Load _ _ _ _ _ Hok Hload) as [Hk Hlen].
  rewrite Hkind in Hk. unfold DataType, Metric_numDataPoints in *.
  destruct (Data (value mv)) as [| |[t b dps]| |]; try done.
  apply length_1_inv in Hlen as [dp0 Hdp]. simpl in Hdp. subst. eauto.
Qed.

Lemma DataSum_DataType (metric : Metric) s :
  Data metric = DataSum s → DataType metric = MetricDataTypeSum.
Proof. unfold DataType. by intros ->. Qed.

Lemma accumulateSum_body_None metric s il now (ip : NumberDataPoint) n a :
  Data metric = DataSum s →
  Load (timeseriesSignature (il_Name il) metric (Attributes ip)).1 a = None →
  accumulateSum_body metric il now ip n a
  = stored (timeseriesSignature (il_Name il) metric (Attributes ip)).1
           (sumSnapshot metric (Sum_IsMonotonic s) ip) il now ip n a.
Proof.
  intros Hdata Hload. body_unfold @accumulateSum_body.
  rewrite Hload, createMetric_eq, (DataSum_DataType _ _ Hdata).
  unfold Metric_Sum. rewrite Hdata. done.
Qed.

Lemma accumulateSum_body_Some metric s il now (ip : NumberDataPoint) n a mv :
  store_ok a → Data metric = DataSum s →
  Load (timeseriesSignature (il_Name il) metric (Attributes ip)).1 a = Some mv →
  ∃ ts0, Metric_Timestamps (value mv) = [ts0] ∧
    accumulateSum_body metric il now ip n a
    = if bool_decide (Timestamp ip < ts0) then dropped ip n a
      else stored (timeseriesSignature (il_Name il) metric (Attributes ip)).1
                  (sumSnapshot metric (Sum_IsMonotonic s) ip) il now ip n a.
Proof.
  intros Hok Hdata Hload.
  pose proof (DataSum_DataType _ _ Hdata) as Hkind.
  destruct (stored_sum _ _ _ _ _ Hok Hkind Hload) as (t & b & dp0 & Hdp).
  exists (Timestamp dp0). split; [unfold Metric_Timestamps; by rewrite Hdp|].
  body_unfold @accumulateSum_body.
  rewrite Hload, createMetric_eq, Hkind. unfold Metric_Sum. rewrite Hdp, Hdata. simpl.
  done.
Qed.

(** *** Cumulative histogram *)

Lemma stored_histogram ilmName (metric : Metric) (l : AttributeMap) a mv :
  store_ok a → DataType metric = MetricDataTypeHistogram →
  Load (timeseriesSignature ilmName metric l).1 a = Some mv →
  ∃ t dp0, Data (value mv) = DataHistogram (mkHistogram t [dp0]).
Proof.
  intros Hok Hkind Hload.
  destruct (store_ok_Load _ _ _ _ _ Hok Hload) as [Hk Hlen].
  rewrite Hkind in Hk. unfold DataType, Metric_numDataPoints in *.
  destruct (Data (value mv)) as [| | |[t dps]|]; try done.
  apply length_1_inv in Hlen as [dp0 Hdp]. simpl in Hdp. subst. eauto.
Qed.

(** The first store leaves the temporality [createMetric] gave the
    snapshot; only the replacing store sets it. *)
Lemma accumulateDoubleHistogram_body_None metric il now (ip : HistogramDataPoint) n a :
  DataType metric = MetricDataTypeHistogram →
  Load (timeseriesSignature (il_Name il) metric (Attributes ip)).1 a = None →
  accumulateDoubleHistogram_body metric il now ip n a
  = stored (timeseriesSignature (il_Name il) metric (Attributes ip)).1
           (histogramSnapshot metric AggregationTemporalityUnspecified ip) il now ip n a.
Proof.
  intros Hkind Hload. body_unfold @accumulateDoubleHistogram_body.
  rewrite Hload, createMetric_eq, Hkind. done.
Qed.

Lemma accumulateDoubleHistogram_body_Some metric il now (ip : HistogramDataPoint) n a mv :
  store_ok a → DataType metric = MetricDataTypeHistogram →
  Load (timeseriesSignature (il_Name il) metric (Attributes ip)).1 a = Some mv →
  ∃ ts0, Metric_Timestamps (value mv) = [ts0] ∧
    accumulateDoubleHistogram_body metric il now ip n a
    = if bool_decide (Timestamp ip < ts0) then dropped ip n a
      else stored (timeseriesSignature (il_Name il) metric (Attributes ip)).1
                  (histogramSnapshot metric AggregationTemporalityCumulative ip)
                  il now ip n a.
Proof.
  intros Hok Hkind Hload.
  destruct (stored_histogram _ _ _ _ _ Hok Hkind Hload) as (t & dp0 & Hdp).
  exists (Timestamp dp0). split; [unfold Metric_Timestamps; by rewrite Hdp|].
  body_unfold @accumulateDoubleHistogram_body.
  rewrite Hload, createMetric_eq, Hkind. unfold Metric_Histogram. rewrite Hdp. simpl.
  done.
Qed.

(** *** The loops *)

(** A body that either drops the datapoint or stores a well-formed entry
    for it keeps the store well formed, terminates without a panic, and
    leaves in the store only what was there or what it stored. *)
Lemma forDataPoints_inv {V}
    (body : DataPoint V → nat → lastValueAccumulator
            → option (nat * lastValueAccumulator * DataPoint V))
    (P : accumulatedValue → Prop) :
  (∀ ip n a, store_ok a →
     body ip n a = dropped ip n a ∨
     ∃ signature m il now,
       body ip n a = stored signature m il now ip n a ∧
       entry_ok signature (mkAccumulatedValue m now il) ∧
       P (mkAccumulatedValue m now il)) →
  ∀ dps n a, store_ok a →
    ∃ n' a',
      forDataPoints body dps n a = Some (n', a', sorted_point <$> dps) ∧
      store_ok a' ∧
      (n ≤ n' ≤ n + length dps)%nat ∧
      metricExpiration a' = metricExpiration a ∧
      (∀ k v, registeredMetrics a' !! k = Some v →
              registeredMetrics a !! k = Some v ∨ P v).
Proof.
  intros Hbody dps. induction dps as [|ip dps IH]; intros n a Hok; simpl.
  - exists n, a. split_and!; auto; lia.
  - destruct (Hbody ip n a Hok) as [Hd|(sig & m & il & now & Hs & Hentry & HP)].
    + rewrite Hd. unfold dropped. simpl.
      destruct (IH n a Hok) as (n' & a' & -> & Hok' & Hn & Hexp & Hsub).
      exists n', a'. simpl. split_and!; try done; lia.
    + rewrite Hs. unfold stored. simpl.
      destruct (IH (S n) _ (store_ok_Store _ _ _ Hok Hentry))
        as (n' & a' & -> & Hok' & Hn & Hexp & Hsub).
      exists n', a'. simpl. split_and!; try done; try lia.
      intros k v Hkv. destruct (Hsub k v Hkv) as [Hin|?]; [|by right].
      simpl in Hin. rewrite lookup_insert in Hin.
      case_decide; [|by left]. injection Hin as <-. by right.
Qed.

Lemma accumulateGauge_body_step (P : accumulatedValue → Prop) metric il now :
  DataType metric = MetricDataTypeGauge →
  (∀ ip, P (mkAccumulatedValue (gaugeSnapshot metric ip) now il)) →
  ∀ (ip : NumberDataPoint) n a, store_ok a →
    accumulateGauge_body metric il now ip n a = dropped ip n a ∨
    ∃ signature m il' now',
      accumulateGauge_body metric il now ip n a = stored signature m il' now' ip n a ∧
      entry_ok signature (mkAccumulatedValue m now' il') ∧
      P (mkAccumulatedValue m now' il').
Proof.
  intros Hkind HP ip n a Hok.
  assert (Hentry : entry_ok (timeseriesSignature (il_Name il) metric (Attributes ip)).1
                     (mkAccumulatedValue (gaugeSnapshot metric ip) now il))
    by (apply entry_ok_signature; [by rewrite Hkind|done]).
  destruct (Load (timeseriesSignature (il_Name il) metric (Attributes ip)).1 a)
    as [mv|] eqn:Hload.
  - destruct (accumulateGauge_body_Some _ _ now ip n _ _ Hok Hkind Hload) as (ts0 & _ & ->).
    case_bool_decide; [by left|right; eauto 10].
  - rewrite accumulateGauge_body_None by done. right; eauto 10.
Qed.

Lemma accumulateSummary_body_step (P : accumulatedValue → Prop) metric il now :
  DataType metric = MetricDataTypeSummary →
  (∀ ip, P (mkAccumulatedValue (summarySnapshot metric ip) now il)) →
  ∀ (ip : SummaryDataPoint) n a, store_ok a →
    accumulateSummary_body metric il now ip n a = dropped ip n a ∨
    ∃ signature m il' now',
      accumulateSummary_body metric il now ip n a = stored signature m il' now' ip n a ∧
      entry_ok signature (mkAccumulatedValue m now' il') ∧
      P (mkAccumulatedValue m now' il').
Proof.
  intros Hkind HP ip n a Hok.
  assert (Hentry : entry_ok (timeseriesSignature (il_Name il) metric (Attributes ip)).1
                     (mkAccumulatedValue (summarySnapshot metric ip) now il))
    by (apply entry_ok_signature; [by rewrite Hkind|done]).
  destruct (Load (timeseriesSignature (il_Name il) metric (Attributes ip)).1 a)
    as [mv|] eqn:Hload.
  - destruct (accumulateSummary_body_Some _ _ now ip n _ _ Hok Hkind Hload) as (ts0 & _ & ->).
    case_bool_decide; [by left|right; eauto 10].
  - rewrite accumulateSummary_body_None by done. right; eauto 10.
Qed.

Lemma accumulateSum_body_step (P : accumulatedValue → Prop) metric s il now :
  Data metric = DataSum s →
  (∀ ip, P (mkAccumulatedValue (sumSnapshot metric (Sum_IsMonotonic s) ip) now il)) →
  ∀ (ip : NumberDataPoint) n a, store_ok a →
    accumulateSum_body metric il now ip n a = dropped ip n a ∨
    ∃ signature m il' now',
      accumulateSum_body metric il now ip n a = stored signature m il' now' ip n a ∧
      entry_ok signature (mkAccumulatedValue m now' il') ∧
      P (mkAccumulatedValue m now' il').
Proof.
  intros Hdata HP ip n a Hok.
  pose proof (DataSum_DataType _ _ Hdata) as Hkind.
  assert (Hentry : entry_ok (timeseriesSignature (il_Name il) metric (Attributes ip)).1
                     (mkAccumulatedValue (sumSnapshot metric (Sum_IsMonotonic s) ip) now il))
    by (apply entry_ok_signature; [by rewrite Hkind|done]).
  destruct (Load (timeseriesSignature (il_Name il) metric (Attributes ip)).1 a)
    as [mv|] eqn:Hload.
  - destruct (accumulateSum_body_Some _ _ _ now ip n _ _ Hok Hdata Hload) as (ts0 & _ & ->).
    case_bool_decide; [by left|right; eauto 10].
  - rewrite (accumulateSum_body_None _ s) by done. right; eauto 10.
Qed.

Lemma accumulateDoubleHistogram_body_step (P : accumulatedValue → Prop) metric il now :
  DataType metric = MetricDataTypeHistogram →
  (∀ t ip, P (mkAccumulatedValue (histogramSnapshot metric t ip) now il)) →
  ∀ (ip : HistogramDataPoint) n a, store_ok a →
    accumulateDoubleHistogram_body metric il now ip n a = dropped ip n a ∨
    ∃ signature m il' now',
      accumulateDoubleHistogram_body metric il now ip n a
      = stored signature m il' now' ip n a ∧
      entry_ok signature (mkAccumulatedValue m now' il') ∧
      P (mkAccumulatedValue m now' il').
Proof.
  intros Hkind HP ip n a Hok.
  assert (Hentry : ∀ t, entry_ok (timeseriesSignature (il_Name il) metric (Attributes ip)).1
                     (mkAccumulatedValue (histogramSnapshot metric t ip) now il))
    by (intros t; apply entry_ok_signature; [by rewrite Hkind|done]).
  destruct (Load (timeseriesSignature (il_Name il) metric (Attributes ip)).1 a)
    as [mv|] eqn:Hload.
  - destruct (accumulateDoubleHistogram_body_Some _ _ now ip n _ _ Hok Hkind Hload)
      as (ts0 & _ & ->).
    case_bool_decide; [by left|right; eauto 10].
  - rewrite accumulateDoubleHistogram_body_None by done. right; eauto 10.
Qed.

(** *** The four policies, run on a well-formed store *)

Lemma accumulateGauge_inv (P : accumulatedValue → Prop) metric g il now a :
  Data metric = DataGauge g →
  (∀ ip, P (mkAccumulatedValue (gaugeSnapshot metric ip) now il)) →
  store_ok a →
  policy_post P metric a (accumulateGauge metric il now a).
Proof.
  intros Hdata HP Hok.
  assert (Hkind : DataType metric = MetricDataTypeGauge)
    by (unfold DataType; by rewrite Hdata).
  destruct (forDataPoints_inv _ P (accumulateGauge_body_step P metric il now Hkind HP)
              (Gauge_DataPoints g) 0%nat a Hok) as (n & a' & Hloop & Hok' & Hn & Hexp & Hsub).
  exists n, a'. unfold accumulateGauge, Metric_Gauge, touched_metric, Metric_numDataPoints.
  rewrite Hdata. simpl. rewrite Hloop. simpl. split_and!; try done; apply Hn.
Qed.

Lemma accumulateSummary_inv (P : accumulatedValue → Prop) metric s il now a :
  Data metric = DataSummary s →
  (∀ ip, P (mkAccumulatedValue (summarySnapshot metric ip) now il)) →
  store_ok a →
  policy_post P metric a (accumulateSummary metric il now a).
Proof.
  intros Hdata HP Hok.
  assert (Hkind : DataType metric = MetricDataTypeSummary)
    by (unfold DataType; by rewrite Hdata).
  destruct (forDataPoints_inv _ P (accumulateSummary_body_step P metric il now Hkind HP)
              (Summary_DataPoints s) 0%nat a Hok) as (n & a' & Hloop & Hok' & Hn & Hexp & Hsub).
  exists n, a'. unfold accumulateSummary, Metric_Summary, touched_metric, Metric_numDataPoints.
  rewrite Hdata. simpl. rewrite Hloop. simpl. split_and!; try done; apply Hn.
Qed.

Lemma accumulateSum_inv (P : accumulatedValue → Prop) metric s il now a :
  Data metric = DataSum s →
  (∀ ip, P (mkAccumulatedValue (sumSnapshot metric (Sum_IsMonotonic s) ip) now il)) →
  store_ok a →
  policy_post P metric a (accumulateSum metric il now a).
Proof.
  intros Hdata HP Hok.
  unfold policy_post, accumulateSum, Metric_Sum, touched_metric, Metric_numDataPoints.
  rewrite Hdata. simpl. case_decide.
  - exists 0%nat, a. split_and!; auto; lia.
  - destruct (forDataPoints_inv _ P (accumulateSum_body_step P metric s il now Hdata HP)
                (Sum_DataPoints s) 0%nat a Hok)
      as (n & a' & Hloop & Hok' & Hn & Hexp & Hsub).
    exists n, a'. rewrite Hloop. simpl. split_and!; try done; apply Hn.
Qed.

Lemma accumulateDoubleHistogram_inv (P : accumulatedValue → Prop) metric h il now a :
  Data metric = DataHistogram h →
  (∀ t ip, P (mkAccumulatedValue (histogramSnapshot metric t ip) now il)) →
  store_ok a →
  policy_post P metric a (accumulateDoubleHistogram metric il now a).
Proof.
  intros Hdata HP Hok.
  assert (Hkind : DataType metric = MetricDataTypeHistogram)
    by (unfold DataType; by rewrite Hdata).
  unfold policy_post, accumulateDoubleHistogram, Metric_Histogram, touched_metric,
    Metric_numDataPoints.
  rewrite Hdata. simpl. case_decide.
  - exists 0%nat, a. split_and!; auto; lia.
  - destruct (forDataPoints_inv _ P
                (accumulateDoubleHistogram_body_step P metric il now Hkind HP)
                (Histogram_DataPoints h) 0%nat a Hok)
      as (n & a' & Hloop & Hok' & Hn & Hexp & Hsub).
    exists n, a'. rewrite Hloop. simpl. split_and!; try done; apply Hn.
Qed.

Lemma addMetric_inv metric il now a :
  store_ok a → policy_post (λ _, True) metric a (addMetric metric il now a).
Proof.
  intros Hok. unfold addMetric, DataType.
  destruct (Data metric) as [|g|s|h|s] eqn:Hdata.
  - exists 0%nat, a. unfold touched_metric. rewrite Hdata.
    split_and!; auto; lia.
  - by eapply accumulateGauge_inv.
  - by eapply accumulateSum_inv.
  - by eapply accumulateDoubleHistogram_inv.
  - by eapply accumulateSummary_inv.
Qed.

Lemma Accumulate_metrics_inv il now metrics n a :
  store_ok a →
  ∃ n' a',
    Accumulate_metrics il now metrics n a = Some (n', a', touched_metric <$> metrics) ∧
    store_ok a' ∧ metricExpiration a' = metricExpiration a.
Proof.
  revert n a. induction metrics as [|metric metrics IH]; intros n a Hok; simpl.
  - by exists n, a.
  - destruct (addMetric_inv metric il now a Hok) as (k & a1 & -> & Hok1 & _ & Hexp1 & _).
    simpl. destruct (IH (n + k)%nat a1 Hok1) as (n' & a' & -> & Hok' & Hexp').
    simpl. exists n', a'. split_and!; [done|done|congruence].
Qed.

Lemma Accumulate_ilms_inv now ilms n a :
  store_ok a →
  ∃ n' a',
    Accumulate_ilms now ilms n a = Some (n', a', touched_ilm <$> ilms) ∧
    store_ok a' ∧ metricExpiration a' = metricExpiration a.
Proof.
  revert n a. induction ilms as [|ilm ilms IH]; intros n a Hok; simpl.
  - by exists n, a.
  - destruct (Accumulate_metrics_inv (ilm_InstrumentationLibrary ilm) now
                (ilm_Metrics ilm) n a Hok) as (n1 & a1 & -> & Hok1 & Hexp1).
    simpl. destruct (IH n1 a1 Hok1) as (n' & a' & -> & Hok' & Hexp').
    simpl. exists n', a'. split_and!; [done|done|congruence].
Qed.

(** On a well-formed store [Accumulate] returns, keeps the store well
    formed, and hands the batch back with the labels it looked at sorted. *)
Lemma Accumulate_inv now rm a :
  store_ok a →
  ∃ n a',
    Accumulate now rm a = Some (n, a', touched_batch rm) ∧
    store_ok a' ∧ metricExpiration a' = metricExpiration a.
Proof.
  intros Hok. unfold Accumulate.
  destruct (Accumulate_ilms_inv now (rm_InstrumentationLibraryMetrics rm) 0%nat a Hok)
    as (n & a' & -> & Hok' & Hexp).
  simpl. by exists n, a'.
Qed.

End PolicyProperties.

Section CollectProperties.
Context `{Pdata}.

Lemma Collect_visit_fold (boundary : Z) (order : list (string * accumulatedValue))
    (res : list Metric) (a : lastValueAccumulator) :
  foldl (Collect_visit boundary) (res, a) order
  = (res ++ (value ∘ snd <$> filter (live boundary) order),
     {| registeredMetrics :=
          foldl (λ m e, if decide (live boundary e) then m else delete e.1 m)
                (registeredMetrics a) order;
        metricExpiration := metricExpiration a |}).
Proof.
  revert res a. induction order as [|[k v] order IH]; intros res a; simpl.
  - rewrite app_nil_r. by destruct a.
  - rewrite filter_cons.
    destruct (decide (live boundary (k, v))) as [Hlive|Hdead]; unfold live in *; simpl in *.
    + rewrite bool_decide_eq_false_2 by done. rewrite IH. simpl.
      by rewrite <- app_assoc.
    + rewrite bool_decide_eq_true_2 by lia. by rewrite IH.
Qed.

Lemma lookup_foldl_delete (boundary : Z) (order : list (string * accumulatedValue))
    (m : gmap string accumulatedValue) (k : string) :
  foldl (λ m e, if decide (live boundary e) then m else delete e.1 m) m order !! k
  = if decide (k ∈ (filter (λ e, ¬ live boundary e) order).*1) then None else m !! k.
Proof.
  revert m. induction order as [|[k' v'] order IH]; intros m; simpl.
  - done.
  - rewrite IH, filter_cons. destruct (decide (live boundary (k', v'))) as [Hl|Hl].
    + by rewrite (decide_False (P := ¬ live boundary (k', v'))) by tauto.
    + rewrite (decide_True (P := ¬ live boundary (k', v'))) by done.
      rewrite fmap_cons, lookup_delete. simpl.
      destruct (decide (k' = k)) as [->|Hne].
      * rewrite (decide_True (P := k ∈ k :: _)) by apply list_elem_of_here.
        by case_decide.
      * destruct (decide (k ∈ (filter (λ e, ¬ live boundary e) order).*1)) as [Hin|Hnin].
        -- by rewrite decide_True by by apply list_elem_of_further.
        -- rewrite decide_False; [done|].
           intros [?|?]%elem_of_cons; congruence.
Qed.

(** Whatever the enumeration order, the store after [Collect] is the
    store restricted to its live entries. *)
Lemma Collect_store now order a :
  Range_order a order →
  registeredMetrics (Collect now order a).2
  = filter (live (now - metricExpiration a)) (registeredMetrics a).
Proof.
  intros Horder. unfold Collect. rewrite Collect_visit_fold. simpl.
  apply map_eq. intros k. rewrite lookup_foldl_delete.
  destruct (registeredMetrics a !! k) as [v|] eqn:Hk.
  - assert (Hin : (k, v) ∈ order) by (rewrite Horder; by apply elem_of_map_to_list).
    case_decide as Hex.
    + symmetry. apply map_lookup_filter_None. right. intros v' Hv' Hlive.
      apply list_elem_of_fmap in Hex as ([k' w] & -> & Hw).
      apply list_elem_of_filter in Hw as [Hdead Hw]. simpl in *.
      rewrite Horder in Hw. apply elem_of_map_to_list in Hw.
      assert (w = v') by congruence. subst. done.
    + symmetry. apply map_lookup_filter_Some. split; [done|].
      destruct (decide (live (now - metricExpiration a) (k, v))) as [|Hdead]; [done|].
      exfalso. apply Hex. apply list_elem_of_fmap. exists (k, v). split; [done|].
      by apply list_elem_of_filter.
  - case_decide; symmetry; apply map_lookup_filter_None; by left.
Qed.

Lemma Collect_expiration now order a :
  metricExpiration (Collect now order a).2 = metricExpiration a.
Proof. unfold Collect. by rewrite Collect_visit_fold. Qed.

Lemma Collect_result now order a :
  (Collect now order a).1
  = value ∘ snd <$> filter (live (now - metricExpiration a)) order.
Proof. unfold Collect. by rewrite Collect_visit_fold. Qed.

Lemma map_to_list_filter_perm (P : string * accumulatedValue → Prop)
    `{!∀ e, Decision (P e)} (m : gmap string accumulatedValue) :
  map_to_list (filter P m) ≡ₚ filter P (map_to_list m).
Proof.
  apply NoDup_Permutation.
  - apply NoDup_map_to_list.
  - apply NoDup_filter, NoDup_map_to_list.
  - intros [k v]. rewrite elem_of_map_to_list, map_lookup_filter_Some,
      list_elem_of_filter, elem_of_map_to_list. tauto.
Qed.

(** The result lists the metrics of exactly the entries that stay. *)
Lemma Collect_result_store now order a :
  Range_order a order →
  (Collect now order a).1
  ≡ₚ value ∘ snd <$> map_to_list (registeredMetrics (Collect now order a).2).
Proof.
  intros Horder. rewrite Collect_result, Collect_store by done.
  rewrite map_to_list_filter_perm. unfold Range_order in Horder. by rewrite Horder.
Qed.

Lemma store_ok_Collect now order a :
  Range_order a order → store_ok a → store_ok (Collect now order a).2.
Proof.
  intros Horder Hok k v. rewrite Collect_store by done.
  intros [Hk _]%map_lookup_filter_Some. by apply Hok.
Qed.

End CollectProperties.

(** ** The policies as a fold over the datapoints *)

Section OfferProperties.
Context `{Pdata}.

Lemma Metric_numDataPoints_Timestamps (m : Metric) :
  Metric_numDataPoints m = length (Metric_Timestamps m).
Proof.
  unfold Metric_numDataPoints, Metric_Timestamps.
  destruct (Data m); [done|..]; by rewrite length_fmap.
Qed.

Lemma first_ts_singleton (m : Metric) ts : Metric_Timestamps m = [ts] → first_ts m = ts.
Proof. unfold first_ts. by intros ->. Qed.

Lemma body_offer {V} metric il now (ip : DataPoint V) n a
    (r : option (nat * lastValueAccumulator * DataPoint V)) (first replacing : Metric) :
  store_ok a →
  DataType first = DataType metric →
  DataType replacing = DataType metric →
  Metric_Timestamps first = [Timestamp ip] →
  Metric_Timestamps replacing = [Timestamp ip] →
  (Load (timeseriesSignature (il_Name il) metric (Attributes ip)).1 a = None →
   r = stored (timeseriesSignature (il_Name il) metric (Attributes ip)).1
              first il now ip n a) →
  (∀ mv, Load (timeseriesSignature (il_Name il) metric (Attributes ip)).1 a = Some mv →
     ∃ ts0, Metric_Timestamps (value mv) = [ts0] ∧
       r = if bool_decide (Timestamp ip < ts0) then dropped ip n a
           else stored (timeseriesSignature (il_Name il) metric (Attributes ip)).1
                       replacing il now ip n a) →
  ∃ n' a',
    r = Some (n', a', sorted_point ip) ∧
    (n', registeredMetrics a')
    = offer (n, registeredMetrics a)
            ((timeseriesSignature (il_Name il) metric (Attributes ip)).1,
             mkAccumulatedValue first now il, mkAccumulatedValue replacing now il) ∧
    metricExpiration a' = metricExpiration a ∧
    store_ok a'.
Proof.
  intros Hok Hk1 Hk2 Hts1 Hts2 Hnone Hsome.
  set (sig := (timeseriesSignature (il_Name il) metric (Attributes ip)).1) in *.
  assert (Hentry : ∀ m, DataType m = DataType metric → Metric_Timestamps m = [Timestamp ip] →
                        entry_ok sig (mkAccumulatedValue m now il)).
  { intros m Hk Hts. apply entry_ok_signature; [done|]. simpl.
    by rewrite Metric_numDataPoints_Timestamps, Hts. }
  unfold offer. simpl. destruct (Load sig a) as [mv|] eqn:Hload; unfold Load in Hload.
  - destruct (Hsome mv eq_refl) as (ts0 & Hts0 & ->). rewrite Hload.
    rewrite (first_ts_singleton _ _ Hts2), (first_ts_singleton _ _ Hts0).
    case_bool_decide.
    + by exists n, a.
    + eexists _, _. split_and!; [done|done|done|]. apply store_ok_Store; auto.
  - rewrite Hnone by done. rewrite Hload.
    eexists _, _. split_and!; [done|done|done|]. apply store_ok_Store; auto.
Qed.

Lemma forDataPoints_offers {V} (offered : DataPoint V → Offer)
    (body : DataPoint V → nat → lastValueAccumulator
            → option (nat * lastValueAccumulator * DataPoint V))
    (dps : list (DataPoint V)) :
  (∀ ip n a, store_ok a →
     ∃ n' a', body ip n a = Some (n', a', sorted_point ip) ∧
              (n', registeredMetrics a') = offer (n, registeredMetrics a) (offered ip) ∧
              metricExpiration a' = metricExpiration a ∧ store_ok a') →
  ∀ n a, store_ok a →
    offer_post (offered <$> dps) (sorted_point <$> dps) n a (forDataPoints body dps n a).
Proof.
  intros Hbody. induction dps as [|ip dps IH]; intros n a Hok.
  - by exists n, a.
  - rewrite !fmap_cons. cbn [forDataPoints].
    destruct (Hbody ip n a Hok) as (n1 & a1 & -> & Hreg1 & Hexp1 & Hok1).
    destruct (IH n1 a1 Hok1) as (n2 & a2 & Hloop & Hreg2 & Hexp2 & Hok2).
    exists n2, a2. simpl. rewrite Hloop. simpl.
    split_and!; [done| |congruence|done]. by rewrite Hreg2, Hreg1.
Qed.

Lemma accumulateGauge_offers now metric g il a :
  Data metric = DataGauge g → store_ok a →
  offer_post (metric_offers now il metric) (touched_metric metric) 0%nat a
             (accumulateGauge metric il now a).
Proof.
  intros Hdata Hok.
  assert (Hkind : DataType metric = MetricDataTypeGauge)
    by (unfold DataType; by rewrite Hdata).
  destruct (forDataPoints_offers
              (point_offer now il metric (gaugeSnapshot metric) (gaugeSnapshot metric))
              (accumulateGauge_body metric il now) (Gauge_DataPoints g))
    with (n := 0%nat) (a := a) as (n & a' & Hloop & Hrest); [|done|].
  - intros ip n a0 Hok0.
    apply (body_offer metric il now ip n a0 _ (gaugeSnapshot metric ip)
             (gaugeSnapshot metric ip)); try done.
    + by apply accumulateGauge_body_None.
    + intros mv. by apply accumulateGauge_body_Some.
  - exists n, a'. unfold accumulateGauge, Metric_Gauge, touched_metric, metric_offers.
    rewrite Hdata. simpl. rewrite Hloop. done.
Qed.

Lemma accumulateSummary_offers now metric s il a :
  Data metric = DataSummary s → store_ok a →
  offer_post (metric_offers now il metric) (touched_metric metric) 0%nat a
             (accumulateSummary metric il now a).
Proof.
  intros Hdata Hok.
  assert (Hkind : DataType metric = MetricDataTypeSummary)
    by (unfold DataType; by rewrite Hdata).
  destruct (forDataPoints_offers
              (point_offer now il metric (summarySnapshot metric) (summarySnapshot metric))
              (accumulateSummary_body metric il now) (Summary_DataPoints s))
    with (n := 0%nat) (a := a) as (n & a' & Hloop & Hrest); [|done|].
  - intros ip n a0 Hok0.
    apply (body_offer metric il now ip n a0 _ (summarySnapshot metric ip)
             (summarySnapshot metric ip)); try done.
    + by apply accumulateSummary_body_None.
    + intros mv. by apply accumulateSummary_body_Some.
  - exists n, a'. unfold accumulateSummary, Metric_Summary, touched_metric, metric_offers.
    rewrite Hdata. simpl. rewrite Hloop. done.
Qed.

Lemma accumulateSum_offers now metric s il a :
  Data metric = DataSum s → store_ok a →
  offer_post (metric_offers now il metric) (touched_metric metric) 0%nat a
             (accumulateSum metric il now a).
Proof.
  intros Hdata Hok.
  pose proof (DataSum_DataType _ _ Hdata) as Hkind.
  unfold accumulateSum, Metric_Sum, touched_metric, metric_offers. rewrite Hdata. simpl.
  case_decide as Hgate; [by exists 0%nat, a|].
  destruct (forDataPoints_offers
              (point_offer now il metric (sumSnapshot metric (Sum_IsMonotonic s))
                           (sumSnapshot metric (Sum_IsMonotonic s)))
              (accumulateSum_body metric il now) (Sum_DataPoints s))
    with (n := 0%nat) (a := a) as (n & a' & Hloop & Hrest); [|done|].
  - intros ip n a0 Hok0.
    apply (body_offer metric il now ip n a0 _ (sumSnapshot metric (Sum_IsMonotonic s) ip)
             (sumSnapshot metric (Sum_IsMonotonic s) ip)); try done.
    + by apply accumulateSum_body_None.
    + intros mv. by apply accumulateSum_body_Some.
  - exists n, a'. rewrite Hloop. done.
Qed.

Lemma accumulateDoubleHistogram_offers now metric h il a :
  Data metric = DataHistogram h → store_ok a →
  offer_post (metric_offers now il metric) (touched_metric metric) 0%nat a
             (accumulateDoubleHistogram metric il now a).
Proof.
  intros Hdata Hok.
  assert (Hkind : DataType metric = MetricDataTypeHistogram)
    by (unfold DataType; by rewrite Hdata).
  unfold accumulateDoubleHistogram, Metric_Histogram, touched_metric, metric_offers.
  rewrite Hdata. simpl.
  case_decide as Hgate; [by exists 0%nat, a|].
  destruct (forDataPoints_offers
              (point_offer now il metric
                           (histogramSnapshot metric AggregationTemporalityUnspecified)
                           (histogramSnapshot metric AggregationTemporalityCumulative))
              (accumulateDoubleHistogram_body metric il now) (Histogram_DataPoints h))
    with (n := 0%nat) (a := a) as (n & a' & Hloop & Hrest); [|done|].
  - intros ip n a0 Hok0.
    apply (body_offer metric il now ip n a0 _
             (histogramSnapshot metric AggregationTemporalityUnspecified ip)
             (histogramSnapshot metric AggregationTemporalityCumulative ip)); try done.
    + by apply accumulateDoubleHistogram_body_None.
    + intros mv. by apply accumulateDoubleHistogram_body_Some.
  - exists n, a'. rewrite Hloop. done.
Qed.

Lemma addMetric_offers now metric il a :
  store_ok a →
  offer_post (metric_offers now il metric) (touched_metric metric) 0%nat a
             (addMetric metric il now a).
Proof.
  intros Hok. unfold addMetric, DataType.
  destruct (Data metric) as [|g|s|h|s] eqn:Hdata;
    [|by eapply accumulateGauge_offers|by eapply accumulateSum_offers
     |by eapply accumulateDoubleHistogram_offers|by eapply accumulateSummary_offers].
  exists 0%nat, a. unfold touched_metric, metric_offers. by rewrite Hdata.
Qed.

Lemma foldl_offer_count (offers : list Offer) (n k : nat) (m : gmap string accumulatedValue) :
  foldl offer ((n + k)%nat, m) offers
  = ((n + (foldl offer (k, m) offers).1)%nat, (foldl offer (k, m) offers).2).
Proof.
  revert k m. induction offers as [|o offers IH]; intros k m; [done|].
  cbn [foldl].
  assert (Hstep : offer ((n + k)%nat, m) o
                  = ((n + (offer (k, m) o).1)%nat, (offer (k, m) o).2)).
  { unfold offer. simpl. destruct (m !! o.1.1); [case_bool_decide|]; simpl;
      by rewrite ?Nat.add_succ_r. }
  rewrite Hstep. destruct (offer (k, m) o) as [k' m']. simpl. apply IH.
Qed.

Lemma Accumulate_metrics_offers now il metrics n a :
  store_ok a →
  offer_post (batch_offers now (pair il <$> metrics)) (touched_metric <$> metrics) n a
             (Accumulate_metrics il now metrics n a).
Proof.
  revert n a. induction metrics as [|metric metrics IH]; intros n a Hok.
  - by exists n, a.
  - rewrite !fmap_cons. unfold batch_offers in *. rewrite bind_cons.
    cbn [Accumulate_metrics].
    destruct (addMetric_offers now metric il a Hok) as (k & a1 & -> & Hreg1 & Hexp1 & Hok1).
    destruct (IH (n + k)%nat a1 Hok1) as (n2 & a2 & Hloop & Hreg2 & Hexp2 & Hok2).
    exists n2, a2. split_and!; [| |congruence|done].
    + simpl. rewrite Hloop. done.
    + rewrite foldl_app. simpl.
      rewrite <- (Nat.add_0_r n) at 1. rewrite foldl_offer_count, <- Hreg1. done.
Qed.

Lemma Accumulate_ilms_offers now ilms n a :
  store_ok a →
  offer_post
    (batch_offers now (ilm ← ilms; pair (ilm_InstrumentationLibrary ilm) <$> ilm_Metrics ilm))
    (touched_ilm <$> ilms) n a (Accumulate_ilms now ilms n a).
Proof.
  revert n a. induction ilms as [|ilm ilms IH]; intros n a Hok.
  - by exists n, a.
  - rewrite bind_cons, fmap_cons. unfold batch_offers in *. rewrite bind_app.
    cbn [Accumulate_ilms].
    destruct (Accumulate_metrics_offers now (ilm_InstrumentationLibrary ilm) (ilm_Metrics ilm)
                n a Hok) as (n1 & a1 & -> & Hreg1 & Hexp1 & Hok1).
    destruct (IH n1 a1 Hok1) as (n2 & a2 & Hloop & Hreg2 & Hexp2 & Hok2).
    unfold batch_offers in Hreg1.
    exists n2, a2. split_and!; [|by rewrite foldl_app, <- Hreg1|congruence|done].
    simpl. rewrite Hloop. done.
Qed.

Lemma Accumulate_offers now rm a :
  store_ok a →
  offer_post (batch_offers now (batch_metrics rm)) (touched_batch rm) 0%nat a
             (Accumulate now rm a).
Proof.
  intros Hok. unfold Accumulate.
  destruct (Accumulate_ilms_offers now (rm_InstrumentationLibraryMetrics rm) 0%nat a Hok)
    as (n & a' & -> & Hrest).
  simpl. by exists n, a'.
Qed.

Lemma foldl_offer_entries (offers : list Offer) (st : nat * gmap string accumulatedValue)
    (k : string) (v : accumulatedValue) :
  (foldl offer st offers).2 !! k = Some v →
  st.2 !! k = Some v ∨
  ∃ first replacing, (k, first, replacing) ∈ offers ∧ (v = first ∨ v = replacing).
Proof.
  revert st. induction offers as [|[[k' v1] v2] offers IH]; intros st Hv; [by left|].
  cbn [foldl] in Hv. apply IH in Hv as [Hv|(v1' & v2' & Hin & Hv)].
  - unfold offer in Hv. simpl in Hv.
    destruct (st.2 !! k') as [mv|] eqn:Hk'; [case_bool_decide|]; simpl in Hv; auto.
    + destruct (decide (k' = k)) as [->|Hne].
      * rewrite lookup_insert_eq in Hv. injection Hv as <-.
        right. exists v1, v2. split; [left|by right].
      * rewrite lookup_insert_ne in Hv by done. by left.
    + destruct (decide (k' = k)) as [->|Hne].
      * rewrite lookup_insert_eq in Hv. injection Hv as <-.
        right. exists v1, v2. split; [left|by left].
      * rewrite lookup_insert_ne in Hv by done. by left.
  - right. exists v1', v2'. split; [by right|done].
Qed.

End OfferProperties.

(** ** The claims of the specification *)

Section Claims.
Context `{Pdata}.

Lemma Store_Store signature v1 v2 a :
  Store signature v2 (Store signature v1 a) = Store signature v2 a.
Proof. unfold Store. simpl. by rewrite insert_insert_eq. Qed.

Lemma Load_Store signature v a : Load signature (Store signature v a) = Some v.
Proof. unfold Load, Store. simpl. apply lookup_insert_eq. Qed.

Lemma timeseriesSignature_Sort ilmName (metric : Metric) (l l' : AttributeMap) :
  Sort l = Sort l' →
  (timeseriesSignature ilmName metric l).1 = (timeseriesSignature ilmName metric l').1.
Proof. unfold timeseriesSignature. simpl. by intros ->. Qed.

(** C1. Gauge merge policy. One iteration of [accumulateGauge] on a
    well-formed store: with no entry under the signature of the datapoint
    the datapoint is stored; with an entry, it is stored exactly when its
    timestamp is not earlier than the timestamp of the stored datapoint and
    dropped exactly when it is earlier. Storing replaces the entry by a
    fresh snapshot and adds one to the count; dropping changes neither.
    A datapoint with the labels and the timestamp of the one just stored
    replaces it. And [accumulateGauge] itself: it returns, hands the metric
    back with sorted labels, and its count and the store it leaves are those
    of this rule applied to the datapoints of the metric in order, from
    count 0; on a metric of one datapoint it returns count 1 and the store
    with the fresh snapshot, or count 0 and the store as it was when the
    datapoint is earlier than the stored one; on two datapoints with the
    same labels and timestamp and no entry before, it returns count 2 and
    the store holds the second. *)
Theorem accumulateGauge_merge_policy metric il now (ip : NumberDataPoint) n a :
  DataType metric = MetricDataTypeGauge →
  store_ok a →
  let signature := (timeseriesSignature (il_Name il) metric (Attributes ip)).1 in
  let r := accumulateGauge_body metric il now ip n a in
  let store := stored signature (gaugeSnapshot metric ip) il now ip n a in
  let drop := dropped ip n a in
  (Load signature a = None → r = store) ∧
  (∀ mv, Load signature a = Some mv →
     ∃ ts0, Metric_Timestamps (value mv) = [ts0] ∧
            (r = store ↔ ts0 ≤ Timestamp ip) ∧
            (r = drop ↔ Timestamp ip < ts0)) ∧
  (∀ (ip2 : NumberDataPoint) now2 a1,
     r = Some (S n, a1, sorted_point ip) →
     Sort (Attributes ip2) = Sort (Attributes ip) →
     Timestamp ip2 = Timestamp ip →
     ∃ a2, accumulateGauge_body metric il now2 ip2 (S n) a1
           = Some (S (S n), a2, sorted_point ip2) ∧
           Load signature a2
           = Some (mkAccumulatedValue (gaugeSnapshot metric ip2) now2 il)) ∧
  (∃ k a',
     accumulateGauge metric il now a = Some (k, a', touched_metric metric) ∧
     (k, registeredMetrics a')
     = foldl offer (0%nat, registeredMetrics a) (metric_offers now il metric) ∧
     metricExpiration a' = metricExpiration a ∧
     store_ok a') ∧
  (∀ g, Data metric = DataGauge g → Gauge_DataPoints g = [ip] →
     accumulateGauge metric il now a
     = match Load signature a with
       | None =>
           Some (1%nat,
                 Store signature (mkAccumulatedValue (gaugeSnapshot metric ip) now il) a,
                 touched_metric metric)
       | Some mv =>
           if bool_decide (Timestamp ip < first_ts (value mv))
           then Some (0%nat, a, touched_metric metric)
           else Some (1%nat,
                      Store signature
                            (mkAccumulatedValue (gaugeSnapshot metric ip) now il) a,
                      touched_metric metric)
       end) ∧
  (∀ g (ip2 : NumberDataPoint),
     Data metric = DataGauge g → Gauge_DataPoints g = [ip; ip2] →
     Sort (Attributes ip2) = Sort (Attributes ip) →
     Timestamp ip2 = Timestamp ip →
     Load signature a = None →
     accumulateGauge metric il now a
     = Some (2%nat,
             Store signature (mkAccumulatedValue (gaugeSnapshot metric ip2) now il) a,
             touched_metric metric)).
Proof.
  intros Hkind Hok signature r store drop.
  assert (Hstore_ok : store_ok (Store signature
            (mkAccumulatedValue (gaugeSnapshot metric ip) now il) a)).
  { apply store_ok_Store; [done|]. apply entry_ok_signature; [by rewrite Hkind|done]. }
  assert (Hcases : r = store ∨ r = drop).
  { subst r. destruct (Load signature a) as [mv|] eqn:Hload.
    - destruct (accumulateGauge_body_Some _ _ now ip n _ _ Hok Hkind Hload) as (ts0 & _ & ->).
      case_bool_decide; auto.
    - left. by apply accumulateGauge_body_None. }
  split_and!.
  - intros Hload. by apply accumulateGauge_body_None.
  - intros mv Hload.
    destruct (accumulateGauge_body_Some _ _ now ip n _ _ Hok Hkind Hload) as (ts0 & Hts & Hr).
    exists ts0. split; [done|]. fold signature r store drop in Hr.
    pose proof (stored_neq_dropped signature (gaugeSnapshot metric ip) il now ip n a) as Hne.
    fold store drop in Hne.
    case_bool_decide as Hlt; rewrite Hr; split; split; try done; try lia;
      intros Heq; by symmetry in Heq.
  - intros ip2 now2 a1 Hr Hlabels Hts.
    assert (a1 = Store signature (mkAccumulatedValue (gaugeSnapshot metric ip) now il) a)
      as ->.
    { destruct Hcases as [Hs|Hd]; rewrite Hr in *.
      - unfold store, stored in Hs. by injection Hs.
      - unfold drop, dropped in Hd. injection Hd. lia. }
    assert (Hsig2 : (timeseriesSignature (il_Name il) metric (Attributes ip2)).1 = signature)
      by (by apply timeseriesSignature_Sort).
    destruct (accumulateGauge_body_Some metric il now2 ip2 (S n) _ _ Hstore_ok Hkind
                ltac:(rewrite Hsig2; apply Load_Store)) as (ts0 & Hts0 & ->).
    simpl in Hts0. injection Hts0 as <-.
    rewrite bool_decide_eq_false_2 by lia.
    rewrite Hsig2. unfold stored. rewrite Store_Store.
    eexists. split; [done|]. apply Load_Store.
  - unfold DataType in Hkind. destruct (Data metric) as [|g| | |] eqn:Hdata; try done.
    apply (accumulateGauge_offers now metric g il a Hdata Hok).
  - intros g Hdata Hdp.
    unfold accumulateGauge, Metric_Gauge, touched_metric. rewrite Hdata. simpl.
    rewrite Hdp. cbn [forDataPoints fmap list_fmap].
    destruct (Load signature a) as [mv|] eqn:Hload.
    + destruct (accumulateGauge_body_Some _ _ now ip 0%nat _ _ Hok Hkind Hload)
        as (ts0 & Hts0 & ->).
      rewrite (first_ts_singleton _ _ Hts0). by case_bool_decide.
    + by rewrite accumulateGauge_body_None.
  - intros g ip2 Hdata Hdp Hlabels Hts Hload.
    assert (Hsig2 : (timeseriesSignature (il_Name il) metric (Attributes ip2)).1 = signature)
      by (by apply timeseriesSignature_Sort).
    unfold accumulateGauge, Metric_Gauge, touched_metric. rewrite Hdata. simpl.
    rewrite Hdp. cbn [forDataPoints fmap list_fmap].
    rewrite accumulateGauge_body_None by done. unfold stored.
    cbn [mbind option_bind]. fold signature.
    destruct (accumulateGauge_body_Some metric il now ip2 1%nat _ _ Hstore_ok Hkind
                ltac:(rewrite Hsig2; apply Load_Store)) as (ts0 & Hts0 & ->).
    simpl in Hts0. injection Hts0 as <-.
    rewrite bool_decide_eq_false_2 by lia.
    rewrite Hsig2. unfold stored. rewrite Store_Store. done.
Qed.

(** C7. Summary merge policy. One iteration of [accumulateSummary] on a
    well-formed store: with an entry under the signature, the datapoint is
    dropped exactly when its timestamp is strictly earlier than that of the
    first datapoint of the stored snapshot; otherwise, and when there is no
    entry, it is stored as a fresh snapshot and counts for one. And
    [accumulateSummary] itself: it returns, hands the metric back with
    sorted labels, and its count and the store it leaves are those of this
    rule applied to the datapoints of the metric in order, from count 0; on
    a metric of one datapoint it returns count 0 and the store as it was
    when the datapoint is strictly earlier than the stored one, and
    otherwise count 1 and the store with the fresh snapshot. *)
Theorem accumulateSummary_merge_policy metric il now (ip : SummaryDataPoint) n a :
  DataType metric = MetricDataTypeSummary →
  store_ok a →
  let signature := (timeseriesSignature (il_Name il) metric (Attributes ip)).1 in
  let r := accumulateSummary_body metric il now ip n a in
  let store := stored signature (summarySnapshot metric ip) il now ip n a in
  let drop := dropped ip n a in
  (∀ mv, Load signature a = Some mv →
     ∃ ts0, Metric_Timestamps (value mv) !! 0%nat = Some ts0 ∧
            (r = drop ↔ Timestamp ip < ts0) ∧
            (r = store ↔ ¬ Timestamp ip < ts0)) ∧
  (Load signature a = None → r = store) ∧
  (∃ k a',
     accumulateSummary metric il now a = Some (k, a', touched_metric metric) ∧
     (k, registeredMetrics a')
     = foldl offer (0%nat, registeredMetrics a) (metric_offers now il metric) ∧
     metricExpiration a' = metricExpiration a ∧
     store_ok a') ∧
  (∀ s, Data metric = DataSummary s → Summary_DataPoints s = [ip] →
     accumulateSummary metric il now a
     = match Load signature a with
       | None =>
           Some (1%nat,
                 Store signature (mkAccumulatedValue (summarySnapshot metric ip) now il) a,
                 touched_metric metric)
       | Some mv =>
           if bool_decide (Timestamp ip < first_ts (value mv))
           then Some (0%nat, a, touched_metric metric)
           else Some (1%nat,
                      Store signature
                            (mkAccumulatedValue (summarySnapshot metric ip) now il) a,
                      touched_metric metric)
       end).
Proof.
  intros Hkind Hok signature r store drop. split_and!.
  - intros mv Hload.
    destruct (accumulateSummary_body_Some _ _ now ip n _ _ Hok Hkind Hload)
      as (ts0 & Hts & Hr).
    exists ts0. split; [by rewrite Hts|]. fold signature r store drop in Hr.
    pose proof (stored_neq_dropped signature (summarySnapshot metric ip) il now ip n a)
      as Hne.
    fold store drop in Hne.
    case_bool_decide as Hlt; rewrite Hr; split; split; try done; try lia;
      intros Heq; by symmetry in Heq.
  - intros Hload. by apply accumulateSummary_body_None.
  - unfold DataType in Hkind. destruct (Data metric) as [| | | |s] eqn:Hdata; try done.
    apply (accumulateSummary_offers now metric s il a Hdata Hok).
  - intros s Hdata Hdp.
    unfold accumulateSummary, Metric_Summary, touched_metric. rewrite Hdata. simpl.
    rewrite Hdp. cbn [forDataPoints fmap list_fmap].
    destruct (Load signature a) as [mv|] eqn:Hload.
    + destruct (accumulateSummary_body_Some _ _ now ip 0%nat _ _ Hok Hkind Hload)
        as (ts0 & Hts0 & ->).
      rewrite (first_ts_singleton _ _ Hts0). by case_bool_decide.
    + by rewrite accumulateSummary_body_None.
Qed.

(** C6. Sum snapshot fields. In one iteration of [accumulateSum] on a
    well-formed store, the first store for a signature and every
    replacement install the same snapshot, which carries the monotonic
    flag of the incoming metric and cumulative temporality; and after the
    whole of [accumulateSum], which returns, every entry of the store that
    was not there before has these two fields. *)
Theorem accumulateSum_snapshot_fields metric s il now a :
  Data metric = DataSum s →
  store_ok a →
  (∀ (ip : NumberDataPoint) n,
     let signature := (timeseriesSignature (il_Name il) metric (Attributes ip)).1 in
     let r := accumulateSum_body metric il now ip n a in
     let store :=
       stored signature (sumSnapshot metric (Sum_IsMonotonic s) ip) il now ip n a in
     Metric_Sum (sumSnapshot metric (Sum_IsMonotonic s) ip)
     = Some (mkSum AggregationTemporalityCumulative (Sum_IsMonotonic s) [sorted_point ip]) ∧
     (Load signature a = None → r = store) ∧
     (∀ mv, Load signature a = Some mv → r = store ∨ r = dropped ip n a)) ∧
  ∃ n a',
    accumulateSum metric il now a = Some (n, a', touched_metric metric) ∧
    ∀ k v, registeredMetrics a' !! k = Some v →
           registeredMetrics a !! k = Some v ∨ sum_fields (Sum_IsMonotonic s) v.
Proof.
  intros Hdata Hok. split.
  - intros ip n signature r store. split_and!; [done| |].
    + intros Hload. by apply (accumulateSum_body_None _ s).
    + intros mv Hload.
      destruct (accumulateSum_body_Some _ _ _ now ip n _ _ Hok Hdata Hload) as (ts0 & _ & Hr).
      fold signature r store in Hr. rewrite Hr. case_bool_decide; auto.
  - destruct (accumulateSum_inv (sum_fields (Sum_IsMonotonic s)) metric s il now a Hdata)
      as (n & a' & Hr & _ & _ & _ & Hsub); [|done|by eauto].
    intros ip. by eexists.
Qed.

(** C5, as the code has it. When no entry exists under the signature,
    one iteration of [accumulateDoubleHistogram] stores a snapshot whose
    temporality is the one [createMetric] left, [Unspecified], and not
    cumulative; only a replacing store sets it to cumulative. *)
Theorem accumulateDoubleHistogram_first_store_temporality
    metric il now (ip : HistogramDataPoint) n a :
  DataType metric = MetricDataTypeHistogram →
  store_ok a →
  let signature := (timeseriesSignature (il_Name il) metric (Attributes ip)).1 in
  let r := accumulateDoubleHistogram_body metric il now ip n a in
  (Load signature a = None →
   ∃ m, r = stored signature m il now ip n a ∧
        Metric_Histogram m
        = Some (mkHistogram AggregationTemporalityUnspecified [sorted_point ip])) ∧
  (∀ mv, Load signature a = Some mv →
     r = dropped ip n a ∨
     ∃ m, r = stored signature m il now ip n a ∧
          Metric_Histogram m
          = Some (mkHistogram AggregationTemporalityCumulative [sorted_point ip])).
Proof.
  intros Hkind Hok signature r. split.
  - intros Hload. eexists. split; [by apply accumulateDoubleHistogram_body_None|done].
  - intros mv Hload.
    destruct (accumulateDoubleHistogram_body_Some _ _ now ip n _ _ Hok Hkind Hload)
      as (ts0 & _ & Hr).
    fold signature r in Hr. rewrite Hr. case_bool_decide; [by left|right]. by eexists.
Qed.

Lemma addMetric_nonCumulative metric il now a :
  nonCumulative metric → addMetric metric il now a = Some (0%nat, a, metric).
Proof.
  unfold nonCumulative, addMetric, DataType.
  destruct (Data metric) as [|g|s|h|s] eqn:Hdata; try done; intros Hnc.
  - unfold accumulateSum, Metric_Sum. rewrite Hdata. simpl. by rewrite decide_True.
  - unfold accumulateDoubleHistogram, Metric_Histogram. rewrite Hdata. simpl.
    by rewrite decide_True.
Qed.

Lemma Accumulate_metrics_withoutNonCumulative il now metrics n a :
  count_and_store <$> Accumulate_metrics il now metrics n a
  = count_and_store
      <$> Accumulate_metrics il now (filter (λ m, ¬ nonCumulative m) metrics) n a.
Proof.
  revert n a. induction metrics as [|metric metrics IH]; intros n a; [done|].
  rewrite filter_cons. destruct (decide (¬ nonCumulative metric)) as [Hc|Hnc].
  - simpl. destruct (addMetric metric il now a) as [[[k a1] metric']|]; [|done]. simpl.
    specialize (IH (n + k)%nat a1).
    destruct (Accumulate_metrics il now metrics (n + k) a1) as [[[n1 a2] ms1]|],
      (Accumulate_metrics il now (filter _ metrics) (n + k) a1) as [[[n2 a3] ms2]|];
      simpl in *; try done.
  - apply dec_stable in Hnc. simpl. rewrite addMetric_nonCumulative by done. simpl.
    rewrite Nat.add_0_r. rewrite <- IH.
    by destruct (Accumulate_metrics il now metrics n a) as [[[n1 a2] ms1]|].
Qed.

Lemma Accumulate_ilms_withoutNonCumulative now ilms n a :
  count_and_store <$> Accumulate_ilms now ilms n a
  = count_and_store
      <$> Accumulate_ilms now
            ((λ ilm, mkInstrumentationLibraryMetrics
                       (ilm_InstrumentationLibrary ilm)
                       (filter (λ m, ¬ nonCumulative m) (ilm_Metrics ilm))) <$> ilms) n a.
Proof.
  revert n a. induction ilms as [|ilm ilms IH]; intros n a; [done|].
  rewrite fmap_cons. simpl.
  pose proof (Accumulate_metrics_withoutNonCumulative
                (ilm_InstrumentationLibrary ilm) now (ilm_Metrics ilm) n a) as Hm.
  destruct (Accumulate_metrics _ now (ilm_Metrics ilm) n a) as [[[n1 a1] ms1]|],
    (Accumulate_metrics _ now (filter _ (ilm_Metrics ilm)) n a) as [[[n2 a2] ms2]|];
    simpl in *; try done.
  injection Hm as <- <-. simpl. specialize (IH n1 a1).
  destruct (Accumulate_ilms now ilms n1 a1) as [[[n3 a3] r3]|],
    (Accumulate_ilms now (_ <$> ilms) n1 a1) as [[[n4 a4] r4]|]; simpl in *; try done.
Qed.

(** C4. Non-cumulative gate. A Sum or Histogram metric whose declared
    temporality is not cumulative is answered with a count of 0 whatever
    datapoints it carries, and store and batch are left as they were; so a
    batch counts and stores exactly what it would without such metrics
    (whence every later [Collect] is as if they had never been sent), and
    what [Collect] returns right after such a metric is what it would have
    returned before. *)
Theorem nonCumulative_rejected metric il now a :
  nonCumulative metric →
  addMetric metric il now a = Some (0%nat, a, metric) ∧
  (∀ n a' metric' now' order,
     addMetric metric il now a = Some (n, a', metric') →
     Collect now' order a' = Collect now' order a) ∧
  (∀ rm now',
     count_and_store <$> Accumulate now' rm a
     = count_and_store <$> Accumulate now' (withoutNonCumulative rm) a).
Proof.
  intros Hnc. split_and!.
  - by apply addMetric_nonCumulative.
  - intros n a' metric' now' order. rewrite addMetric_nonCumulative by done.
    by intros [= _ <- _].
  - intros rm now'. unfold Accumulate, withoutNonCumulative. simpl.
    pose proof (Accumulate_ilms_withoutNonCumulative now'
                  (rm_InstrumentationLibraryMetrics rm) 0%nat a) as Hi.
    destruct (Accumulate_ilms now' (rm_InstrumentationLibraryMetrics rm) 0 a)
      as [[[n1 a1] r1]|],
      (Accumulate_ilms now' (_ <$> rm_InstrumentationLibraryMetrics rm) 0 a)
      as [[[n2 a2] r2]|]; simpl in *; try done.
Qed.

Lemma addMetric_each_app now ms1 ms2 a :
  addMetric_each now (ms1 ++ ms2) a
  = '(ks1, a1) ← addMetric_each now ms1 a;
    '(ks2, a2) ← addMetric_each now ms2 a1;
    Some (ks1 ++ ks2, a2).
Proof.
  revert a. induction ms1 as [|[il metric] ms1 IH]; intros a; simpl.
  - by destruct (addMetric_each now ms2 a) as [[ks2 a2]|].
  - destruct (addMetric metric il now a) as [[[k a1] metric']|]; [|done]. simpl.
    rewrite IH. destruct (addMetric_each now ms1 a1) as [[ks1 a2]|]; [|done]. simpl.
    by destruct (addMetric_each now ms2 a2) as [[ks2 a3]|].
Qed.

Lemma sum_list_app (ks1 ks2 : list nat) :
  sum_list (ks1 ++ ks2) = (sum_list ks1 + sum_list ks2)%nat.
Proof. induction ks1 as [|k ks1 IH]; simpl; [done|]. rewrite IH. lia. Qed.

Lemma Accumulate_metrics_each il now metrics n a :
  count_and_store <$> Accumulate_metrics il now metrics n a
  = (λ r, ((n + sum_list r.1)%nat, r.2)) <$> addMetric_each now (pair il <$> metrics) a.
Proof.
  revert n a. induction metrics as [|metric metrics IH]; intros n a; simpl.
  - unfold count_and_store. simpl. by rewrite Nat.add_0_r.
  - destruct (addMetric metric il now a) as [[[k a1] metric']|]; [|done]. simpl.
    specialize (IH (n + k)%nat a1). simpl in IH.
    destruct (Accumulate_metrics il now metrics (n + k) a1) as [[[n1 a2] ms1]|],
      (addMetric_each now _ a1) as [[ks a3]|];
      simpl in *; try done.
    unfold count_and_store in *. simpl in *. injection IH as -> ->. f_equal. f_equal. lia.
Qed.

Lemma Accumulate_ilms_each now ilms n a :
  count_and_store <$> Accumulate_ilms now ilms n a
  = (λ r, ((n + sum_list r.1)%nat, r.2))
      <$> addMetric_each now
            (ilm ← ilms; pair (ilm_InstrumentationLibrary ilm) <$> ilm_Metrics ilm) a.
Proof.
  revert n a. induction ilms as [|ilm ilms IH]; intros n a.
  - simpl. unfold count_and_store. simpl. by rewrite Nat.add_0_r.
  - rewrite bind_cons, addMetric_each_app. simpl.
    pose proof (Accumulate_metrics_each (ilm_InstrumentationLibrary ilm) now
                  (ilm_Metrics ilm) n a) as Hm.
    simpl in Hm.
    destruct (Accumulate_metrics _ now (ilm_Metrics ilm) n a) as [[[n1 a1] ms1]|],
      (addMetric_each now _ a) as [[ks1 a2]|];
      simpl in *; try done.
    unfold count_and_store in Hm. simpl in Hm. injection Hm as -> ->.
    specialize (IH (n + sum_list ks1)%nat a2). simpl in IH.
    destruct (Accumulate_ilms now ilms (n + sum_list ks1) a2) as [[[n3 a3] r3]|],
      (addMetric_each now _ a2) as [[ks2 a4]|]; simpl in *; try done.
    unfold count_and_store in *. simpl in *. injection IH as -> ->.
    rewrite sum_list_app. f_equal. f_equal. lia.
Qed.

(** C8. Accumulate aggregation and unsupported kinds. [Accumulate]
    counts and stores what handing every metric of every scope of the
    batch, in order, to [addMetric] counts and stores, the count being the
    sum of the per-metric counts; [addMetric] runs the policy of the kind of
    the metric; a metric of no supported kind counts for 0 and leaves the
    store as it was, without failing; and on a well-formed store the call
    returns. *)
Theorem Accumulate_sums_counts now rm a :
  count_and_store <$> Accumulate now rm a
  = (λ r, (sum_list r.1, r.2)) <$> addMetric_each now (batch_metrics rm) a ∧
  (∀ metric il,
     (DataType metric = MetricDataTypeGauge →
      addMetric metric il now a = accumulateGauge metric il now a) ∧
     (DataType metric = MetricDataTypeSum →
      addMetric metric il now a = accumulateSum metric il now a) ∧
     (DataType metric = MetricDataTypeHistogram →
      addMetric metric il now a = accumulateDoubleHistogram metric il now a) ∧
     (DataType metric = MetricDataTypeSummary →
      addMetric metric il now a = accumulateSummary metric il now a) ∧
     (DataType metric ∉ [MetricDataTypeGauge; MetricDataTypeSum;
                         MetricDataTypeHistogram; MetricDataTypeSummary] →
      addMetric metric il now a = Some (0%nat, a, metric))) ∧
  (store_ok a → is_Some (Accumulate now rm a)).
Proof.
  split_and!.
  - unfold Accumulate, batch_metrics.
    pose proof (Accumulate_ilms_each now (rm_InstrumentationLibraryMetrics rm) 0%nat a) as Hi.
    destruct (Accumulate_ilms now (rm_InstrumentationLibraryMetrics rm) 0 a)
      as [[[n1 a1] r1]|],
      (addMetric_each now _ a) as [[ks a2]|];
      simpl in *; try done.
  - intros metric il. unfold addMetric.
    split_and!; try (by intros ->).
    intros Hnot. destruct (DataType metric); try done; exfalso; apply Hnot;
      repeat (apply list_elem_of_here || apply list_elem_of_further).
  - intros Hok. destruct (Accumulate_inv now rm a Hok) as (n & a' & -> & _). by eexists.
Qed.

Lemma sorted_point_id {V} (ip : DataPoint V) :
  StronglySorted key_le (Attributes ip) → sorted_point ip = ip.
Proof.
  intros Hs. unfold sorted_point, SetAttributes. rewrite Sort_sorted_id by done.
  by destruct ip.
Qed.

Lemma sorted_points_id {V} (dps : list (DataPoint V)) :
  Forall (StronglySorted key_le) (Attributes <$> dps) → sorted_point <$> dps = dps.
Proof.
  intros Hall. rewrite <- (list_fmap_id dps) at 2. apply Forall_fmap_ext.
  rewrite Forall_fmap in Hall. eapply Forall_impl; [exact Hall|].
  intros ip Hip. by apply sorted_point_id.
Qed.

Lemma touched_metric_id (metric : Metric) :
  Forall (StronglySorted key_le) (Metric_AttributeMaps metric) →
  touched_metric metric = metric.
Proof.
  unfold Metric_AttributeMaps, touched_metric. destruct metric as [nm d u data].
  destruct data as [|[dps]|[t b dps]|[t dps]|[dps]]; simpl; intros Hall;
    try case_decide; try done; unfold SetData; simpl; by rewrite sorted_points_id.
Qed.

Lemma touched_batch_id (rm : ResourceMetrics) :
  batch_labels_sorted rm → touched_batch rm = rm.
Proof.
  unfold batch_labels_sorted, touched_batch. destruct rm as [ilms]. simpl. intros Hall.
  f_equal. rewrite <- (list_fmap_id ilms) at 2. apply Forall_fmap_ext.
  eapply Forall_impl; [exact Hall|]. intros [il metrics] Hm. simpl in *.
  unfold touched_ilm. simpl. f_equal.
  rewrite <- (list_fmap_id metrics) at 2. apply Forall_fmap_ext.
  eapply Forall_impl; [exact Hm|]. intros m. apply touched_metric_id.
Qed.

(** C9, amended. On a well-formed store [Accumulate] returns and leaves
    the batch as [touched_batch] describes it: nothing is changed but the
    order of the labels of the datapoints a signature is computed for (all
    those of Gauge and Summary metrics and of cumulative Sum and Histogram
    metrics), which [Sort] puts in key order in place. The labels
    themselves, the timestamp and the payload of such a datapoint are kept,
    and a batch whose label sets are in key order already is left exactly
    as it was. *)
Theorem Accumulate_batch_effect now rm a :
  store_ok a →
  (∃ n a', Accumulate now rm a = Some (n, a', touched_batch rm)) ∧
  (∀ V (ip : DataPoint V),
     Attributes (sorted_point ip) = Sort (Attributes ip) ∧
     Attributes (sorted_point ip) ≡ₚ Attributes ip ∧
     Timestamp (sorted_point ip) = Timestamp ip ∧
     Payload (sorted_point ip) = Payload ip) ∧
  (batch_labels_sorted rm → touched_batch rm = rm).
Proof.
  intros Hok. split_and!.
  - destruct (Accumulate_inv now rm a Hok) as (n & a' & Hr & _). eauto.
  - intros V ip. split_and!; try done. apply Sort_perm.
  - apply touched_batch_id.
Qed.

Lemma reachable_store_ok a : reachable a → store_ok a.
Proof.
  induction 1 as [exp|now rm a n a' rm' _ IH Hacc|now order a _ IH Horder].
  - apply store_ok_new.
  - destruct (Accumulate_inv now rm a IH) as (n1 & a1 & Hr & Hok1 & _).
    rewrite Hr in Hacc. by injection Hacc as _ <- _.
  - by apply store_ok_Collect.
Qed.

Lemma store_ok_first_point_read ilmName (metric : Metric) (l : AttributeMap) a mv :
  store_ok a →
  Load (timeseriesSignature ilmName metric l).1 a = Some mv →
  first_point_read (DataType metric) (value mv).
Proof.
  intros Hok Hload. destruct (DataType metric) eqn:Hkind; simpl; [done|..].
  - destruct (stored_gauge _ _ _ _ _ Hok Hkind Hload) as (dp0 & Hd).
    unfold Metric_Gauge. rewrite Hd. by eexists.
  - destruct (stored_sum _ _ _ _ _ Hok Hkind Hload) as (t & b & dp0 & Hd).
    unfold Metric_Sum. rewrite Hd. by eexists.
  - destruct (stored_histogram _ _ _ _ _ Hok Hkind Hload) as (t & dp0 & Hd).
    unfold Metric_Histogram. rewrite Hd. by eexists.
  - destruct (stored_summary _ _ _ _ _ Hok Hkind Hload) as (dp0 & Hd).
    unfold Metric_Summary. rewrite Hd. by eexists.
Qed.

(** C10. Store single-datapoint invariant. In every state an accumulator
    reaches from [newAccumulator] through [Accumulate] and [Collect], each
    entry of the store (one per signature, the store being a map) holds a
    metric with exactly one datapoint; hence whenever a lookup under the
    signature of a metric succeeds, the read of the first stored datapoint
    the policy of its kind makes is in bounds, and [Accumulate] returns
    without a panic on every batch. *)
Theorem store_single_datapoint a :
  reachable a →
  (∀ signature v, registeredMetrics a !! signature = Some v →
                  Metric_numDataPoints (value v) = 1%nat) ∧
  (∀ ilmName (metric : Metric) (l : AttributeMap) mv,
     Load (timeseriesSignature ilmName metric l).1 a = Some mv →
     first_point_read (DataType metric) (value mv)) ∧
  (∀ now rm, ∃ n a', Accumulate now rm a = Some (n, a', touched_batch rm) ∧ reachable a').
Proof.
  intros Hreach. pose proof (reachable_store_ok a Hreach) as Hok. split_and!.
  - intros k v Hkv. by destruct (Hok k v Hkv).
  - intros ilmName metric l mv. by apply store_ok_first_point_read.
  - intros now rm. destruct (Accumulate_inv now rm a Hok) as (n & a' & Hr & _).
    exists n, a'. split; [done|]. by eapply reachable_Accumulate.
Qed.

Lemma lastValueAccumulator_eq (a1 a2 : lastValueAccumulator) :
  registeredMetrics a1 = registeredMetrics a2 →
  metricExpiration a1 = metricExpiration a2 → a1 = a2.
Proof. destruct a1, a2. simpl. by intros -> ->. Qed.

(** C3. Collect semantics. With the boundary [now - metricExpiration],
    and whatever the order the store is enumerated in: the result lists,
    in that order, the metric of every entry not last updated strictly
    before the boundary; the store afterwards is the store without the
    other entries, which are deleted; the result is thus made of the
    metrics of exactly the entries that stay, each with one datapoint when
    the store is well formed. A second [Collect] leaves every entry the
    first one evicted out of the store and out of what it enumerates, and
    when no remaining entry has passed its expiration at the second call,
    it returns the same snapshots as the first, up to order, and leaves the
    accumulator as it is. *)
Theorem Collect_semantics now order a :
  Range_order a order →
  let boundary := now - metricExpiration a in
  let res := (Collect now order a).1 in
  let a' := (Collect now order a).2 in
  res = value ∘ snd <$> filter (λ e, ¬ updated e.2 < boundary) order ∧
  registeredMetrics a'
  = filter (λ e, ¬ updated e.2 < boundary) (registeredMetrics a) ∧
  metricExpiration a' = metricExpiration a ∧
  (∀ k v, registeredMetrics a !! k = Some v →
     if decide (updated v < boundary)
     then registeredMetrics a' !! k = None
     else registeredMetrics a' !! k = Some v ∧ value v ∈ res) ∧
  res ≡ₚ value ∘ snd <$> map_to_list (registeredMetrics a') ∧
  (store_ok a → Forall (λ m, Metric_numDataPoints m = 1%nat) res) ∧
  (∀ now2 order2,
     Range_order a' order2 →
     let res2 := (Collect now2 order2 a').1 in
     let a2 := (Collect now2 order2 a').2 in
     (∀ k v, registeredMetrics a !! k = Some v → updated v < boundary →
             (k ∉ order2.*1) ∧ registeredMetrics a2 !! k = None) ∧
     ((∀ k v, registeredMetrics a' !! k = Some v →
              ¬ updated v < now2 - metricExpiration a') →
      res2 ≡ₚ res ∧ a2 = a')).
Proof.
  intros Horder boundary res a'.
  assert (Hstore : registeredMetrics a' = filter (live boundary) (registeredMetrics a))
    by (by apply Collect_store).
  assert (Hres : res = value ∘ snd <$> filter (live boundary) order)
    by apply Collect_result.
  assert (Hperm : res ≡ₚ value ∘ snd <$> map_to_list (registeredMetrics a'))
    by (by apply Collect_result_store).
  assert (Hevict : ∀ k v, registeredMetrics a !! k = Some v → updated v < boundary →
                          registeredMetrics a' !! k = None).
  { intros k v Hk Hexp. rewrite Hstore. apply map_lookup_filter_None. right.
    intros v' Hv'. assert (v' = v) as -> by congruence. unfold live. simpl. lia. }
  split_and!; try done.
  - apply Collect_expiration.
  - intros k v Hk. case_decide as Hexp; [by eapply Hevict|].
    assert (Hk' : registeredMetrics a' !! k = Some v)
      by (rewrite Hstore; by apply map_lookup_filter_Some).
    split; [done|]. rewrite Hperm.
    apply list_elem_of_fmap. exists (k, v). split; [done|]. by apply elem_of_map_to_list.
  - intros Hok. rewrite Hperm, Forall_fmap, Forall_forall. intros [k v] Hkv.
    apply elem_of_map_to_list in Hkv. rewrite Hstore in Hkv.
    apply map_lookup_filter_Some in Hkv as [Hkv _]. simpl. by destruct (Hok k v Hkv).
  - intros now2 order2 Horder2 res2 a2. split.
    + intros k v Hk Hexp. pose proof (Hevict k v Hk Hexp) as Hnone. split.
      * unfold Range_order in Horder2. rewrite Horder2.
        intros ([k' v'] & -> & Hin)%list_elem_of_fmap.
        apply elem_of_map_to_list in Hin. simpl in *. congruence.
      * unfold a2. rewrite Collect_store by done.
        apply map_lookup_filter_None. by left.
    + intros Hlive.
      assert (Hid : registeredMetrics a2 = registeredMetrics a').
      { unfold a2. rewrite Collect_store by done. apply map_filter_id.
        intros k v Hkv. exact (Hlive k v Hkv). }
      split.
      * unfold res2. rewrite Collect_result_store by done. fold a2. by rewrite Hid, Hperm.
      * apply lastValueAccumulator_eq; [done|]. apply Collect_expiration.
Qed.

(** C2, amended. (a) For a label set, that is with no key twice, the
    signature does not depend on the order of the key/value pairs.
    (b) Inputs of different kinds always have different signatures.
    (c) When the scope names, the metric names, the label keys and the
    rendered label values hold no [*], and distinct label values that occur
    are rendered differently, inputs that differ in kind, scope name,
    metric name or labels have different signatures. *)
Theorem timeseriesSignature_identity ilmName ilmName' (m m' : Metric)
    (l l' : AttributeMap) :
  (NoDup l.*1 → l ≡ₚ l' →
   (timeseriesSignature ilmName m l).1 = (timeseriesSignature ilmName m l').1) ∧
  (DataType m ≠ DataType m' →
   (timeseriesSignature ilmName m l).1 ≠ (timeseriesSignature ilmName' m' l').1) ∧
  (star_free ilmName = true → star_free ilmName' = true →
   star_free (Name m) = true → star_free (Name m') = true →
   Forall (λ e, star_free e.1 = true ∧ star_free (AttributeValueToString e.2) = true) l →
   Forall (λ e, star_free e.1 = true ∧ star_free (AttributeValueToString e.2) = true) l' →
   (∀ v v', v ∈ l.*2 → v' ∈ l'.*2 →
            AttributeValueToString v = AttributeValueToString v' → v = v') →
   DataType m ≠ DataType m' ∨ ilmName ≠ ilmName' ∨ Name m ≠ Name m' ∨ ¬ l ≡ₚ l' →
   (timeseriesSignature ilmName m l).1 ≠ (timeseriesSignature ilmName' m' l').1).
Proof.
  split_and!.
  - intros Hnd Hperm. apply timeseriesSignature_Sort.
    by apply Sort_permutation_invariant.
  - intros Hkind Heq. by apply timeseriesSignature_kind in Heq.
  - intros Hi Hi' Hn Hn' Hl Hl' Hinj Hdiff Heq.
    destruct (timeseriesSignature_inj _ _ _ _ _ _ Hi Hi' Hn Hn' Hl Hl' Hinj Heq)
      as (? & ? & ? & ?).
    tauto.
Qed.

End Claims.

(** ** The claims on sample inputs *)

Section Witnesses.
#[local] Existing Instance sample_pdata.

Lemma store_ok_sample_accumulator : store_ok sample_accumulator.
Proof.
  apply store_ok_Store; [apply store_ok_new|].
  by apply entry_ok_signature.
Qed.

Lemma store_ok_sample_summary_accumulator : store_ok sample_summary_accumulator.
Proof.
  apply store_ok_Store; [apply store_ok_new|].
  by apply entry_ok_signature.
Qed.

(** Gauge points (ts = 100, value = 10), (ts = 50, value = 5) and
    (ts = 200, value = 20) in three batches: the second is dropped, and
    [Collect] then returns the third. *)
Example gauge_last_write :
  ('(n1, a1, _) ← Accumulate 1 (sample_batch [sample_gauge [sample_point 100 10]])
                   (newAccumulator 60);
  '(n2, a2, _) ← Accumulate 2 (sample_batch [sample_gauge [sample_point 50 5]]) a1;
  '(n3, a3, _) ← Accumulate 3 (sample_batch [sample_gauge [sample_point 200 20]]) a2;
   Some (n1, n2, n3, (Collect 4 (map_to_list (registeredMetrics a3)) a3).1))
  = Some (1%nat, 0%nat, 1%nat,
          [sample_gauge [mkDataPoint [("dc", "b"); ("host", "a")] 200 20]]).
Proof. vm_compute. reflexivity. Qed.

(** Gauge (ts = 100, value = 10) into the empty store, then (ts = 100,
    value = 99) with the same labels: the store holds the second. Both in
    one metric: [accumulateGauge] counts two and leaves the second. Against
    the stored point (ts = 100), [accumulateGauge] drops the point (ts = 50)
    and counts nothing, and stores the point (ts = 200) and counts one. *)
Lemma accumulateGauge_merge_policy_witness :
  accumulateGauge_body (sample_gauge []) sample_il 7 (sample_point 100 10) 0
                       (newAccumulator 60)
  = Some (1%nat, sample_accumulator, sorted_point (sample_point 100 10)) ∧
  (∃ a2,
    accumulateGauge_body (sample_gauge []) sample_il 8 (sample_point 100 99) 1
                         sample_accumulator
    = Some (2%nat, a2, sorted_point (sample_point 100 99)) ∧
    Load "Gauge*scope*temperature*dc*b*host*a" a2
    = Some (mkAccumulatedValue (gaugeSnapshot (sample_gauge []) (sample_point 100 99))
                               8 sample_il)) ∧
  accumulateGauge (sample_gauge [sample_point 100 10; sample_point 100 99]) sample_il 7
                  (newAccumulator 60)
  = Some (2%nat,
          Store "Gauge*scope*temperature*dc*b*host*a"
                (mkAccumulatedValue (gaugeSnapshot (sample_gauge []) (sample_point 100 99))
                                    7 sample_il)
                (newAccumulator 60),
          sample_gauge [sorted_point (sample_point 100 10);
                        sorted_point (sample_point 100 99)]) ∧
  accumulateGauge (sample_gauge [sample_point 50 5]) sample_il 8 sample_accumulator
  = Some (0%nat, sample_accumulator, sample_gauge [sorted_point (sample_point 50 5)]) ∧
  accumulateGauge (sample_gauge [sample_point 200 20]) sample_il 8 sample_accumulator
  = Some (1%nat,
          Store "Gauge*scope*temperature*dc*b*host*a"
                (mkAccumulatedValue (gaugeSnapshot (sample_gauge []) (sample_point 200 20))
                                    8 sample_il)
                sample_accumulator,
          sample_gauge [sorted_point (sample_point 200 20)]).
Proof.
  destruct (accumulateGauge_merge_policy (sample_gauge []) sample_il 7
              (sample_point 100 10) 0%nat (newAccumulator 60)
              eq_refl (store_ok_new 60)) as (Hfirst & _ & Hequal & _).
  destruct (accumulateGauge_merge_policy
              (sample_gauge [sample_point 100 10; sample_point 100 99]) sample_il 7
              (sample_point 100 10) 0%nat (newAccumulator 60)
              eq_refl (store_ok_new 60)) as (_ & _ & _ & _ & _ & Htwo).
  destruct (accumulateGauge_merge_policy (sample_gauge [sample_point 50 5]) sample_il 8
              (sample_point 50 5) 0%nat sample_accumulator
              eq_refl store_ok_sample_accumulator) as (_ & _ & _ & _ & Hdrop & _).
  destruct (accumulateGauge_merge_policy (sample_gauge [sample_point 200 20]) sample_il 8
              (sample_point 200 20) 0%nat sample_accumulator
              eq_refl store_ok_sample_accumulator) as (_ & _ & _ & _ & Hstore & _).
  split_and!.
  - apply Hfirst. reflexivity.
  - apply (Hequal (sample_point 100 99) 8 sample_accumulator).
    + apply Hfirst. reflexivity.
    + reflexivity.
    + reflexivity.
  - etrans; [by apply (Htwo _ (sample_point 100 99) eq_refl)|reflexivity].
  - etrans; [by apply (Hdrop _ eq_refl)|vm_compute; reflexivity].
  - etrans; [by apply (Hstore _ eq_refl)|vm_compute; reflexivity].
Defined.

(** A summary point with ts = 50 against a stored one with ts = 100, and
    into the empty store; then the same through [accumulateSummary], which
    counts nothing in the first case and one in the second. *)
Lemma accumulateSummary_merge_policy_witness :
  accumulateSummary_body (sample_summary []) sample_il 8
                         (mkDataPoint sample_labels 50 [3; 4]) 0 sample_summary_accumulator
  = dropped (mkDataPoint sample_labels 50 [3; 4]) 0 sample_summary_accumulator ∧
  accumulateSummary_body (sample_summary []) sample_il 8
                         (mkDataPoint sample_labels 50 [3; 4]) 0 (newAccumulator 60)
  = stored "Summary*scope*latency_q*dc*b*host*a"
           (summarySnapshot (sample_summary []) (mkDataPoint sample_labels 50 [3; 4]))
           sample_il 8 (mkDataPoint sample_labels 50 [3; 4]) 0 (newAccumulator 60) ∧
  accumulateSummary (sample_summary [mkDataPoint sample_labels 50 [3; 4]]) sample_il 8
                    sample_summary_accumulator
  = Some (0%nat, sample_summary_accumulator,
          sample_summary [sorted_point (mkDataPoint sample_labels 50 [3; 4])]) ∧
  accumulateSummary (sample_summary [mkDataPoint sample_labels 50 [3; 4]]) sample_il 8
                    (newAccumulator 60)
  = Some (1%nat,
          Store "Summary*scope*latency_q*dc*b*host*a"
                (mkAccumulatedValue
                   (summarySnapshot (sample_summary [])
                                    (mkDataPoint sample_labels 50 [3; 4]))
                   8 sample_il)
                (newAccumulator 60),
          sample_summary [sorted_point (mkDataPoint sample_labels 50 [3; 4])]).
Proof.
  split_and!.
  - destruct (accumulateSummary_merge_policy (sample_summary []) sample_il 8
                (mkDataPoint sample_labels 50 [3; 4]) 0%nat sample_summary_accumulator
                eq_refl store_ok_sample_summary_accumulator) as (Hsome & _).
    destruct (Hsome _ eq_refl) as (ts0 & Hts0 & Hdrop & _).
    apply Hdrop. vm_compute in Hts0. injection Hts0 as <-. reflexivity.
  - destruct (accumulateSummary_merge_policy (sample_summary []) sample_il 8
                (mkDataPoint sample_labels 50 [3; 4]) 0%nat (newAccumulator 60)
                eq_refl (store_ok_new 60)) as (_ & Hnone & _).
    apply Hnone. reflexivity.
  - destruct (accumulateSummary_merge_policy
                (sample_summary [mkDataPoint sample_labels 50 [3; 4]]) sample_il 8
                (mkDataPoint sample_labels 50 [3; 4]) 0%nat sample_summary_accumulator
                eq_refl store_ok_sample_summary_accumulator) as (_ & _ & _ & Hone).
    etrans; [by apply (Hone _ eq_refl)|vm_compute; reflexivity].
  - destruct (accumulateSummary_merge_policy
                (sample_summary [mkDataPoint sample_labels 50 [3; 4]]) sample_il 8
                (mkDataPoint sample_labels 50 [3; 4]) 0%nat (newAccumulator 60)
                eq_refl (store_ok_new 60)) as (_ & _ & _ & Hone).
    etrans; [by apply (Hone _ eq_refl)|vm_compute; reflexivity].
Defined.

Lemma accumulateSum_snapshot_fields_witness :
  ∃ n a',
    accumulateSum (sample_sum AggregationTemporalityCumulative
                              [sample_point 1 10; sample_point 2 20])
                  sample_il 7 (newAccumulator 60)
    = Some (n, a',
            touched_metric (sample_sum AggregationTemporalityCumulative
                                       [sample_point 1 10; sample_point 2 20])) ∧
    ∀ k v, registeredMetrics a' !! k = Some v →
           registeredMetrics (newAccumulator 60) !! k = Some v ∨ sum_fields true v.
Proof.
  exact (proj2 (accumulateSum_snapshot_fields
                  (sample_sum AggregationTemporalityCumulative
                              [sample_point 1 10; sample_point 2 20])
                  _ sample_il 7 (newAccumulator 60) eq_refl (store_ok_new 60))).
Defined.

(** A cumulative histogram into the empty store. *)
Lemma accumulateDoubleHistogram_first_store_temporality_witness :
  ∃ m,
    accumulateDoubleHistogram_body
      (sample_histogram AggregationTemporalityCumulative []) sample_il 7
      (mkDataPoint sample_labels 3 [1; 2]) 0 (newAccumulator 60)
    = stored "Histogram*scope*latency*dc*b*host*a" m sample_il 7
             (mkDataPoint sample_labels 3 [1; 2]) 0 (newAccumulator 60) ∧
    Metric_Histogram m
    = Some (mkHistogram AggregationTemporalityUnspecified
                        [sorted_point (mkDataPoint sample_labels 3 [1; 2])]).
Proof.
  apply (accumulateDoubleHistogram_first_store_temporality
           (sample_histogram AggregationTemporalityCumulative []) sample_il 7
           (mkDataPoint sample_labels 3 [1; 2]) 0%nat (newAccumulator 60)
           eq_refl (store_ok_new 60)).
  reflexivity.
Defined.

(** The same through [Accumulate]: the snapshot the store then holds is
    not cumulative. *)
Example Accumulate_histogram_first_store :
  (λ r, (r.1.1,
         Histogram_AggregationTemporality
           <$> (registeredMetrics r.1.2 !! "Histogram*scope*latency*dc*b*host*a"
                ≫= Metric_Histogram ∘ value)))
    <$> Accumulate 7
          (sample_batch [sample_histogram AggregationTemporalityCumulative
                                          [mkDataPoint sample_labels 3 [1; 2]]])
          (newAccumulator 60)
  = Some (1%nat, Some AggregationTemporalityUnspecified).
Proof. vm_compute. reflexivity. Qed.

(** A delta Sum with three datapoints. *)
Lemma nonCumulative_rejected_witness :
  addMetric (sample_sum AggregationTemporalityDelta
                        [sample_point 1 10; sample_point 2 20; sample_point 3 30])
            sample_il 7 sample_accumulator
  = Some (0%nat, sample_accumulator,
          sample_sum AggregationTemporalityDelta
                     [sample_point 1 10; sample_point 2 20; sample_point 3 30]).
Proof.
  apply (nonCumulative_rejected
           (sample_sum AggregationTemporalityDelta
                       [sample_point 1 10; sample_point 2 20; sample_point 3 30])
           sample_il 7 sample_accumulator).
  simpl. discriminate.
Defined.

Lemma Accumulate_sums_counts_witness :
  addMetric sample_untyped sample_il 7 sample_accumulator
  = Some (0%nat, sample_accumulator, sample_untyped) ∧
  is_Some (Accumulate 7 (sample_batch [sample_untyped; sample_gauge [sample_point 200 20]])
                      sample_accumulator).
Proof.
  destruct (Accumulate_sums_counts 7
              (sample_batch [sample_untyped; sample_gauge [sample_point 200 20]])
              sample_accumulator) as (_ & Hdispatch & Hreturns).
  split.
  - destruct (Hdispatch sample_untyped sample_il) as (_ & _ & _ & _ & Hother).
    apply Hother. simpl. intros Hin.
    repeat (apply elem_of_cons in Hin as [Hin|Hin]; [discriminate|]).
    by apply elem_of_nil in Hin.
  - apply Hreturns, store_ok_sample_accumulator.
Defined.

Lemma Accumulate_batch_effect_witness :
  ∃ n a',
    Accumulate 7 (sample_batch [sample_gauge [sample_point 100 10]]) (newAccumulator 60)
    = Some (n, a', touched_batch (sample_batch [sample_gauge [sample_point 100 10]])).
Proof.
  exact (proj1 (Accumulate_batch_effect 7 (sample_batch [sample_gauge [sample_point 100 10]])
                  (newAccumulator 60) (store_ok_new 60))).
Defined.

(** C9 as stated fails: the labels [host, dc] of the datapoint come back
    as [dc, host]. *)
Lemma Accumulate_reorders_labels :
  ∃ n a',
    Accumulate 7 (sample_batch [sample_gauge [sample_point 100 10]]) (newAccumulator 60)
    = Some (n, a',
            sample_batch
              [sample_gauge [mkDataPoint [("dc", "b"); ("host", "a")] 100 10]]) ∧
    sample_batch [sample_gauge [mkDataPoint [("dc", "b"); ("host", "a")] 100 10]]
    ≠ sample_batch [sample_gauge [sample_point 100 10]].
Proof.
  eexists _, _. split; [vm_compute; reflexivity|]. discriminate.
Qed.

(** After an [Accumulate] and a [Collect], the read behind a lookup of
    the stored gauge is in bounds, and the next [Accumulate] returns. *)
Lemma store_single_datapoint_witness :
  first_point_read MetricDataTypeGauge
    (gaugeSnapshot (sample_gauge []) (sample_point 100 10)) ∧
  ∃ n a',
    Accumulate 9 (sample_batch [sample_gauge [sample_point 50 5]])
               (Collect 8 (map_to_list (registeredMetrics sample_accumulator))
                        sample_accumulator).2
    = Some (n, a', touched_batch (sample_batch [sample_gauge [sample_point 50 5]])) ∧
    reachable a'.
Proof.
  assert (Hacc : reachable sample_accumulator).
  { apply (reachable_Accumulate 7 (sample_batch [sample_gauge [sample_point 100 10]])
             (newAccumulator 60) 1%nat sample_accumulator
             (touched_batch (sample_batch [sample_gauge [sample_point 100 10]])));
      [apply reachable_new|vm_compute; reflexivity]. }
  split.
  - destruct (store_single_datapoint sample_accumulator Hacc) as (_ & Hread & _).
    apply (Hread "scope" (sample_gauge []) sample_labels
             (mkAccumulatedValue (gaugeSnapshot (sample_gauge []) (sample_point 100 10))
                                 7 sample_il)).
    vm_compute. reflexivity.
  - apply (store_single_datapoint
             (Collect 8 (map_to_list (registeredMetrics sample_accumulator))
                      sample_accumulator).2).
    apply reachable_Collect; [exact Hacc|]. unfold Range_order. reflexivity.
Defined.

Lemma Collect_semantics_witness :
  (Collect 100 (map_to_list (registeredMetrics sample_accumulator)) sample_accumulator).1
  = value ∘ snd
      <$> filter (λ e, ¬ updated e.2 < 100 - 60)
                 (map_to_list (registeredMetrics sample_accumulator)).
Proof.
  apply (Collect_semantics 100 (map_to_list (registeredMetrics sample_accumulator))
           sample_accumulator).
  unfold Range_order. reflexivity.
Defined.

Lemma timeseriesSignature_identity_witness :
  (timeseriesSignature "scope" (sample_gauge []) [("host", "a"); ("dc", "b")]).1
  = (timeseriesSignature "scope" (sample_gauge []) [("dc", "b"); ("host", "a")]).1 ∧
  (timeseriesSignature "scope" (sample_gauge []) [("host", "a"); ("dc", "b")]).1
  ≠ (timeseriesSignature "scope" (sample_sum AggregationTemporalityCumulative [])
                         [("dc", "b"); ("host", "a")]).1 ∧
  (timeseriesSignature "scope" (sample_gauge []) [("host", "a")]).1
  ≠ (timeseriesSignature "scope" (sample_gauge []) [("host", "b")]).1.
Proof.
  split_and!.
  - destruct (timeseriesSignature_identity "scope" "scope" (sample_gauge [])
                (sample_gauge []) [("host", "a"); ("dc", "b")] [("dc", "b"); ("host", "a")])
      as (Hperm & _ & _).
    apply Hperm.
    + repeat constructor; simpl; rewrite ?elem_of_cons, ?elem_of_nil;
        intros Hin; decompose [or] Hin; done.
    + apply Permutation_swap.
  - destruct (timeseriesSignature_identity "scope" "scope" (sample_gauge [])
                (sample_sum AggregationTemporalityCumulative [])
                [("host", "a"); ("dc", "b")] [("dc", "b"); ("host", "a")])
      as (_ & Hkind & _).
    apply Hkind. discriminate.
  - destruct (timeseriesSignature_identity "scope" "scope" (sample_gauge [])
                (sample_gauge []) [("host", "a")] [("host", "b")])
      as (_ & _ & Hdiff).
    apply Hdiff; try reflexivity.
    + by repeat constructor.
    + by repeat constructor.
    + intros v v' _ _ Heq. exact Heq.
    + right. right. right. intros Hp. apply Permutation_singleton_r in Hp. discriminate.
Defined.

(** C2 as stated fails: scope [a*b] with name [c] and scope [a] with name
    [b*c] differ in scope name and in metric name and share a signature. *)
Lemma timeseriesSignature_collision :
  collision_left.1 ≠ collision_right.1 ∧
  Name collision_left.2 ≠ Name collision_right.2 ∧
  (timeseriesSignature collision_left.1 collision_left.2 []).1
  = (timeseriesSignature collision_right.1 collision_right.2 []).1.
Proof. split_and!; [discriminate|discriminate|reflexivity]. Qed.

End Witnesses.

(** ** Accumulate as a run of store steps *)

Section EventProperties.
Context `{Pdata}.

Lemma Metric_Timestamps_Points (m : Metric) :
  Metric_Timestamps m = (Metric_Points m).*2.
Proof.
  unfold Metric_Timestamps, Metric_Points.
  destruct (Data m); [done|..]; by rewrite <- list_fmap_compose.
Qed.

Lemma Metric_numDataPoints_Points (m : Metric) :
  Metric_numDataPoints m = length (Metric_Points m).
Proof.
  unfold Metric_numDataPoints, Metric_Points.
  destruct (Data m); [done|..]; by rewrite length_fmap.
Qed.

Lemma from_batch_entry_ok now ms signature v :
  from_batch now ms signature v → entry_ok signature v.
Proof.
  intros (il & metric & l & ts & _ & _ & _ & -> & _ & _ & Hkind & _ & _ & _ & Hpts & _).
  apply entry_ok_signature; [done|].
  by rewrite Metric_numDataPoints_Points, Hpts.
Qed.

Lemma from_batch_mono now ms ms' signature v :
  ms ⊆ ms' → from_batch now ms signature v → from_batch now ms' signature v.
Proof.
  intros Hsub (il & metric & l & ts & Hin & Hrest).
  exists il, metric, l, ts. split; [by apply Hsub|done].
Qed.

Lemma store_step_entry_ok now ms a a' :
  store_step now ms a a' →
  ∃ signature v, a' = Store signature v a ∧ entry_ok signature v ∧
                 from_batch now ms signature v.
Proof.
  intros (sig & v & ts & Hfrom & _ & _ & ->).
  exists sig, v. split_and!; [done| |done]. by eapply from_batch_entry_ok.
Qed.

Lemma store_step_ok now ms a a' : store_ok a → store_step now ms a a' → store_ok a'.
Proof.
  intros Hok (sig & v & -> & Hentry & _)%store_step_entry_ok.
  by apply store_ok_Store.
Qed.

Lemma nsteps_store_ok now ms k a a' :
  store_ok a → nsteps (store_step now ms) k a a' → store_ok a'.
Proof. intros Hok Hsteps. induction Hsteps; eauto using store_step_ok. Qed.

Lemma store_step_mono now ms ms' a a' :
  ms ⊆ ms' → store_step now ms a a' → store_step now ms' a a'.
Proof.
  intros Hsub (sig & v & ts & Hfrom & Hrest).
  exists sig, v, ts. split; [by eapply from_batch_mono|done].
Qed.

Lemma nsteps_store_step_mono now ms ms' k a a' :
  ms ⊆ ms' → nsteps (store_step now ms) k a a' → nsteps (store_step now ms') k a a'.
Proof.
  intros Hsub Hsteps. induction Hsteps; econstructor; eauto using store_step_mono.
Qed.

Lemma covers_step now ms signature ts a a' :
  store_step now ms a a' → covers signature ts a → covers signature ts a'.
Proof.
  intros (sig & v1 & ts1 & _ & Hts1 & Hold & ->) (v & ts' & Hv & Hts' & Hle).
  unfold covers. simpl.
  destruct (decide (sig = signature)) as [<-|Hne].
  - rewrite lookup_insert_eq. unfold Load in Hold. rewrite Hv in Hold.
    destruct Hold as (ts0 & Hts0 & Hle0).
    exists v1, ts1. split_and!; [done|done|].
    rewrite Hts' in Hts0. injection Hts0 as <-. lia.
  - rewrite lookup_insert_ne by done. eauto.
Qed.

Lemma covers_nsteps now ms k signature ts a a' :
  nsteps (store_step now ms) k a a' → covers signature ts a → covers signature ts a'.
Proof. intros Hsteps. induction Hsteps; eauto using covers_step. Qed.

(** From the two equations of a policy body to its outcome. *)
Lemma body_outcome {V} now ms metric il (ip : DataPoint V) n a
    (r : option (nat * lastValueAccumulator * DataPoint V)) (m1 m2 : Metric) :
  (il, metric) ∈ ms →
  ¬ nonCumulative metric →
  (Attributes ip, Timestamp ip) ∈ Metric_Points metric →
  (∀ m, m = m1 ∨ m = m2 →
     DataType m = DataType metric ∧ Name m = Name metric ∧
     Description m = Description metric ∧ Unit m = Unit metric ∧
     Metric_Points m = [(Sort (Attributes ip), Timestamp ip)] ∧
     supported_snapshot m) →
  (Load (timeseriesSignature (il_Name il) metric (Attributes ip)).1 a = None →
   r = stored (timeseriesSignature (il_Name il) metric (Attributes ip)).1 m1 il now ip n a) →
  (∀ mv, Load (timeseriesSignature (il_Name il) metric (Attributes ip)).1 a = Some mv →
     ∃ ts0, Metric_Timestamps (value mv) = [ts0] ∧
       r = if bool_decide (Timestamp ip < ts0) then dropped ip n a
           else stored (timeseriesSignature (il_Name il) metric (Attributes ip)).1
                       m2 il now ip n a) →
  step_outcome now ms (timeseriesSignature (il_Name il) metric (Attributes ip)).1 ip n a r.
Proof.
  intros Hin Hnc Hpt Hsnap Hnone Hsome.
  set (sig := (timeseriesSignature (il_Name il) metric (Attributes ip)).1) in *.
  assert (Hstored : ∀ m, m = m1 ∨ m = m2 →
            match Load sig a with
            | None => True
            | Some mv => ∃ ts0, Metric_Timestamps (value mv) = [ts0] ∧ ts0 ≤ Timestamp ip
            end →
            step_outcome now ms sig ip n a (stored sig m il now ip n a)).
  { intros m Hm Hold. destruct (Hsnap m Hm) as (Hk & Hn & Hd & Hu & Hp & Hsup).
    assert (Hts : Metric_Timestamps m = [Timestamp ip])
      by (by rewrite Metric_Timestamps_Points, Hp).
    right. eexists. split; [done|]. split.
    - exists sig, (mkAccumulatedValue m now il), (Timestamp ip). split_and!; try done.
      exists il, metric, (Attributes ip), (Timestamp ip). by split_and!.
    - unfold covers. simpl. rewrite lookup_insert_eq. eexists _, _. by split_and!. }
  destruct (Load sig a) as [mv|] eqn:Hload.
  - destruct (Hsome mv eq_refl) as (ts0 & Hts0 & ->). case_bool_decide as Hlt.
    + left. split; [done|]. exists mv, ts0. unfold Load in Hload. split_and!; [done|done|lia].
    + apply Hstored; [by right|]. exists ts0. split; [done|lia].
  - rewrite Hnone by done. apply Hstored; [by left|done].
Qed.

(** Folds the list map [simpl] unfolds. *)
Ltac fold_fmap :=
  repeat match goal with
         | |- context [list_fmap ?A ?B ?f ?l] => change (list_fmap A B f l) with (f <$> l)
         end.

(** A loop whose every iteration has such an outcome. *)
Lemma forDataPoints_events {V} now ms (sigf : DataPoint V → string)
    (body : DataPoint V → nat → lastValueAccumulator
            → option (nat * lastValueAccumulator * DataPoint V))
    (dps : list (DataPoint V)) :
  (∀ ip n a, ip ∈ dps → store_ok a →
             step_outcome now ms (sigf ip) ip n a (body ip n a)) →
  ∀ n a, store_ok a →
    events_post now ms ((λ ip, (sigf ip, Timestamp ip)) <$> dps) (sorted_point <$> dps)
                n a (forDataPoints body dps n a).
Proof.
  induction dps as [|ip dps IH]; intros Hbody n a Hok; simpl.
  - exists 0%nat, a. rewrite Nat.add_0_r.
    split_and!; [done|constructor|done|done|constructor].
  - assert (Hrest : ∀ ip' n a, ip' ∈ dps → store_ok a →
              step_outcome now ms (sigf ip') ip' n a (body ip' n a))
      by (intros; apply Hbody; [by apply list_elem_of_further|done]).
    destruct (Hbody ip n a (list_elem_of_here _ _) Hok)
      as [[-> Hcov]|(a1 & -> & Hstep & Hcov)]; simpl.
    + destruct (IH Hrest n a Hok) as (k & a' & -> & Hsteps & Hk & Hok' & Hall). simpl.
      exists k, a'. rewrite length_fmap in Hk. fold_fmap. rewrite length_cons, length_fmap.
      split_and!; [done|done|lia|done|].
      constructor; [|done]. simpl. by eapply covers_nsteps.
    + destruct (IH Hrest (S n) a1 (store_step_ok _ _ _ _ Hok Hstep))
        as (k & a' & -> & Hsteps & Hk & Hok' & Hall). simpl.
      exists (S k), a'. rewrite length_fmap in Hk. fold_fmap. rewrite length_cons, length_fmap.
      split_and!; [do 3 f_equal; lia|by econstructor|lia|done|].
      constructor; [|done]. simpl. by eapply covers_nsteps.
Qed.

Lemma metric_targets_points il (metric : Metric) {V} (dps : list (DataPoint V)) :
  ¬ nonCumulative metric →
  Metric_Points metric = (λ ip, (Attributes ip, Timestamp ip)) <$> dps →
  metric_targets il metric
  = (λ ip, ((timeseriesSignature (il_Name il) metric (Attributes ip)).1, Timestamp ip))
      <$> dps.
Proof.
  intros Hnc Hpts. unfold metric_targets. rewrite decide_False by done.
  by rewrite Hpts, <- list_fmap_compose.
Qed.

Lemma accumulateGauge_events now ms metric g il a :
  (il, metric) ∈ ms → Data metric = DataGauge g → store_ok a →
  events_post now ms (metric_targets il metric) (touched_metric metric) 0 a
              (accumulateGauge metric il now a).
Proof.
  intros Hin Hdata Hok.
  assert (Hkind : DataType metric = MetricDataTypeGauge)
    by (unfold DataType; by rewrite Hdata).
  assert (Hnc : ¬ nonCumulative metric) by (unfold nonCumulative; rewrite Hdata; tauto).
  assert (Hpts : Metric_Points metric
                 = (λ ip, (Attributes ip, Timestamp ip)) <$> Gauge_DataPoints g)
    by (unfold Metric_Points; by rewrite Hdata).
  destruct (forDataPoints_events now ms
              (λ ip, (timeseriesSignature (il_Name il) metric (Attributes ip)).1)
              (accumulateGauge_body metric il now) (Gauge_DataPoints g)) with (n := 0%nat) (a := a)
    as (k & a' & Hloop & Hsteps & Hk & Hok' & Hall); [|done|].
  - intros ip n a0 Hip Hok0.
    apply (body_outcome now ms metric il ip n a0 _
             (gaugeSnapshot metric ip) (gaugeSnapshot metric ip)); try done.
    + rewrite Hpts. by apply (list_elem_of_fmap_2 (λ ip, (Attributes ip, Timestamp ip))).
    + by intros m [->| ->].
    + by apply accumulateGauge_body_None.
    + intros mv. by apply accumulateGauge_body_Some.
  - exists k, a'. rewrite (metric_targets_points il metric (Gauge_DataPoints g)) by done.
    unfold accumulateGauge, Metric_Gauge, touched_metric. rewrite Hdata. simpl.
    rewrite Hloop. done.
Qed.

Lemma accumulateSummary_events now ms metric s il a :
  (il, metric) ∈ ms → Data metric = DataSummary s → store_ok a →
  events_post now ms (metric_targets il metric) (touched_metric metric) 0 a
              (accumulateSummary metric il now a).
Proof.
  intros Hin Hdata Hok.
  assert (Hkind : DataType metric = MetricDataTypeSummary)
    by (unfold DataType; by rewrite Hdata).
  assert (Hnc : ¬ nonCumulative metric) by (unfold nonCumulative; rewrite Hdata; tauto).
  assert (Hpts : Metric_Points metric
                 = (λ ip, (Attributes ip, Timestamp ip)) <$> Summary_DataPoints s)
    by (unfold Metric_Points; by rewrite Hdata).
  destruct (forDataPoints_events now ms
              (λ ip, (timeseriesSignature (il_Name il) metric (Attributes ip)).1)
              (accumulateSummary_body metric il now) (Summary_DataPoints s))
    with (n := 0%nat) (a := a)
    as (k & a' & Hloop & Hsteps & Hk & Hok' & Hall); [|done|].
  - intros ip n a0 Hip Hok0.
    apply (body_outcome now ms metric il ip n a0 _
             (summarySnapshot metric ip) (summarySnapshot metric ip)); try done.
    + rewrite Hpts. by apply (list_elem_of_fmap_2 (λ ip, (Attributes ip, Timestamp ip))).
    + by intros m [->| ->].
    + by apply accumulateSummary_body_None.
    + intros mv. by apply accumulateSummary_body_Some.
  - exists k, a'. rewrite (metric_targets_points il metric (Summary_DataPoints s)) by done.
    unfold accumulateSummary, Metric_Summary, touched_metric. rewrite Hdata. simpl.
    rewrite Hloop. done.
Qed.

Lemma events_post_rejected {B} now ms (batch : B) n a :
  store_ok a → events_post now ms [] batch n a (Some (n, a, batch)).
Proof.
  intros Hok. exists 0%nat, a. rewrite Nat.add_0_r.
  split_and!; [done|constructor|done|done|constructor].
Qed.

Lemma accumulateSum_events now ms metric s il a :
  (il, metric) ∈ ms → Data metric = DataSum s → store_ok a →
  events_post now ms (metric_targets il metric) (touched_metric metric) 0 a
              (accumulateSum metric il now a).
Proof.
  intros Hin Hdata Hok.
  pose proof (DataSum_DataType _ _ Hdata) as Hkind.
  assert (Hpts : Metric_Points metric
                 = (λ ip, (Attributes ip, Timestamp ip)) <$> Sum_DataPoints s)
    by (unfold Metric_Points; by rewrite Hdata).
  unfold accumulateSum, Metric_Sum, touched_metric. rewrite Hdata. simpl.
  case_decide as Hgate.
  - unfold metric_targets. rewrite decide_True by (unfold nonCumulative; by rewrite Hdata).
    by apply events_post_rejected.
  - assert (Hnc : ¬ nonCumulative metric) by (unfold nonCumulative; rewrite Hdata; tauto).
    destruct (forDataPoints_events now ms
                (λ ip, (timeseriesSignature (il_Name il) metric (Attributes ip)).1)
                (accumulateSum_body metric il now) (Sum_DataPoints s))
      with (n := 0%nat) (a := a)
      as (k & a' & Hloop & Hsteps & Hk & Hok' & Hall); [|done|].
    + intros ip n a0 Hip Hok0.
      apply (body_outcome now ms metric il ip n a0 _
               (sumSnapshot metric (Sum_IsMonotonic s) ip)
               (sumSnapshot metric (Sum_IsMonotonic s) ip)); try done.
      * rewrite Hpts. by apply (list_elem_of_fmap_2 (λ ip, (Attributes ip, Timestamp ip))).
      * by intros m [->| ->].
      * by apply accumulateSum_body_None.
      * intros mv. by apply accumulateSum_body_Some.
    + exists k, a'. rewrite (metric_targets_points il metric (Sum_DataPoints s)) by done.
      rewrite Hloop. done.
Qed.

Lemma accumulateDoubleHistogram_events now ms metric h il a :
  (il, metric) ∈ ms → Data metric = DataHistogram h → store_ok a →
  events_post now ms (metric_targets il metric) (touched_metric metric) 0 a
              (accumulateDoubleHistogram metric il now a).
Proof.
  intros Hin Hdata Hok.
  assert (Hkind : DataType metric = MetricDataTypeHistogram)
    by (unfold DataType; by rewrite Hdata).
  assert (Hpts : Metric_Points metric
                 = (λ ip, (Attributes ip, Timestamp ip)) <$> Histogram_DataPoints h)
    by (unfold Metric_Points; by rewrite Hdata).
  unfold accumulateDoubleHistogram, Metric_Histogram, touched_metric. rewrite Hdata. simpl.
  case_decide as Hgate.
  - unfold metric_targets. rewrite decide_True by (unfold nonCumulative; by rewrite Hdata).
    by apply events_post_rejected.
  - assert (Hnc : ¬ nonCumulative metric) by (unfold nonCumulative; rewrite Hdata; tauto).
    destruct (forDataPoints_events now ms
                (λ ip, (timeseriesSignature (il_Name il) metric (Attributes ip)).1)
                (accumulateDoubleHistogram_body metric il now) (Histogram_DataPoints h))
      with (n := 0%nat) (a := a)
      as (k & a' & Hloop & Hsteps & Hk & Hok' & Hall); [|done|].
    + intros ip n a0 Hip Hok0.
      apply (body_outcome now ms metric il ip n a0 _
               (histogramSnapshot metric AggregationTemporalityUnspecified ip)
               (histogramSnapshot metric AggregationTemporalityCumulative ip)); try done.
      * rewrite Hpts. by apply (list_elem_of_fmap_2 (λ ip, (Attributes ip, Timestamp ip))).
      * intros m [->| ->]; split_and!; try done; [by right|by left].
      * by apply accumulateDoubleHistogram_body_None.
      * intros mv. by apply accumulateDoubleHistogram_body_Some.
    + exists k, a'. rewrite (metric_targets_points il metric (Histogram_DataPoints h)) by done.
      rewrite Hloop. done.
Qed.

Lemma addMetric_events now ms metric il a :
  (il, metric) ∈ ms → store_ok a →
  events_post now ms (metric_targets il metric) (touched_metric metric) 0 a
              (addMetric metric il now a).
Proof.
  intros Hin Hok. unfold addMetric, DataType.
  destruct (Data metric) as [|g|s|h|s] eqn:Hdata.
  - unfold touched_metric, metric_targets, Metric_Points. rewrite Hdata.
    rewrite decide_False by (unfold nonCumulative; rewrite Hdata; tauto).
    by apply events_post_rejected.
  - by eapply accumulateGauge_events.
  - by eapply accumulateSum_events.
  - by eapply accumulateDoubleHistogram_events.
  - by eapply accumulateSummary_events.
Qed.

Lemma events_post_seq now ms targets1 targets2 a k a1 :
  nsteps (store_step now ms) k a a1 →
  (k ≤ length targets1)%nat →
  Forall (λ t, covers t.1 t.2 a1) targets1 →
  ∀ k2 a2,
    nsteps (store_step now ms) k2 a1 a2 →
    (k2 ≤ length targets2)%nat →
    Forall (λ t, covers t.1 t.2 a2) targets2 →
    nsteps (store_step now ms) (k + k2) a a2 ∧
    (k + k2 ≤ length (targets1 ++ targets2))%nat ∧
    Forall (λ t, covers t.1 t.2 a2) (targets1 ++ targets2).
Proof.
  intros Hs1 Hk1 Hc1 k2 a2 Hs2 Hk2 Hc2. split; [by eapply nsteps_trans|].
  split; [rewrite length_app; lia|].
  apply Forall_app. split; [|done].
  eapply Forall_impl; [exact Hc1|]. intros t Ht. by eapply covers_nsteps.
Qed.

Lemma Accumulate_metrics_events now ms il metrics n a :
  (∀ metric, metric ∈ metrics → (il, metric) ∈ ms) → store_ok a →
  events_post now ms (batch_targets (pair il <$> metrics)) (touched_metric <$> metrics)
              n a (Accumulate_metrics il now metrics n a).
Proof.
  revert n a. induction metrics as [|metric metrics IH]; intros n a Hin Hok.
  - by apply events_post_rejected.
  - simpl.
    destruct (addMetric_events now ms metric il a) as (k & a1 & -> & Hs1 & Hk1 & Hok1 & Hc1);
      [apply Hin, list_elem_of_here|done|]. simpl.
    destruct (IH (n + k)%nat a1) as (k2 & a2 & -> & Hs2 & Hk2 & Hok2 & Hc2);
      [intros; by apply Hin, list_elem_of_further|done|]. simpl.
    exists (k + k2)%nat, a2.
    destruct (events_post_seq now ms _ _ a k a1 Hs1 Hk1 Hc1 k2 a2 Hs2 Hk2 Hc2)
      as (Hs & Hk & Hc).
    split_and!; [do 3 f_equal; lia|done|exact Hk|done|exact Hc].
Qed.

Lemma Accumulate_ilms_events now ms ilms n a :
  (∀ e, e ∈ (ilm ← ilms; pair (ilm_InstrumentationLibrary ilm) <$> ilm_Metrics ilm) →
        e ∈ ms) →
  store_ok a →
  events_post now ms
    (batch_targets (ilm ← ilms; pair (ilm_InstrumentationLibrary ilm) <$> ilm_Metrics ilm))
    (touched_ilm <$> ilms) n a (Accumulate_ilms now ilms n a).
Proof.
  revert n a. induction ilms as [|ilm ilms IH]; intros n a Hin Hok.
  - by apply events_post_rejected.
  - rewrite bind_cons in Hin.
    replace (batch_targets ((ilm :: ilms)
               ≫= λ ilm, pair (ilm_InstrumentationLibrary ilm) <$> ilm_Metrics ilm))
      with (batch_targets (pair (ilm_InstrumentationLibrary ilm) <$> ilm_Metrics ilm)
            ++ batch_targets
                 (ilms ≫= λ ilm, pair (ilm_InstrumentationLibrary ilm) <$> ilm_Metrics ilm))
      by (unfold batch_targets; by rewrite bind_cons, bind_app).
    simpl.
    destruct (Accumulate_metrics_events now ms (ilm_InstrumentationLibrary ilm)
                (ilm_Metrics ilm) n a) as (k & a1 & -> & Hs1 & Hk1 & Hok1 & Hc1); [|done|].
    { intros metric Hm. apply Hin, elem_of_app. left. by apply list_elem_of_fmap_2. }
    simpl.
    destruct (IH (n + k)%nat a1) as (k2 & a2 & -> & Hs2 & Hk2 & Hok2 & Hc2); [|done|].
    { intros e He. apply Hin, elem_of_app. by right. }
    simpl. exists (k + k2)%nat, a2.
    destruct (events_post_seq now ms _ _ a k a1 Hs1 Hk1 Hc1 k2 a2 Hs2 Hk2 Hc2)
      as (Hs & Hk & Hc).
    split_and!; [do 3 f_equal; lia|done|exact Hk|done|exact Hc].
Qed.

(** [Accumulate] as a run of store steps: the count is their number, and
    every datapoint the policies look at ends up covered. *)
Lemma Accumulate_events now rm a :
  store_ok a →
  events_post now (batch_metrics rm) (batch_targets (batch_metrics rm)) (touched_batch rm)
              0 a (Accumulate now rm a).
Proof.
  intros Hok. unfold Accumulate.
  destruct (Accumulate_ilms_events now (batch_metrics rm)
              (rm_InstrumentationLibraryMetrics rm) 0%nat a) as (k & a' & -> & Hrest);
    [done|done|].
  simpl. by exists k, a'.
Qed.

Lemma from_batch_target now ms signature v :
  from_batch now ms signature v →
  ∃ ts, Metric_Timestamps (value v) = [ts] ∧ (signature, ts) ∈ batch_targets ms.
Proof.
  intros (il & metric & l & ts & Hin & Hnc & Hpt & -> & _ & _ & _ & _ & _ & _ & Hpts & _).
  exists ts. split; [by rewrite Metric_Timestamps_Points, Hpts|].
  unfold batch_targets. apply list_elem_of_bind. exists (il, metric). split; [|done].
  unfold metric_targets. simpl. rewrite decide_False by done.
  apply list_elem_of_fmap. by exists (l, ts).
Qed.

Lemma from_batch_signature now ms signature v :
  from_batch now ms signature v → signature ∈ batch_signatures ms.
Proof.
  intros (ts & _ & Hin)%from_batch_target.
  unfold batch_signatures. apply list_elem_of_fmap. by exists (signature, ts).
Qed.

(** What a run of store steps does to the store, and what it cannot do. *)
Lemma nsteps_store_facts now ms k a a' :
  nsteps (store_step now ms) k a a' →
  metricExpiration a' = metricExpiration a ∧
  (size (registeredMetrics a) ≤ size (registeredMetrics a')
   ≤ size (registeredMetrics a) + k)%nat ∧
  (∀ key, key ∉ batch_signatures ms →
          registeredMetrics a' !! key = registeredMetrics a !! key) ∧
  (∀ key, is_Some (registeredMetrics a !! key) → is_Some (registeredMetrics a' !! key)) ∧
  (∀ key v', registeredMetrics a' !! key = Some v' →
             registeredMetrics a !! key = Some v' ∨ from_batch now ms key v').
Proof.
  induction 1 as [a|k a a1 a' Hstep _ (IHexp & IHsize & IHframe & IHdom & IHnew)].
  - split_and!; auto; lia.
  - destruct Hstep as (sig & v & ts & Hfrom & _ & _ & ->). simpl in *.
    assert (Hsz : (size (registeredMetrics a) ≤ size (<[sig:=v]> (registeredMetrics a))
                   ≤ S (size (registeredMetrics a)))%nat).
    { rewrite map_size_insert. destruct (registeredMetrics a !! sig); simpl; lia. }
    split_and!; [done|lia|lia| | |].
    + intros key Hkey. rewrite IHframe by done. apply lookup_insert_ne.
      intros <-. by apply Hkey, (from_batch_signature now ms sig v).
    + intros key Hsome. apply IHdom. rewrite lookup_insert. by case_decide.
    + intros key v' Hv'. destruct (IHnew key v' Hv') as [Hin|?]; [|by right].
      rewrite lookup_insert in Hin. case_decide; [|by left].
      injection Hin as <-. subst. by right.
Qed.

End EventProperties.

(** ** Merging arrivals by timestamp *)

Section MergeProperties.
Context {X : Type} (ts : X → Z).


Lemma fold_merge_snoc (cur : option X) (l : list X) (x : X) :
  fold_merge ts cur (l ++ [x]) = Some (merge_with ts (fold_merge ts cur l) x).
Proof. unfold fold_merge. by rewrite foldl_app. Qed.

Lemma fold_merge_cons (cur : option X) (x : X) (l : list X) :
  fold_merge ts cur (x :: l) = fold_merge ts (Some (merge_with ts cur x)) l.
Proof. done. Qed.

Lemma fold_merge_None (cur : option X) (l : list X) :
  fold_merge ts cur l = None → cur = None ∧ l = [].
Proof.
  destruct l as [|x l _] using rev_ind; [done|]. by rewrite fold_merge_snoc.
Qed.

(** The survivor is not earlier than anything it was merged with, and it
    is the last of the arrivals that have its timestamp, if there is one. *)
Lemma fold_merge_Some (cur : option X) (l : list X) (r : X) :
  fold_merge ts cur l = Some r →
  (∀ x, x ∈ l → ts x ≤ ts r) ∧
  last (r :: filter (λ x, ts x = ts r) l) = Some r.
Proof.
  revert r. induction l as [|x l IH] using rev_ind; intros r.
  - intros _. split; [by intros x ?%elem_of_nil|done].
  - rewrite fold_merge_snoc. intros [= Hr].
    destruct (fold_merge ts cur l) as [c|] eqn:Hc; simpl in Hr.
    + destruct (IH c eq_refl) as [Hbound Hlast]. case_bool_decide as Hlt; subst r.
      * split.
        -- intros y [Hy| ->%list_elem_of_singleton]%elem_of_app; [by apply Hbound|lia].
        -- rewrite filter_app, filter_cons_False, filter_nil, app_nil_r by lia. done.
      * split.
        -- intros y [Hy| ->%list_elem_of_singleton]%elem_of_app; [|lia].
           specialize (Hbound y Hy). lia.
        -- rewrite filter_app, filter_cons_True, filter_nil by done.
           by rewrite app_comm_cons, last_snoc.
    + apply fold_merge_None in Hc as [_ ->]. subst r. split.
      * intros y ->%list_elem_of_singleton. lia.
      * simpl. rewrite filter_cons_True, filter_nil by done. done.
Qed.

Lemma fold_merge_stable (r : X) (l : list X) :
  (∀ x, x ∈ l → ts x ≤ ts r) →
  fold_merge ts (Some r) l = last (r :: filter (λ x, ts x = ts r) l).
Proof.
  revert r. induction l as [|x l IH]; intros r Hbound; [done|].
  assert (Hx : ts x ≤ ts r) by apply Hbound, list_elem_of_here.
  assert (Hl : ∀ y, y ∈ l → ts y ≤ ts r)
    by (intros; by apply Hbound, list_elem_of_further).
  rewrite fold_merge_cons. simpl. case_bool_decide as Hlt.
  - rewrite filter_cons_False by lia. by apply IH.
  - assert (Heq : ts x = ts r) by lia.
    rewrite filter_cons_True by done. rewrite last_cons_cons.
    rewrite IH by (rewrite Heq; done).
    do 2 f_equal. apply list_filter_iff. intros y. by rewrite Heq.
Qed.

(** Offering the same arrivals again changes nothing. *)
Lemma fold_merge_idemp (cur : option X) (l : list X) :
  fold_merge ts (fold_merge ts cur l) l = fold_merge ts cur l.
Proof.
  destruct (fold_merge ts cur l) as [r|] eqn:Hr.
  - destruct (fold_merge_Some _ _ _ Hr) as [Hbound Hlast].
    by rewrite fold_merge_stable.
  - by apply fold_merge_None in Hr as [_ ->].
Qed.

Lemma fold_merge_fmap {Y} (g : X → Y) (tsY : Y → Z) (cur : option X) (l : list X) :
  (∀ x, tsY (g x) = ts x) →
  g <$> fold_merge ts cur l = fold_merge tsY (g <$> cur) (g <$> l).
Proof.
  intros Hts. revert cur. induction l as [|x l IH]; intros cur; [done|].
  rewrite fmap_cons, !fold_merge_cons, IH. simpl.
  f_equal. f_equal. destruct cur as [c|]; simpl; [|done].
  rewrite !Hts. by case_bool_decide.
Qed.

End MergeProperties.

(** ** Further properties of the accumulator *)

Section Extras.
Context `{Pdata}.

(** X1. Cumulative-sum timestamp rule. One iteration of [accumulateSum]
    (past the temporality gate) on a well-formed store: with no entry under
    the signature the datapoint is stored; with an entry it is stored
    exactly when its timestamp is not earlier than the stored one and
    dropped exactly when it is earlier. And [accumulateSum] itself: it
    returns, and its count and the store it leaves are those of this rule
    applied to the datapoints of the metric in order, from count 0, nothing
    being applied when the temporality is not cumulative; on a metric of one
    datapoint it returns count 0 and the store and the metric as they were
    when the temporality is not cumulative, count 0 and the store as it was
    when the datapoint is earlier than the stored one, and otherwise count 1
    and the store with the fresh snapshot. *)
Theorem accumulateSum_merge_policy metric s il now (ip : NumberDataPoint) n a :
  Data metric = DataSum s →
  store_ok a →
  let signature := (timeseriesSignature (il_Name il) metric (Attributes ip)).1 in
  let r := accumulateSum_body metric il now ip n a in
  let store :=
    stored signature (sumSnapshot metric (Sum_IsMonotonic s) ip) il now ip n a in
  let drop := dropped ip n a in
  (Load signature a = None → r = store) ∧
  (∀ mv, Load signature a = Some mv →
     ∃ ts0, Metric_Timestamps (value mv) = [ts0] ∧
            (r = store ↔ ts0 ≤ Timestamp ip) ∧
            (r = drop ↔ Timestamp ip < ts0)) ∧
  (∃ k a',
     accumulateSum metric il now a = Some (k, a', touched_metric metric) ∧
     (k, registeredMetrics a')
     = foldl offer (0%nat, registeredMetrics a) (metric_offers now il metric) ∧
     metricExpiration a' = metricExpiration a ∧
     store_ok a') ∧
  (Sum_DataPoints s = [ip] →
   accumulateSum metric il now a
   = if decide (Sum_AggregationTemporality s ≠ AggregationTemporalityCumulative)
     then Some (0%nat, a, metric)
     else
       match Load signature a with
       | None =>
           Some (1%nat,
                 Store signature
                       (mkAccumulatedValue (sumSnapshot metric (Sum_IsMonotonic s) ip)
                                           now il) a,
                 touched_metric metric)
       | Some mv =>
           if bool_decide (Timestamp ip < first_ts (value mv))
           then Some (0%nat, a, touched_metric metric)
           else Some (1%nat,
                      Store signature
                            (mkAccumulatedValue
                               (sumSnapshot metric (Sum_IsMonotonic s) ip) now il) a,
                      touched_metric metric)
       end).
Proof.
  intros Hdata Hok signature r store drop. split_and!.
  - intros Hload. by apply (accumulateSum_body_None _ s).
  - intros mv Hload.
    destruct (accumulateSum_body_Some _ _ _ now ip n _ _ Hok Hdata Hload) as (ts0 & Hts & Hr).
    exists ts0. split; [done|]. fold signature r store drop in Hr.
    pose proof (stored_neq_dropped signature (sumSnapshot metric (Sum_IsMonotonic s) ip)
                  il now ip n a) as Hne.
    fold store drop in Hne.
    case_bool_decide as Hlt; rewrite Hr; split; split; try done; try lia;
      intros Heq; by symmetry in Heq.
  - apply (accumulateSum_offers now metric s il a Hdata Hok).
  - intros Hdp.
    unfold accumulateSum, Metric_Sum, touched_metric. rewrite Hdata. simpl.
    case_decide as Hgate; [done|].
    rewrite Hdp. cbn [forDataPoints fmap list_fmap].
    destruct (Load signature a) as [mv|] eqn:Hload.
    + destruct (accumulateSum_body_Some _ _ _ now ip 0%nat _ _ Hok Hdata Hload)
        as (ts0 & Hts0 & ->).
      rewrite (first_ts_singleton _ _ Hts0). by case_bool_decide.
    + by rewrite (accumulateSum_body_None _ s).
Qed.

(** X2. Cumulative-histogram timestamp rule. One iteration of
    [accumulateDoubleHistogram] (past the temporality gate) on a well-formed
    store: with no entry the datapoint is stored, in the snapshot of the
    first-store branch; with an entry it is stored, in the snapshot of the
    replacing branch, exactly when its timestamp is not earlier than the
    stored one, and dropped exactly when it is earlier. And
    [accumulateDoubleHistogram] itself: it returns, and its count and the
    store it leaves are those of this rule applied to the datapoints of the
    metric in order, from count 0, nothing being applied when the
    temporality is not cumulative; on a metric of one datapoint it returns
    count 0 and the store and the metric as they were when the temporality
    is not cumulative, count 0 and the store as it was when the datapoint is
    earlier than the stored one, and otherwise count 1 and the store with
    the snapshot of the branch taken. *)
Theorem accumulateDoubleHistogram_merge_policy metric il now (ip : HistogramDataPoint) n a :
  DataType metric = MetricDataTypeHistogram →
  store_ok a →
  let signature := (timeseriesSignature (il_Name il) metric (Attributes ip)).1 in
  let r := accumulateDoubleHistogram_body metric il now ip n a in
  let first :=
    stored signature (histogramSnapshot metric AggregationTemporalityUnspecified ip)
           il now ip n a in
  let replace :=
    stored signature (histogramSnapshot metric AggregationTemporalityCumulative ip)
           il now ip n a in
  let drop := dropped ip n a in
  (Load signature a = None → r = first) ∧
  (∀ mv, Load signature a = Some mv →
     ∃ ts0, Metric_Timestamps (value mv) = [ts0] ∧
            (r = replace ↔ ts0 ≤ Timestamp ip) ∧
            (r = drop ↔ Timestamp ip < ts0)) ∧
  (∃ k a',
     accumulateDoubleHistogram metric il now a = Some (k, a', touched_metric metric) ∧
     (k, registeredMetrics a')
     = foldl offer (0%nat, registeredMetrics a) (metric_offers now il metric) ∧
     metricExpiration a' = metricExpiration a ∧
     store_ok a') ∧
  (∀ h, Data metric = DataHistogram h → Histogram_DataPoints h = [ip] →
     accumulateDoubleHistogram metric il now a
     = if decide (Histogram_AggregationTemporality h ≠ AggregationTemporalityCumulative)
       then Some (0%nat, a, metric)
       else
         match Load signature a with
         | None =>
             Some (1%nat,
                   Store signature
                         (mkAccumulatedValue
                            (histogramSnapshot metric AggregationTemporalityUnspecified ip)
                            now il) a,
                   touched_metric metric)
         | Some mv =>
             if bool_decide (Timestamp ip < first_ts (value mv))
             then Some (0%nat, a, touched_metric metric)
             else Some (1%nat,
                        Store signature
                              (mkAccumulatedValue
                                 (histogramSnapshot metric AggregationTemporalityCumulative ip)
                                 now il) a,
                        touched_metric metric)
         end).
Proof.
  intros Hkind Hok signature r first replace drop. split_and!.
  - intros Hload. by apply accumulateDoubleHistogram_body_None.
  - intros mv Hload.
    destruct (accumulateDoubleHistogram_body_Some _ _ now ip n _ _ Hok Hkind Hload)
      as (ts0 & Hts & Hr).
    exists ts0. split; [done|]. fold signature r replace drop in Hr.
    pose proof (stored_neq_dropped signature
                  (histogramSnapshot metric AggregationTemporalityCumulative ip)
                  il now ip n a) as Hne.
    fold replace drop in Hne.
    case_bool_decide as Hlt; rewrite Hr; split; split; try done; try lia;
      intros Heq; by symmetry in Heq.
  - unfold DataType in Hkind. destruct (Data metric) as [| | |h|] eqn:Hdata; try done.
    apply (accumulateDoubleHistogram_offers now metric h il a Hdata Hok).
  - intros h Hdata Hdp.
    unfold accumulateDoubleHistogram, Metric_Histogram, touched_metric. rewrite Hdata. simpl.
    case_decide as Hgate; [done|].
    rewrite Hdp. cbn [forDataPoints fmap list_fmap].
    destruct (Load signature a) as [mv|] eqn:Hload.
    + destruct (accumulateDoubleHistogram_body_Some _ _ now ip 0%nat _ _ Hok Hkind Hload)
        as (ts0 & Hts0 & ->).
      rewrite (first_ts_singleton _ _ Hts0). by case_bool_decide.
    + by rewrite accumulateDoubleHistogram_body_None.
Qed.

Lemma length_metric_targets il (metric : Metric) :
  (length (metric_targets il metric) ≤ Metric_numDataPoints metric)%nat.
Proof.
  unfold metric_targets. case_decide; simpl; [lia|].
  by rewrite length_fmap, Metric_numDataPoints_Points.
Qed.

Lemma length_batch_targets (ms : list (InstrumentationLibrary * Metric)) :
  (length (batch_targets ms) ≤ sum_list (Metric_numDataPoints ∘ snd <$> ms))%nat.
Proof.
  unfold batch_targets. induction ms as [|[il metric] ms IH]; [done|].
  rewrite bind_cons, length_app, fmap_cons. simpl.
  pose proof (length_metric_targets il metric). lia.
Qed.

(** X3. The count is the number of stores. On a well-formed store
    [Accumulate] returns, and its count and the store it leaves are those
    of the merge rule applied to the datapoints of the non-rejected metrics
    of the batch in order, from count 0: each datapoint that is stored adds
    one, each one dropped adds nothing. So the count is the number of
    [registeredMetrics.Store] calls made, each installing an entry made from
    a datapoint of the batch; that number is at most the number of
    datapoints of the metrics that are not rejected, hence of the batch; and
    the store never shrinks and grows by at most that many entries. *)
Theorem Accumulate_count_is_stores now rm a :
  store_ok a →
  ∃ n a',
    Accumulate now rm a = Some (n, a', touched_batch rm) ∧
    (n, registeredMetrics a')
    = foldl offer (0%nat, registeredMetrics a) (batch_offers now (batch_metrics rm)) ∧
    nsteps (store_step now (batch_metrics rm)) n a a' ∧
    (n ≤ length (batch_targets (batch_metrics rm)) ≤ batch_numDataPoints rm)%nat ∧
    (size (registeredMetrics a) ≤ size (registeredMetrics a')
     ≤ size (registeredMetrics a) + n)%nat.
Proof.
  intros Hok.
  destruct (Accumulate_events now rm a Hok) as (n & a' & Hr & Hsteps & Hn & _ & _).
  destruct (Accumulate_offers now rm a Hok) as (n0 & a0 & Hr0 & Hfold & _).
  rewrite Hr in Hr0. injection Hr0 as <- <-.
  destruct (nsteps_store_facts _ _ _ _ _ Hsteps) as (_ & Hsize & _).
  exists n, a'. split_and!; try done; try lia.
  apply length_batch_targets.
Qed.

(** X4. Frame of Accumulate. On a well-formed store [Accumulate] leaves
    [metricExpiration] as it is, leaves every key that is not the signature
    of a datapoint of a non-rejected metric of the batch as it is, and
    removes no key. *)
Theorem Accumulate_frame now rm a :
  store_ok a →
  ∃ n a',
    Accumulate now rm a = Some (n, a', touched_batch rm) ∧
    metricExpiration a' = metricExpiration a ∧
    (∀ key, key ∉ batch_signatures (batch_metrics rm) → Load key a' = Load key a) ∧
    (∀ key, is_Some (Load key a) → is_Some (Load key a')).
Proof.
  intros Hok.
  destruct (Accumulate_events now rm a Hok) as (n & a' & Hr & Hsteps & _).
  destruct (nsteps_store_facts _ _ _ _ _ Hsteps) as (Hexp & _ & Hframe & Hdom & _).
  by exists n, a'.
Qed.

(** X5. Entries written by Accumulate. Every entry of the store after
    [Accumulate] that was not there before was made from the batch: it sits
    under the signature of a datapoint of a non-rejected metric of the
    batch, carries the time of the call, the scope and the name,
    description, unit and kind of that metric, and that one datapoint with
    its labels sorted; and it is, field for field and with the payload of
    the datapoint, the entry the first-store branch or the replacing branch
    of the policy makes for a datapoint of the batch with this signature. *)
Theorem Accumulate_new_entries now rm a :
  store_ok a →
  ∃ n a',
    Accumulate now rm a = Some (n, a', touched_batch rm) ∧
    ∀ key v', Load key a' = Some v' →
              Load key a = Some v' ∨
              (from_batch now (batch_metrics rm) key v' ∧
               ∃ first replacing,
                 (key, first, replacing) ∈ batch_offers now (batch_metrics rm) ∧
                 (v' = first ∨ v' = replacing)).
Proof.
  intros Hok.
  destruct (Accumulate_events now rm a Hok) as (n & a' & Hr & Hsteps & _).
  destruct (Accumulate_offers now rm a Hok) as (n0 & a0 & Hr0 & Hfold & _).
  rewrite Hr in Hr0. injection Hr0 as <- <-.
  destruct (nsteps_store_facts _ _ _ _ _ Hsteps) as (_ & _ & _ & _ & Hnew).
  exists n, a'. split; [done|]. intros key v' Hv'.
  destruct (Hnew key v' Hv') as [Hold|Hfrom]; [by left|].
  destruct (foldl_offer_entries (batch_offers now (batch_metrics rm))
              (0%nat, registeredMetrics a) key v') as [Hold|Hoffer];
    [by rewrite <- Hfold|by left|by right].
Qed.

(** X6. The latest datapoint wins. After [Accumulate] on a well-formed
    store, under every signature the stored timestamp is not earlier than
    the one stored before and not earlier than that of any datapoint of the
    batch with this signature, and it is the one stored before or that of
    such a datapoint: the maximum of them. *)
Theorem Accumulate_latest_wins now rm a :
  store_ok a →
  ∃ n a',
    Accumulate now rm a = Some (n, a', touched_batch rm) ∧
    (∀ key v ts, Load key a = Some v → Metric_Timestamps (value v) = [ts] →
                 covers key ts a') ∧
    (∀ key ts, (key, ts) ∈ batch_targets (batch_metrics rm) → covers key ts a') ∧
    (∀ key v' ts', Load key a' = Some v' → Metric_Timestamps (value v') = [ts'] →
       (∃ v, Load key a = Some v ∧ Metric_Timestamps (value v) = [ts']) ∨
       (key, ts') ∈ batch_targets (batch_metrics rm)).
Proof.
  intros Hok.
  destruct (Accumulate_events now rm a Hok) as (n & a' & Hr & Hsteps & _ & _ & Hcov).
  destruct (nsteps_store_facts _ _ _ _ _ Hsteps) as (_ & _ & _ & _ & Hnew).
  exists n, a'. split_and!; [done| | |].
  - intros key v ts Hv Hts. eapply covers_nsteps; [done|].
    exists v, ts. split_and!; [done|done|lia].
  - intros key ts Hin. rewrite Forall_forall in Hcov. apply (Hcov (key, ts) Hin).
  - intros key v' ts' Hv' Hts'. destruct (Hnew key v' Hv') as [Hold|Hfrom].
    + left. by exists v'.
    + right. apply from_batch_target in Hfrom as (ts & Hts & Hin). congruence.
Qed.

Lemma batch_signatures_elem (ms : list (InstrumentationLibrary * Metric)) signature :
  signature ∈ batch_signatures ms →
  ∃ il metric l, (il, metric) ∈ ms ∧
                 signature = (timeseriesSignature (il_Name il) metric l).1.
Proof.
  unfold batch_signatures, batch_targets.
  intros ([sig ts] & -> & Hin)%list_elem_of_fmap.
  apply list_elem_of_bind in Hin as ([il metric] & Hin & Hms).
  unfold metric_targets in Hin. simpl in Hin. case_decide; [by apply elem_of_nil in Hin|].
  apply list_elem_of_fmap in Hin as ([l ts'] & [= -> ->] & _). by exists il, metric, l.
Qed.

(** X7. Cross-kind isolation. Accumulating a batch none of whose metrics
    is of the kind of [metric] leaves whatever the store holds under the
    signatures of [metric] as it is. *)
Theorem Accumulate_other_kinds_untouched now rm a ilmName (metric : Metric)
    (l : AttributeMap) :
  store_ok a →
  (∀ e, e ∈ batch_metrics rm → DataType e.2 ≠ DataType metric) →
  ∃ n a',
    Accumulate now rm a = Some (n, a', touched_batch rm) ∧
    Load (timeseriesSignature ilmName metric l).1 a'
    = Load (timeseriesSignature ilmName metric l).1 a.
Proof.
  intros Hok Hkinds.
  destruct (Accumulate_events now rm a Hok) as (n & a' & Hr & Hsteps & _).
  destruct (nsteps_store_facts _ _ _ _ _ Hsteps) as (_ & _ & Hframe & _).
  exists n, a'. split; [done|]. apply Hframe.
  intros (il & metric' & l' & Hin & Heq)%batch_signatures_elem.
  apply timeseriesSignature_kind in Heq. by apply (Hkinds _ Hin).
Qed.

Lemma Accumulate_metrics_count il now metrics n a :
  Accumulate_metrics il now metrics n a
  = (λ r, ((n + r.1.1)%nat, r.1.2, r.2)) <$> Accumulate_metrics il now metrics 0 a.
Proof.
  revert n a. induction metrics as [|metric metrics IH]; intros n a; simpl.
  - by rewrite Nat.add_0_r.
  - destruct (addMetric metric il now a) as [[[k a1] metric']|]; [|done]. simpl.
    rewrite (IH (n + k)%nat), (IH k).
    destruct (Accumulate_metrics il now metrics 0 a1) as [[[k2 a2] ms]|]; [|done]. simpl.
    do 3 f_equal. lia.
Qed.

Lemma Accumulate_ilms_count now ilms n a :
  Accumulate_ilms now ilms n a
  = (λ r, ((n + r.1.1)%nat, r.1.2, r.2)) <$> Accumulate_ilms now ilms 0 a.
Proof.
  revert n a. induction ilms as [|ilm ilms IH]; intros n a; simpl.
  - by rewrite Nat.add_0_r.
  - rewrite (Accumulate_metrics_count _ _ _ n).
    destruct (Accumulate_metrics _ now (ilm_Metrics ilm) 0 a) as [[[k a1] ms]|]; [|done].
    simpl. rewrite (IH (n + k)%nat), (IH k).
    destruct (Accumulate_ilms now ilms 0 a1) as [[[k2 a2] r]|]; [|done]. simpl.
    do 3 f_equal. lia.
Qed.

Lemma Accumulate_ilms_app now ilms1 ilms2 n a :
  Accumulate_ilms now (ilms1 ++ ilms2) n a
  = '(n1, a1, r1) ← Accumulate_ilms now ilms1 n a;
    '(n2, a2, r2) ← Accumulate_ilms now ilms2 n1 a1;
    Some (n2, a2, r1 ++ r2).
Proof.
  revert n a. induction ilms1 as [|ilm ilms1 IH]; intros n a; simpl.
  - by destruct (Accumulate_ilms now ilms2 n a) as [[[n2 a2] r2]|].
  - destruct (Accumulate_metrics _ now (ilm_Metrics ilm) n a) as [[[k a1] ms]|]; [|done].
    simpl. rewrite IH.
    destruct (Accumulate_ilms now ilms1 k a1) as [[[n1 a2] r1]|]; [|done]. simpl.
    by destruct (Accumulate_ilms now ilms2 n1 a2) as [[[n2 a3] r2]|].
Qed.

(** X8. Splitting a batch. Accumulating the scopes [ilms1 ++ ilms2] in
    one call does what accumulating [ilms1] and then [ilms2] at the same
    time does, panics included: the same store, the sum of the counts, and
    the two batches handed back one after the other. *)
Theorem Accumulate_app now ilms1 ilms2 a :
  Accumulate now (mkResourceMetrics (ilms1 ++ ilms2)) a
  = '(n1, a1, rm1) ← Accumulate now (mkResourceMetrics ilms1) a;
    '(n2, a2, rm2) ← Accumulate now (mkResourceMetrics ilms2) a1;
    Some ((n1 + n2)%nat, a2,
          mkResourceMetrics (rm_InstrumentationLibraryMetrics rm1
                             ++ rm_InstrumentationLibraryMetrics rm2)).
Proof.
  unfold Accumulate. simpl. rewrite Accumulate_ilms_app.
  destruct (Accumulate_ilms now ilms1 0 a) as [[[n1 a1] r1]|]; [|done]. simpl.
  rewrite (Accumulate_ilms_count _ _ n1).
  by destruct (Accumulate_ilms now ilms2 0 a1) as [[[n2 a2] r2]|].
Qed.

Lemma addMetric_no_datapoints metric il now a :
  Metric_numDataPoints metric = 0%nat → addMetric metric il now a = Some (0%nat, a, metric).
Proof.
  destruct metric as [nm d u data].
  destruct data as [|[dps]|[t b dps]|[t dps]|[dps]];
    unfold Metric_numDataPoints; simpl; intros Hlen; [done|..];
    apply nil_length_inv in Hlen; subst dps.
  - done.
  - unfold addMetric, DataType, accumulateSum, Metric_Sum. simpl. by case_decide.
  - unfold addMetric, DataType, accumulateDoubleHistogram, Metric_Histogram. simpl.
    by case_decide.
  - done.
Qed.

Lemma Accumulate_metrics_no_datapoints il now metrics n a :
  Forall (λ m, Metric_numDataPoints m = 0%nat) metrics →
  Accumulate_metrics il now metrics n a = Some (n, a, metrics).
Proof.
  induction 1 as [|metric metrics Hm _ IH]; simpl; [done|].
  rewrite addMetric_no_datapoints by done. simpl. rewrite Nat.add_0_r, IH. done.
Qed.

Lemma Accumulate_ilms_no_datapoints now ilms n a :
  Forall (λ e, Metric_numDataPoints e.2 = 0%nat)
         (ilm ← ilms; pair (ilm_InstrumentationLibrary ilm) <$> ilm_Metrics ilm) →
  Accumulate_ilms now ilms n a = Some (n, a, ilms).
Proof.
  induction ilms as [|[il metrics] ilms IH]; intros Hall; simpl; [done|].
  rewrite bind_cons in Hall. apply Forall_app in Hall as [Hhere Hrest].
  rewrite Forall_fmap in Hhere.
  rewrite Accumulate_metrics_no_datapoints by exact Hhere.
  simpl. by rewrite IH.
Qed.

(** X9. Batches without datapoints. When no metric of the batch carries
    a datapoint (in particular for the empty batch), [Accumulate] returns 0
    and leaves store and batch exactly as they were, whatever the store
    holds. *)
Theorem Accumulate_no_datapoints now rm a :
  Forall (λ e, Metric_numDataPoints e.2 = 0%nat) (batch_metrics rm) →
  Accumulate now rm a = Some (0%nat, a, rm).
Proof.
  intros Hall. unfold Accumulate.
  rewrite Accumulate_ilms_no_datapoints by done. by destruct rm.
Qed.

(** X14. Signature of sorted labels. The attribute map
    [timeseriesSignature] leaves behind is the given one in key order, and
    computing the signature again from it gives the same signature and the
    same map. *)
Theorem timeseriesSignature_resorted ilmName (metric : Metric) (l : AttributeMap) :
  timeseriesSignature ilmName metric (timeseriesSignature ilmName metric l).2
  = timeseriesSignature ilmName metric l ∧
  (timeseriesSignature ilmName metric l).2 ≡ₚ l ∧
  StronglySorted key_le (timeseriesSignature ilmName metric l).2.
Proof.
  rewrite timeseriesSignature_sorted. split_and!.
  - unfold timeseriesSignature. by rewrite Sort_idemp.
  - apply Sort_perm.
  - apply Sort_sorted_le.
Qed.

Lemma live_mono b1 b2 (e : string * accumulatedValue) : b1 ≤ b2 → live b2 e → live b1 e.
Proof. unfold live. lia. Qed.

(** X12. Collect after Collect. A [Collect] at [now2] that follows a
    [Collect] at an earlier or equal time [now1] leaves the accumulator a
    single [Collect] at [now2] leaves, and returns the same snapshots up to
    order. *)
Theorem Collect_Collect now1 now2 order1 order2 order a :
  Range_order a order1 →
  Range_order (Collect now1 order1 a).2 order2 →
  Range_order a order →
  now1 ≤ now2 →
  (Collect now2 order2 (Collect now1 order1 a).2).2 = (Collect now2 order a).2 ∧
  (Collect now2 order2 (Collect now1 order1 a).2).1 ≡ₚ (Collect now2 order a).1.
Proof.
  intros Ho1 Ho2 Ho Hle.
  assert (Heq : (Collect now2 order2 (Collect now1 order1 a).2).2 = (Collect now2 order a).2).
  { apply lastValueAccumulator_eq; [|by rewrite !Collect_expiration].
    rewrite !Collect_store, Collect_expiration by done.
    rewrite map_filter_filter. apply map_filter_ext. intros k v _. split; [tauto|].
    intros Hl. split; [done|]. eapply live_mono; [|done]. lia. }
  split; [done|].
  rewrite (Collect_result_store now2 order2) by done.
  rewrite (Collect_result_store now2 order a) by done. by rewrite Heq.
Qed.

(** X13. Collect only removes. The store after [Collect] is a part of
    the store before; the result has as many snapshots as entries stay;
    store and result (up to order) do not depend on the order of the
    enumeration; and when no entry is past its expiration the accumulator
    is left as it is. *)
Theorem Collect_shrinks now order a :
  Range_order a order →
  registeredMetrics (Collect now order a).2 ⊆ registeredMetrics a ∧
  length (Collect now order a).1 = size (registeredMetrics (Collect now order a).2) ∧
  (∀ order', Range_order a order' →
     (Collect now order' a).2 = (Collect now order a).2 ∧
     (Collect now order' a).1 ≡ₚ (Collect now order a).1) ∧
  ((∀ key v, Load key a = Some v → ¬ updated v < now - metricExpiration a) →
   (Collect now order a).2 = a).
Proof.
  intros Ho. split_and!.
  - rewrite Collect_store by done. apply map_filter_subseteq.
  - rewrite (Collect_result_store now order a) by done.
    by rewrite length_fmap, length_map_to_list.
  - intros order' Ho'.
    assert (Heq : (Collect now order' a).2 = (Collect now order a).2).
    { apply lastValueAccumulator_eq; [|by rewrite !Collect_expiration].
      by rewrite !Collect_store. }
    split; [done|].
    rewrite (Collect_result_store now order') by done.
    rewrite (Collect_result_store now order) by done. by rewrite Heq.
  - intros Hlive. apply lastValueAccumulator_eq; [|apply Collect_expiration].
    rewrite Collect_store by done. apply map_filter_id.
    intros k v Hkv. exact (Hlive k v Hkv).
Qed.

Lemma Collect_lookup now order a key v :
  Range_order a order →
  Load key a = Some v →
  if decide (updated v < now - metricExpiration a)
  then Load key (Collect now order a).2 = None
  else Load key (Collect now order a).2 = Some v ∧ value v ∈ (Collect now order a).1.
Proof.
  intros Ho Hv. unfold Load in *. case_decide as Hexp.
  - rewrite Collect_store by done. apply map_lookup_filter_None. right.
    intros v' Hv'. assert (v' = v) as -> by congruence. unfold live. simpl. lia.
  - assert (Hin : registeredMetrics (Collect now order a).2 !! key = Some v)
      by (rewrite Collect_store by done; by apply map_lookup_filter_Some).
    split; [done|]. rewrite (Collect_result_store now order a) by done.
    apply list_elem_of_fmap. exists (key, v). split; [done|]. by apply elem_of_map_to_list.
Qed.

(** X11. Accumulate then Collect. An entry written by an [Accumulate] at
    time [now] is returned by a following [Collect] at time [now2], and
    stays in the store, unless [now] is strictly before
    [now2 - metricExpiration]; in that case [Collect] removes it. *)
Theorem Accumulate_then_Collect now rm a :
  store_ok a →
  ∃ n a',
    Accumulate now rm a = Some (n, a', touched_batch rm) ∧
    ∀ now2 order key v',
      Range_order a' order →
      Load key a' = Some v' →
      Load key a ≠ Some v' →
      if decide (now < now2 - metricExpiration a)
      then Load key (Collect now2 order a').2 = None
      else Load key (Collect now2 order a').2 = Some v' ∧
           value v' ∈ (Collect now2 order a').1.
Proof.
  intros Hok.
  destruct (Accumulate_events now rm a Hok) as (n & a' & Hr & Hsteps & _).
  destruct (nsteps_store_facts _ _ _ _ _ Hsteps) as (Hexp & _ & _ & _ & Hnew).
  exists n, a'. split; [done|]. intros now2 order key v' Ho Hv' Hne.
  destruct (Hnew key v' Hv') as [?|Hfrom]; [done|].
  destruct Hfrom as (il & metric & l & ts & _ & _ & _ & _ & Hupd & _).
  pose proof (Collect_lookup now2 order a' key v' Ho Hv') as Hc.
  rewrite Hexp, Hupd in Hc. exact Hc.
Qed.

Lemma from_batch_consistent now ms signature v :
  from_batch now ms signature v → entry_consistent signature v.
Proof.
  intros (il & metric & l & ts & _ & _ & _ & -> & _ & Hil & Hkind & Hname & _ & _ & Hpts & Hsup).
  subst il.
  exists (Sort l), ts. split_and!; [done|apply Sort_sorted_le| |done].
  unfold timeseriesSignature. simpl. by rewrite Sort_idemp, Hkind, Hname.
Qed.

Lemma reachable_consistent a :
  reachable a →
  ∀ key v, registeredMetrics a !! key = Some v → entry_consistent key v.
Proof.
  induction 1 as [exp|now rm a n a' rm' Hreach IH Hacc|now order a Hreach IH Horder];
    intros key v Hv.
  - simpl in Hv. by rewrite lookup_empty in Hv.
  - destruct (Accumulate_events now rm a (reachable_store_ok a Hreach))
      as (n1 & a1 & Hr & Hsteps & _).
    rewrite Hr in Hacc. injection Hacc as _ <- _.
    destruct (nsteps_store_facts _ _ _ _ _ Hsteps) as (_ & _ & _ & _ & Hnew).
    destruct (Hnew key v Hv) as [Hold|Hfrom]; [by apply IH|].
    by eapply from_batch_consistent.
  - rewrite Collect_store in Hv by done.
    apply map_lookup_filter_Some in Hv as [Hv _]. by apply IH.
Qed.

(** X15. Entries sit under their own signature. In every state reached
    from [newAccumulator] through [Accumulate] and [Collect], an entry
    found under a key holds one datapoint, whose labels are in key order;
    the key is the signature computed from the scope, the metric and the
    labels of the entry itself; and the snapshot is a Gauge, a cumulative
    Sum, a Summary, or a Histogram that is not delta. *)
Theorem reachable_entries_consistent a key v :
  reachable a → Load key a = Some v → entry_consistent key v.
Proof. intros Hreach Hv. by eapply reachable_consistent. Qed.

Lemma lookup_foldl_apply_op (ops : list (string * accumulatedValue))
    (m : gmap string accumulatedValue) (k : string) :
  foldl apply_op m ops !! k
  = fold_merge (first_ts ∘ value) (m !! k) (snd <$> filter (λ op, op.1 = k) ops).
Proof.
  revert m. induction ops as [|[k' v] ops IH]; intros m; [done|].
  simpl. rewrite IH. unfold apply_op at 1. simpl.
  destruct (decide (k' = k)) as [->|Hne].
  - rewrite filter_cons_True by done. by rewrite lookup_insert_eq, fmap_cons, fold_merge_cons.
  - rewrite filter_cons_False by done. by rewrite lookup_insert_ne.
Qed.

(** From the two equations of a policy body to the entry it offers. *)
Lemma body_apply_op {V} metric il now (ip : DataPoint V) n a
    (r : option (nat * lastValueAccumulator * DataPoint V)) (m : Metric) :
  store_ok a →
  DataType m = DataType metric →
  Metric_Timestamps m = [Timestamp ip] →
  (Load (timeseriesSignature (il_Name il) metric (Attributes ip)).1 a = None →
   r = stored (timeseriesSignature (il_Name il) metric (Attributes ip)).1 m il now ip n a) →
  (∀ mv, Load (timeseriesSignature (il_Name il) metric (Attributes ip)).1 a = Some mv →
     ∃ ts0, Metric_Timestamps (value mv) = [ts0] ∧
       r = if bool_decide (Timestamp ip < ts0) then dropped ip n a
           else stored (timeseriesSignature (il_Name il) metric (Attributes ip)).1
                       m il now ip n a) →
  ∃ n' a',
    r = Some (n', a', sorted_point ip) ∧
    registeredMetrics a'
    = apply_op (registeredMetrics a)
               ((timeseriesSignature (il_Name il) metric (Attributes ip)).1,
                mkAccumulatedValue m now il) ∧
    metricExpiration a' = metricExpiration a ∧
    store_ok a'.
Proof.
  intros Hok Hkind Hts Hnone Hsome.
  set (sig := (timeseriesSignature (il_Name il) metric (Attributes ip)).1) in *.
  assert (Hentry : entry_ok sig (mkAccumulatedValue m now il)).
  { apply entry_ok_signature; [done|]. simpl.
    by rewrite Metric_numDataPoints_Points, <- (length_fmap snd),
      <- Metric_Timestamps_Points, Hts. }
  unfold apply_op. simpl. destruct (Load sig a) as [mv|] eqn:Hload; unfold Load in Hload.
  - destruct (Hsome mv eq_refl) as (ts0 & Hts0 & ->). rewrite Hload. simpl.
    rewrite (first_ts_singleton _ _ Hts), (first_ts_singleton _ _ Hts0).
    case_bool_decide.
    + exists n, a. split_and!; [done| |done|done]. by rewrite insert_id.
    + eexists _, _. split_and!; [done|done|done|]. by apply store_ok_Store.
  - rewrite Hnone by done. rewrite Hload. simpl.
    eexists _, _. split_and!; [done|done|done|]. by apply store_ok_Store.
Qed.

Lemma forDataPoints_run {V} (opf : DataPoint V → string * accumulatedValue)
    (body : DataPoint V → nat → lastValueAccumulator
            → option (nat * lastValueAccumulator * DataPoint V))
    (dps : list (DataPoint V)) :
  (∀ ip n a, store_ok a →
     ∃ n' a', body ip n a = Some (n', a', sorted_point ip) ∧
              registeredMetrics a' = apply_op (registeredMetrics a) (opf ip) ∧
              metricExpiration a' = metricExpiration a ∧ store_ok a') →
  ∀ n a, store_ok a →
    run_post (opf <$> dps) (sorted_point <$> dps) a (forDataPoints body dps n a).
Proof.
  intros Hbody. induction dps as [|ip dps IH]; intros n a Hok.
  - by exists n, a.
  - rewrite !fmap_cons. cbn [forDataPoints].
    destruct (Hbody ip n a Hok) as (n1 & a1 & -> & Hreg1 & Hexp1 & Hok1).
    destruct (IH n1 a1 Hok1) as (n2 & a2 & Hloop & Hreg2 & Hexp2 & Hok2).
    exists n2, a2. simpl. rewrite Hloop. simpl.
    split_and!; [done| |congruence|done]. by rewrite Hreg2, Hreg1.
Qed.

Lemma accumulateGauge_run now metric g il a :
  Data metric = DataGauge g → store_ok a →
  run_post (metric_ops now il metric) (touched_metric metric) a
           (accumulateGauge metric il now a).
Proof.
  intros Hdata Hok.
  assert (Hkind : DataType metric = MetricDataTypeGauge)
    by (unfold DataType; by rewrite Hdata).
  destruct (forDataPoints_run
              (λ ip, ((timeseriesSignature (il_Name il) metric (Attributes ip)).1,
                      mkAccumulatedValue (gaugeSnapshot metric ip) now il))
              (accumulateGauge_body metric il now) (Gauge_DataPoints g)) with (n := 0%nat) (a := a)
    as (n & a' & Hloop & Hrest); [|done|].
  - intros ip n a0 Hok0.
    apply (body_apply_op metric il now ip n a0 _ (gaugeSnapshot metric ip)); try done.
    + by apply accumulateGauge_body_None.
    + intros mv. by apply accumulateGauge_body_Some.
  - exists n, a'. unfold accumulateGauge, Metric_Gauge, touched_metric, metric_ops.
    rewrite Hdata. simpl. rewrite Hloop. done.
Qed.

Lemma accumulateSummary_run now metric s il a :
  Data metric = DataSummary s → store_ok a →
  run_post (metric_ops now il metric) (touched_metric metric) a
           (accumulateSummary metric il now a).
Proof.
  intros Hdata Hok.
  assert (Hkind : DataType metric = MetricDataTypeSummary)
    by (unfold DataType; by rewrite Hdata).
  destruct (forDataPoints_run
              (λ ip, ((timeseriesSignature (il_Name il) metric (Attributes ip)).1,
                      mkAccumulatedValue (summarySnapshot metric ip) now il))
              (accumulateSummary_body metric il now) (Summary_DataPoints s))
    with (n := 0%nat) (a := a)
    as (n & a' & Hloop & Hrest); [|done|].
  - intros ip n a0 Hok0.
    apply (body_apply_op metric il now ip n a0 _ (summarySnapshot metric ip)); try done.
    + by apply accumulateSummary_body_None.
    + intros mv. by apply accumulateSummary_body_Some.
  - exists n, a'. unfold accumulateSummary, Metric_Summary, touched_metric, metric_ops.
    rewrite Hdata. simpl. rewrite Hloop. done.
Qed.

Lemma accumulateSum_run now metric s il a :
  Data metric = DataSum s → store_ok a →
  run_post (metric_ops now il metric) (touched_metric metric) a
           (accumulateSum metric il now a).
Proof.
  intros Hdata Hok.
  pose proof (DataSum_DataType _ _ Hdata) as Hkind.
  unfold accumulateSum, Metric_Sum, touched_metric, metric_ops. rewrite Hdata. simpl.
  case_decide as Hgate; [by exists 0%nat, a|].
  destruct (forDataPoints_run
              (λ ip, ((timeseriesSignature (il_Name il) metric (Attributes ip)).1,
                      mkAccumulatedValue (sumSnapshot metric (Sum_IsMonotonic s) ip) now il))
              (accumulateSum_body metric il now) (Sum_DataPoints s))
    with (n := 0%nat) (a := a)
    as (n & a' & Hloop & Hrest); [|done|].
  - intros ip n a0 Hok0.
    apply (body_apply_op metric il now ip n a0 _ (sumSnapshot metric (Sum_IsMonotonic s) ip)); try done.
    + by apply accumulateSum_body_None.
    + intros mv. by apply accumulateSum_body_Some.
  - exists n, a'. rewrite Hloop. done.
Qed.

Lemma addMetric_run now metric il a :
  DataType metric ≠ MetricDataTypeHistogram → store_ok a →
  run_post (metric_ops now il metric) (touched_metric metric) a
           (addMetric metric il now a).
Proof.
  intros Hkind Hok. unfold addMetric. unfold DataType in *.
  destruct (Data metric) as [|g|s|h|s] eqn:Hdata; [|by eapply accumulateGauge_run
    |by eapply accumulateSum_run|done|by eapply accumulateSummary_run].
  exists 0%nat, a. unfold touched_metric, metric_ops. by rewrite Hdata.
Qed.

Lemma Accumulate_metrics_run now il metrics n a :
  Forall (λ m, DataType m ≠ MetricDataTypeHistogram) metrics → store_ok a →
  run_post (batch_ops now (pair il <$> metrics)) (touched_metric <$> metrics) a
           (Accumulate_metrics il now metrics n a).
Proof.
  intros Hall. revert n a. induction Hall as [|metric metrics Hm _ IH]; intros n a Hok.
  - by exists n, a.
  - rewrite !fmap_cons. unfold batch_ops in *. rewrite bind_cons.
    cbn [Accumulate_metrics].
    destruct (addMetric_run now metric il a Hm Hok) as (k & a1 & -> & Hreg1 & Hexp1 & Hok1).
    destruct (IH (n + k)%nat a1 Hok1) as (n2 & a2 & Hloop & Hreg2 & Hexp2 & Hok2).
    exists n2, a2. split_and!; [|by rewrite foldl_app, Hreg2, Hreg1|congruence|done].
    simpl. rewrite Hloop. done.
Qed.

Lemma Accumulate_ilms_run now ilms n a :
  Forall (λ e, DataType e.2 ≠ MetricDataTypeHistogram)
         (ilm ← ilms; pair (ilm_InstrumentationLibrary ilm) <$> ilm_Metrics ilm) →
  store_ok a →
  run_post
    (batch_ops now (ilm ← ilms; pair (ilm_InstrumentationLibrary ilm) <$> ilm_Metrics ilm))
    (touched_ilm <$> ilms) a (Accumulate_ilms now ilms n a).
Proof.
  revert n a. induction ilms as [|ilm ilms IH]; intros n a Hall Hok.
  - by exists n, a.
  - rewrite bind_cons in Hall. apply Forall_app in Hall as [Hhere Hrest].
    rewrite Forall_fmap in Hhere.
    rewrite bind_cons, fmap_cons. unfold batch_ops in *. rewrite bind_app.
    cbn [Accumulate_ilms].
    destruct (Accumulate_metrics_run now (ilm_InstrumentationLibrary ilm) (ilm_Metrics ilm)
                n a Hhere Hok) as (n1 & a1 & -> & Hreg1 & Hexp1 & Hok1).
    destruct (IH n1 a1 Hrest Hok1) as (n2 & a2 & Hloop & Hreg2 & Hexp2 & Hok2).
    exists n2, a2. split_and!; [|by rewrite foldl_app, Hreg2, Hreg1|congruence|done].
    simpl. rewrite Hloop. done.
Qed.

(** Without histograms, what [Accumulate] leaves in the store is the
    entries of the batch merged into it one after the other. *)
Lemma Accumulate_run now rm a :
  Forall (λ e, DataType e.2 ≠ MetricDataTypeHistogram) (batch_metrics rm) →
  store_ok a →
  run_post (batch_ops now (batch_metrics rm)) (touched_batch rm) a (Accumulate now rm a).
Proof.
  intros Hall Hok. unfold Accumulate.
  destruct (Accumulate_ilms_run now (rm_InstrumentationLibraryMetrics rm) 0%nat a Hall Hok)
    as (n & a' & -> & Hrest).
  simpl. by exists n, a'.
Qed.

Lemma key_ops_fmap {A} (f1 f2 : A → string * accumulatedValue) (l : list A) (k : string) :
  (∀ x, (f1 x).1 = (f2 x).1 ∧ snapshot_of (f1 x).2 = snapshot_of (f2 x).2) →
  snapshot_of ∘ snd <$> filter (λ op, op.1 = k) (f1 <$> l)
  = snapshot_of ∘ snd <$> filter (λ op, op.1 = k) (f2 <$> l).
Proof.
  intros Hf. induction l as [|x l IH]; [done|].
  rewrite !fmap_cons, !filter_cons. destruct (Hf x) as [Hk Hv]. rewrite Hk.
  case_decide; [|done]. rewrite !fmap_cons, IH. simpl. by rewrite Hv.
Qed.

Lemma metric_ops_restamp now1 now2 il (metric : Metric) (k : string) :
  snapshot_of ∘ snd <$> filter (λ op, op.1 = k) (metric_ops now2 il metric)
  = snapshot_of ∘ snd <$> filter (λ op, op.1 = k) (metric_ops now1 il metric).
Proof.
  unfold metric_ops. destruct (Data metric) as [|g|s|h|s]; try done;
    try case_decide; try done; by apply key_ops_fmap.
Qed.

Lemma batch_ops_restamp now1 now2 (ms : list (InstrumentationLibrary * Metric))
    (k : string) :
  snapshot_of ∘ snd <$> filter (λ op, op.1 = k) (batch_ops now2 ms)
  = snapshot_of ∘ snd <$> filter (λ op, op.1 = k) (batch_ops now1 ms).
Proof.
  unfold batch_ops. induction ms as [|[il metric] ms IH]; [done|].
  rewrite !bind_cons, !filter_app, !fmap_app, IH. simpl.
  by rewrite (metric_ops_restamp now1 now2).
Qed.

Lemma sorted_point_idemp {V} (ip : DataPoint V) :
  sorted_point (sorted_point ip) = sorted_point ip.
Proof. unfold sorted_point, SetAttributes. simpl. by rewrite Sort_idemp. Qed.

Lemma metric_ops_touched now il (metric : Metric) :
  metric_ops now il (touched_metric metric) = metric_ops now il metric.
Proof.
  assert (Hpt : ∀ V (f g : DataPoint V → string * accumulatedValue) (dps : list (DataPoint V)),
            (∀ ip, f (sorted_point ip) = g ip) → f <$> (sorted_point <$> dps) = g <$> dps).
  { intros V f g dps Hfg. rewrite <- list_fmap_compose. apply list_fmap_ext.
    intros _ ip _. apply Hfg. }
  unfold metric_ops, touched_metric. destruct metric as [nm d u data].
  destruct data as [|[dps]|[t b dps]|[t dps]|[dps]]; simpl.
  - done.
  - apply Hpt. intros ip. unfold timeseriesSignature, gaugeSnapshot. simpl.
    by rewrite Sort_idemp, sorted_point_idemp.
  - destruct (decide (t ≠ AggregationTemporalityCumulative)) as [Hnc|Hc]; simpl.
    + by rewrite decide_True.
    + rewrite decide_False by done. apply Hpt. intros ip.
      unfold timeseriesSignature, sumSnapshot. simpl.
      by rewrite Sort_idemp, sorted_point_idemp.
  - by destruct (decide (t ≠ AggregationTemporalityCumulative)).
  - apply Hpt. intros ip. unfold timeseriesSignature, summarySnapshot. simpl.
    by rewrite Sort_idemp, sorted_point_idemp.
Qed.

Lemma touched_metric_DataType (metric : Metric) :
  DataType (touched_metric metric) = DataType metric.
Proof.
  unfold touched_metric, DataType.
  destruct (Data metric) eqn:Hd; rewrite ?Hd; try case_decide; simpl; by rewrite ?Hd.
Qed.

Lemma batch_metrics_touched (rm : ResourceMetrics) :
  batch_metrics (touched_batch rm) = prod_map id touched_metric <$> batch_metrics rm.
Proof.
  unfold batch_metrics, touched_batch. destruct rm as [ilms]. simpl.
  induction ilms as [|[il metrics] ilms IH]; [done|].
  rewrite fmap_cons, !bind_cons, fmap_app, IH. f_equal. simpl.
  rewrite <- !list_fmap_compose. done.
Qed.

Lemma batch_ops_touched now (rm : ResourceMetrics) :
  batch_ops now (batch_metrics (touched_batch rm)) = batch_ops now (batch_metrics rm).
Proof.
  rewrite batch_metrics_touched. unfold batch_ops.
  induction (batch_metrics rm) as [|[il metric] ms IH]; [done|].
  rewrite fmap_cons, !bind_cons, IH. simpl. by rewrite metric_ops_touched.
Qed.

Lemma first_ts_snapshot_of (v : accumulatedValue) :
  (first_ts ∘ fst) (snapshot_of v) = (first_ts ∘ value) v.
Proof. done. Qed.

(** X10. Re-delivery. For a batch without Histogram metrics and a
    well-formed store: accumulating the batch again (as it was sent, or as
    the first call handed it back) leaves every entry of the store with the
    snapshot and the scope it had after the first call; only the update
    times may change, and at the time of the first call nothing changes. *)
Theorem Accumulate_redelivery now1 now2 rm rm2 a :
  store_ok a →
  Forall (λ e, DataType e.2 ≠ MetricDataTypeHistogram) (batch_metrics rm) →
  rm2 = rm ∨ rm2 = touched_batch rm →
  ∃ n1 a1 n2 a2,
    Accumulate now1 rm a = Some (n1, a1, touched_batch rm) ∧
    Accumulate now2 rm2 a1 = Some (n2, a2, touched_batch rm2) ∧
    snapshot_of <$> registeredMetrics a2 = snapshot_of <$> registeredMetrics a1 ∧
    (now2 = now1 → a2 = a1).
Proof.
  intros Hok Hall Hrm2.
  destruct (Accumulate_run now1 rm a Hall Hok) as (n1 & a1 & Hr1 & Hreg1 & Hexp1 & Hok1).
  assert (Hall2 : Forall (λ e, DataType e.2 ≠ MetricDataTypeHistogram) (batch_metrics rm2)).
  { destruct Hrm2 as [->| ->]; [done|]. rewrite batch_metrics_touched, Forall_fmap.
    eapply Forall_impl; [exact Hall|]. intros [il metric]. simpl.
    by rewrite touched_metric_DataType. }
  assert (Hops2 : ∀ now, batch_ops now (batch_metrics rm2) = batch_ops now (batch_metrics rm)).
  { intros now. destruct Hrm2 as [->| ->]; [done|apply batch_ops_touched]. }
  destruct (Accumulate_run now2 rm2 a1 Hall2 Hok1) as (n2 & a2 & Hr2 & Hreg2 & Hexp2 & Hok2).
  rewrite Hops2 in Hreg2.
  exists n1, a1, n2, a2. split_and!; [done|done| |].
  - apply map_eq. intros k. rewrite !lookup_fmap, Hreg2, Hreg1, !lookup_foldl_apply_op.
    rewrite !(fold_merge_fmap (first_ts ∘ value) snapshot_of (first_ts ∘ fst))
      by apply first_ts_snapshot_of.
    rewrite <- !list_fmap_compose, (batch_ops_restamp now1 now2).
    apply fold_merge_idemp.
  - intros ->. apply lastValueAccumulator_eq; [|congruence].
    apply map_eq. intros k. rewrite Hreg2, Hreg1, !lookup_foldl_apply_op.
    apply fold_merge_idemp.
Qed.

End Extras.

(** ** The further properties on sample inputs *)

Section ExtraWitnesses.
#[local] Existing Instance sample_pdata.

Lemma reachable_sample_accumulator : reachable sample_accumulator.
Proof.
  apply (reachable_Accumulate 7 (sample_batch [sample_gauge [sample_point 100 10]])
           (newAccumulator 60) 1%nat sample_accumulator
           (touched_batch (sample_batch [sample_gauge [sample_point 100 10]])));
    [apply reachable_new|vm_compute; reflexivity].
Qed.

(** A cumulative sum point into the empty store, in one iteration and
    through [accumulateSum], which counts one; the same point in a delta sum
    is not stored. *)
Lemma accumulateSum_merge_policy_witness :
  accumulateSum_body (sample_sum AggregationTemporalityCumulative []) sample_il 7
                     (sample_point 100 10) 0 (newAccumulator 60)
  = stored "Sum*scope*requests*dc*b*host*a"
           (sumSnapshot (sample_sum AggregationTemporalityCumulative []) true
                        (sample_point 100 10))
           sample_il 7 (sample_point 100 10) 0 (newAccumulator 60) ∧
  accumulateSum (sample_sum AggregationTemporalityCumulative [sample_point 100 10])
                sample_il 7 (newAccumulator 60)
  = Some (1%nat,
          Store "Sum*scope*requests*dc*b*host*a"
                (mkAccumulatedValue
                   (sumSnapshot (sample_sum AggregationTemporalityCumulative []) true
                                (sample_point 100 10))
                   7 sample_il)
                (newAccumulator 60),
          sample_sum AggregationTemporalityCumulative [sorted_point (sample_point 100 10)]) ∧
  accumulateSum (sample_sum AggregationTemporalityDelta [sample_point 100 10])
                sample_il 7 (newAccumulator 60)
  = Some (0%nat, newAccumulator 60,
          sample_sum AggregationTemporalityDelta [sample_point 100 10]).
Proof.
  destruct (accumulateSum_merge_policy (sample_sum AggregationTemporalityCumulative [])
              _ sample_il 7 (sample_point 100 10) 0%nat (newAccumulator 60)
              eq_refl (store_ok_new 60)) as (Hfirst & _).
  destruct (accumulateSum_merge_policy
              (sample_sum AggregationTemporalityCumulative [sample_point 100 10])
              _ sample_il 7 (sample_point 100 10) 0%nat (newAccumulator 60)
              eq_refl (store_ok_new 60)) as (_ & _ & _ & Hone).
  destruct (accumulateSum_merge_policy
              (sample_sum AggregationTemporalityDelta [sample_point 100 10])
              _ sample_il 7 (sample_point 100 10) 0%nat (newAccumulator 60)
              eq_refl (store_ok_new 60)) as (_ & _ & _ & Hdelta).
  split_and!.
  - apply Hfirst. reflexivity.
  - etrans; [by apply Hone|vm_compute; reflexivity].
  - etrans; [by apply Hdelta|vm_compute; reflexivity].
Defined.

(** A cumulative histogram point into the empty store, in one iteration
    and through [accumulateDoubleHistogram], which counts one; a later point
    against it replaces it, in the snapshot of the replacing branch. *)
Lemma accumulateDoubleHistogram_merge_policy_witness :
  accumulateDoubleHistogram_body
    (sample_histogram AggregationTemporalityCumulative []) sample_il 7
    (mkDataPoint sample_labels 3 [1; 2]) 0 (newAccumulator 60)
  = stored "Histogram*scope*latency*dc*b*host*a"
           (histogramSnapshot (sample_histogram AggregationTemporalityCumulative [])
                              AggregationTemporalityUnspecified
                              (mkDataPoint sample_labels 3 [1; 2]))
           sample_il 7 (mkDataPoint sample_labels 3 [1; 2]) 0 (newAccumulator 60) ∧
  accumulateDoubleHistogram
    (sample_histogram AggregationTemporalityCumulative [mkDataPoint sample_labels 3 [1; 2]])
    sample_il 7 (newAccumulator 60)
  = Some (1%nat,
          Store "Histogram*scope*latency*dc*b*host*a"
                (mkAccumulatedValue
                   (histogramSnapshot (sample_histogram AggregationTemporalityCumulative [])
                                      AggregationTemporalityUnspecified
                                      (mkDataPoint sample_labels 3 [1; 2]))
                   7 sample_il)
                (newAccumulator 60),
          sample_histogram AggregationTemporalityCumulative
                           [sorted_point (mkDataPoint sample_labels 3 [1; 2])]) ∧
  accumulateDoubleHistogram
    (sample_histogram AggregationTemporalityCumulative [mkDataPoint sample_labels 4 [5; 6]])
    sample_il 8
    (Store "Histogram*scope*latency*dc*b*host*a"
           (mkAccumulatedValue
              (histogramSnapshot (sample_histogram AggregationTemporalityCumulative [])
                                 AggregationTemporalityUnspecified
                                 (mkDataPoint sample_labels 3 [1; 2]))
              7 sample_il)
           (newAccumulator 60))
  = Some (1%nat,
          Store "Histogram*scope*latency*dc*b*host*a"
                (mkAccumulatedValue
                   (histogramSnapshot (sample_histogram AggregationTemporalityCumulative [])
                                      AggregationTemporalityCumulative
                                      (mkDataPoint sample_labels 4 [5; 6]))
                   8 sample_il)
                (newAccumulator 60),
          sample_histogram AggregationTemporalityCumulative
                           [sorted_point (mkDataPoint sample_labels 4 [5; 6])]).
Proof.
  destruct (accumulateDoubleHistogram_merge_policy
              (sample_histogram AggregationTemporalityCumulative []) sample_il 7
              (mkDataPoint sample_labels 3 [1; 2]) 0%nat (newAccumulator 60)
              eq_refl (store_ok_new 60)) as (Hfirst & _).
  destruct (accumulateDoubleHistogram_merge_policy
              (sample_histogram AggregationTemporalityCumulative
                                [mkDataPoint sample_labels 3 [1; 2]]) sample_il 7
              (mkDataPoint sample_labels 3 [1; 2]) 0%nat (newAccumulator 60)
              eq_refl (store_ok_new 60)) as (_ & _ & _ & Hone).
  assert (Hok : store_ok
            (Store "Histogram*scope*latency*dc*b*host*a"
               (mkAccumulatedValue
                  (histogramSnapshot (sample_histogram AggregationTemporalityCumulative [])
                                     AggregationTemporalityUnspecified
                                     (mkDataPoint sample_labels 3 [1; 2]))
                  7 sample_il)
               (newAccumulator 60))).
  { apply store_ok_Store; [apply store_ok_new|].
    by apply (entry_ok_signature "scope"
                (sample_histogram AggregationTemporalityCumulative []) sample_labels). }
  destruct (accumulateDoubleHistogram_merge_policy
              (sample_histogram AggregationTemporalityCumulative
                                [mkDataPoint sample_labels 4 [5; 6]]) sample_il 8
              (mkDataPoint sample_labels 4 [5; 6]) 0%nat _
              eq_refl Hok) as (_ & _ & _ & Hnext).
  split_and!.
  - apply Hfirst. reflexivity.
  - etrans; [by apply (Hone _ eq_refl)|vm_compute; reflexivity].
  - etrans; [by apply (Hnext _ eq_refl)|vm_compute; reflexivity].
Defined.

(** Three gauge points with one signature, (ts = 100), (ts = 50) and
    (ts = 200), against a stored point (ts = 100): the first and the third
    are stored, and the count is 2. *)
Lemma Accumulate_count_is_stores_witness :
  ∃ n a',
    Accumulate 8 sample_gauge_batch sample_accumulator
    = Some (n, a', touched_batch sample_gauge_batch) ∧
    (n, registeredMetrics a')
    = foldl offer (0%nat, registeredMetrics sample_accumulator)
            (batch_offers 8 (batch_metrics sample_gauge_batch)) ∧
    nsteps (store_step 8 (batch_metrics sample_gauge_batch)) n sample_accumulator a' ∧
    (n ≤ length (batch_targets (batch_metrics sample_gauge_batch))
     ≤ batch_numDataPoints sample_gauge_batch)%nat ∧
    (size (registeredMetrics sample_accumulator) ≤ size (registeredMetrics a')
     ≤ size (registeredMetrics sample_accumulator) + n)%nat ∧
    n = 2%nat.
Proof.
  destruct (Accumulate_count_is_stores 8 sample_gauge_batch sample_accumulator
              store_ok_sample_accumulator) as (n & a' & Hr & Hfold & Hsteps & Hn & Hsize).
  exists n, a'.
  split; [exact Hr|]. split; [exact Hfold|]. split; [exact Hsteps|].
  split; [exact Hn|]. split; [exact Hsize|].
  apply (f_equal fst) in Hfold. etrans; [exact Hfold|vm_compute; reflexivity].
Defined.

Lemma Accumulate_frame_witness :
  ∃ n a',
    Accumulate 8 sample_gauge_batch sample_accumulator
    = Some (n, a', touched_batch sample_gauge_batch) ∧
    metricExpiration a' = metricExpiration sample_accumulator ∧
    (∀ key, key ∉ batch_signatures (batch_metrics sample_gauge_batch) →
            Load key a' = Load key sample_accumulator) ∧
    (∀ key, is_Some (Load key sample_accumulator) → is_Some (Load key a')).
Proof.
  exact (Accumulate_frame 8 sample_gauge_batch sample_accumulator
           store_ok_sample_accumulator).
Defined.

Lemma Accumulate_new_entries_witness :
  ∃ n a',
    Accumulate 8 sample_gauge_batch sample_accumulator
    = Some (n, a', touched_batch sample_gauge_batch) ∧
    ∀ key v', Load key a' = Some v' →
              Load key sample_accumulator = Some v' ∨
              (from_batch 8 (batch_metrics sample_gauge_batch) key v' ∧
               ∃ first replacing,
                 (key, first, replacing)
                 ∈ batch_offers 8 (batch_metrics sample_gauge_batch) ∧
                 (v' = first ∨ v' = replacing)).
Proof.
  exact (Accumulate_new_entries 8 sample_gauge_batch sample_accumulator
           store_ok_sample_accumulator).
Defined.

Lemma Accumulate_latest_wins_witness :
  ∃ n a',
    Accumulate 8 sample_gauge_batch sample_accumulator
    = Some (n, a', touched_batch sample_gauge_batch) ∧
    (∀ key v ts, Load key sample_accumulator = Some v →
                 Metric_Timestamps (value v) = [ts] → covers key ts a') ∧
    (∀ key ts, (key, ts) ∈ batch_targets (batch_metrics sample_gauge_batch) →
               covers key ts a') ∧
    (∀ key v' ts', Load key a' = Some v' → Metric_Timestamps (value v') = [ts'] →
       (∃ v, Load key sample_accumulator = Some v ∧ Metric_Timestamps (value v) = [ts']) ∨
       (key, ts') ∈ batch_targets (batch_metrics sample_gauge_batch)).
Proof.
  exact (Accumulate_latest_wins 8 sample_gauge_batch sample_accumulator
           store_ok_sample_accumulator).
Defined.

(** A batch of Sum metrics leaves the stored Gauge alone. *)
Lemma Accumulate_other_kinds_untouched_witness :
  ∃ n a',
    Accumulate 8 sample_sum_batch sample_accumulator
    = Some (n, a', touched_batch sample_sum_batch) ∧
    Load (timeseriesSignature "scope" (sample_gauge []) sample_labels).1 a'
    = Load (timeseriesSignature "scope" (sample_gauge []) sample_labels).1
           sample_accumulator.
Proof.
  apply (Accumulate_other_kinds_untouched 8 sample_sum_batch sample_accumulator
           "scope" (sample_gauge []) sample_labels store_ok_sample_accumulator).
  intros e He. apply list_elem_of_singleton in He as ->. discriminate.
Defined.

Lemma Accumulate_no_datapoints_witness :
  Accumulate 8 (sample_batch [sample_gauge []; sample_untyped;
                              sample_sum AggregationTemporalityCumulative []])
             sample_accumulator
  = Some (0%nat, sample_accumulator,
          sample_batch [sample_gauge []; sample_untyped;
                        sample_sum AggregationTemporalityCumulative []]).
Proof.
  apply (Accumulate_no_datapoints 8
           (sample_batch [sample_gauge []; sample_untyped;
                          sample_sum AggregationTemporalityCumulative []])
           sample_accumulator).
  repeat constructor.
Defined.

Lemma Accumulate_redelivery_witness :
  ∃ n1 a1 n2 a2,
    Accumulate 8 sample_gauge_batch sample_accumulator
    = Some (n1, a1, touched_batch sample_gauge_batch) ∧
    Accumulate 9 (touched_batch sample_gauge_batch) a1
    = Some (n2, a2, touched_batch (touched_batch sample_gauge_batch)) ∧
    snapshot_of <$> registeredMetrics a2 = snapshot_of <$> registeredMetrics a1 ∧
    (9 = 8 → a2 = a1).
Proof.
  apply (Accumulate_redelivery 8 9 sample_gauge_batch (touched_batch sample_gauge_batch)
           sample_accumulator store_ok_sample_accumulator).
  - repeat constructor; discriminate.
  - right. reflexivity.
Defined.

Lemma Accumulate_then_Collect_witness :
  ∃ n a',
    Accumulate 8 sample_gauge_batch sample_accumulator
    = Some (n, a', touched_batch sample_gauge_batch) ∧
    ∀ now2 order key v',
      Range_order a' order →
      Load key a' = Some v' →
      Load key sample_accumulator ≠ Some v' →
      if decide (8 < now2 - metricExpiration sample_accumulator)
      then Load key (Collect now2 order a').2 = None
      else Load key (Collect now2 order a').2 = Some v' ∧
           value v' ∈ (Collect now2 order a').1.
Proof.
  exact (Accumulate_then_Collect 8 sample_gauge_batch sample_accumulator
           store_ok_sample_accumulator).
Defined.

(** The stored gauge was written at 7 with an expiration of 60: a
    [Collect] at 50 keeps it, one at 100 evicts it, and so does the pair. *)
Lemma Collect_Collect_witness :
  (Collect 100 (map_to_list (registeredMetrics
                               (Collect 50 (map_to_list (registeredMetrics sample_accumulator))
                                        sample_accumulator).2))
           (Collect 50 (map_to_list (registeredMetrics sample_accumulator))
                    sample_accumulator).2).2
  = (Collect 100 (map_to_list (registeredMetrics sample_accumulator)) sample_accumulator).2.
Proof.
  apply (Collect_Collect 50 100
           (map_to_list (registeredMetrics sample_accumulator))
           (map_to_list (registeredMetrics
                           (Collect 50 (map_to_list (registeredMetrics sample_accumulator))
                                    sample_accumulator).2))
           (map_to_list (registeredMetrics sample_accumulator)) sample_accumulator);
    try (unfold Range_order; reflexivity).
  lia.
Defined.

Lemma Collect_shrinks_witness :
  registeredMetrics
    (Collect 100 (map_to_list (registeredMetrics sample_accumulator)) sample_accumulator).2
  ⊆ registeredMetrics sample_accumulator ∧
  length (Collect 100 (map_to_list (registeredMetrics sample_accumulator))
                  sample_accumulator).1
  = size (registeredMetrics
            (Collect 100 (map_to_list (registeredMetrics sample_accumulator))
                     sample_accumulator).2).
Proof.
  destruct (Collect_shrinks 100 (map_to_list (registeredMetrics sample_accumulator))
              sample_accumulator) as (Hsub & Hlen & _).
  - unfold Range_order. reflexivity.
  - by split.
Defined.

Lemma reachable_entries_consistent_witness :
  entry_consistent "Gauge*scope*temperature*dc*b*host*a"
    (mkAccumulatedValue (gaugeSnapshot (sample_gauge []) (sample_point 100 10)) 7 sample_il).
Proof.
  apply (reachable_entries_consistent sample_accumulator).
  - apply reachable_sample_accumulator.
  - vm_compute. reflexivity.
Defined.

End ExtraWitnesses.
